(** * Adequate Little Templates: a shallow embedding of [src/index.ts]

    The development follows the source file top to bottom:

    - the data model ([Value], [Expr], [Node]);
    - [truthy], [ck], the built-in function table [fns] and the
      evaluator [ev];
    - [esc] and the renderer [rn];
    - the parser of [compile] ([skipWs], [at], [skip], [ident],
      [parseExpr], [parseNodes]) and [render].

    Conventions.

    - A JavaScript string is a [string]: the sequence of its code units,
      taken here among the first 256.  The parser tells apart only
      ASCII characters, so it treats every other code unit alike.
    - A JavaScript number is a binary64 [float]; comparisons are the
      IEEE ones of [PrimFloat].
    - A JavaScript object holding data is the association list of its
      own properties, in insertion order.  What an object inherits from
      [Object.prototype] is written out where the source can reach it.
    - The cursor [pos] of the parser only moves forward and the input
      is only read at and after the cursor, so the parser state is the
      unread suffix [src.slice(pos)].
    - Evaluation is a computation in the monad [M]: it threads the state
      of the host program, which registered functions may change, and it
      may end in a thrown exception.
    - The data are plain: no getters, no holes in arrays, no prototype
      other than the standard one, and no array or object at two
      places.  Whether two evaluations gave the same array or object
      is not a matter of the contents: the host answers it, for the
      two expressions that [eq] and [ne] compare.
    - [parseExpr] and [parseNodes] call themselves, once for every
      nested parenthesis and block.  [parse_stack] is the parser on a
      call stack of a given depth, where a deeper nesting throws a
      RangeError; [parse] is the parser on a stack that is deep
      enough, and so are [compile], [render], the evaluator and the
      renderer. *)

From Stdlib Require Import String Ascii List ZArith NArith Lia Bool Arith.
From Stdlib Require Import DecimalString DecimalN.
From Stdlib Require Import Floats.PrimFloat Floats.FloatOps Floats.SpecFloat.
From Stdlib Require Import Uint63.
Import ListNotations.
Local Open Scope list_scope.
Local Open Scope string_scope.

Set Implicit Arguments.
Set Warnings "-register-all".

(* ================================================================= *)
(** ** Characters and strings *)

Module Chars.

Definition tab : ascii := ascii_of_nat 9.
Definition lf : ascii := ascii_of_nat 10.
Definition cr : ascii := ascii_of_nat 13.
Definition dquote : ascii := ascii_of_nat 34.
Definition squote : ascii := "'"%char.
Definition backslash : ascii := "\"%char.

Definition between (lo hi : nat) (c : ascii) : bool :=
  let n := nat_of_ascii c in ((lo <=? n) && (n <=? hi))%nat.

(** [/[0-9]/.test(c)] *)
Definition isDigit (c : ascii) : bool := between 48 57 c.

(** [/\w/.test(c)]: letters, digits and the underscore *)
Definition isWord (c : ascii) : bool :=
  between 65 90 c || between 97 122 c || isDigit c || Ascii.eqb c "_".

(** [" \t\n\r".includes(c)] *)
Definition isWs (c : ascii) : bool :=
  Ascii.eqb c " " || Ascii.eqb c tab || Ascii.eqb c lf || Ascii.eqb c cr.

(** [/[-0-9.]/.test(c)] *)
Definition isNumStart (c : ascii) : bool :=
  Ascii.eqb c "-" || isDigit c || Ascii.eqb c ".".

End Chars.

(** One-character string. *)
Definition str1 (c : ascii) : string := String c EmptyString.

(** Decimal form of a natural number, as [String(n)] prints it. *)
Definition N_to_string (n : N) : string :=
  NilEmpty.string_of_uint (N.to_uint n).

Definition nat_to_string (n : nat) : string := N_to_string (N.of_nat n).

(** The array index a property key denotes: [Some i] exactly when the key
    is the canonical decimal form of [i]. *)
Definition index_of_key (k : string) : option N :=
  match NilEmpty.uint_of_string k with
  | Some d =>
      let i := N.of_uint d in
      if String.eqb (N_to_string i) k then Some i else None
  | None => None
  end.

(** [s.slice(0, n)] for [0 <= n]. *)
Fixpoint take_str (n : nat) (s : string) : string :=
  match n, s with
  | S n', String c r => String c (take_str n' r)
  | _, _ => EmptyString
  end.

Fixpoint drop_str (n : nat) (s : string) : string :=
  match n, s with
  | S n', String _ r => drop_str n' r
  | _, _ => s
  end.

Arguments drop_str : simpl nomatch.

(** [s.split(sep).join(rep)]: every occurrence of [sep], found left to
    right without overlap, becomes [rep]; for the empty [sep] the string
    is split between all its code units. *)
Fixpoint split_join_go (sep rep : string) (skipn : nat) (s : string) : string :=
  match s with
  | EmptyString => EmptyString
  | String c r =>
      match skipn with
      | S k => split_join_go sep rep k r
      | O =>
          if String.prefix sep s
          then rep ++ split_join_go sep rep (String.length sep - 1) r
          else String c (split_join_go sep rep 0 r)
      end
  end.

Fixpoint intersperse_str (rep : string) (s : string) : string :=
  match s with
  | EmptyString => EmptyString
  | String c EmptyString => str1 c
  | String c r => String c (rep ++ intersperse_str rep r)
  end.

Definition split_join (s sep rep : string) : string :=
  match sep with
  | EmptyString => intersperse_str rep s
  | _ => split_join_go sep rep 0 s
  end.

(* ================================================================= *)
(** ** Numbers *)

Module Num.

(** The number of a length or an index (these are below [2^53], where
    the conversion is exact). *)
Definition of_N (n : N) : float := PrimFloat.of_uint63 (Uint63.of_Z (Z.of_N n)).
Definition of_nat (n : nat) : float := of_N (N.of_nat n).

(** [v === 0] on a number: both zeros compare equal to [0]. *)
Definition is_zero (f : float) : bool := PrimFloat.eqb f PrimFloat.zero.

(** [Number.isNaN] on a number. *)
Definition is_nan (f : float) : bool := PrimFloat.is_nan f.

Inductive integer := Fin (z : Z) | PosInf | NegInf.

(** ToIntegerOrInfinity: NaN goes to 0, the fraction is dropped. *)
Definition toIntegerOrInfinity (f : float) : integer :=
  match Prim2SF f with
  | S754_nan => Fin 0
  | S754_zero _ => Fin 0
  | S754_infinity s => if s then NegInf else PosInf
  | S754_finite s m e =>
      let a := if (0 <=? e)%Z then (Zpos m * 2 ^ e)%Z
               else (Zpos m / 2 ^ (- e))%Z in
      Fin (if s then (- a)%Z else a)
  end.

(** The end index of [x.slice(0, n)] on a sequence of length [len]. *)
Definition slice_end (len : nat) (n : integer) : nat :=
  match n with
  | NegInf => 0
  | PosInf => len
  | Fin z =>
      if (z <? 0)%Z then Z.to_nat (Z.max (Z.of_nat len + z) 0)
      else Nat.min (Z.to_nat z) len
  end.

End Num.

(* ================================================================= *)
(** ** Data model *)

(** [type Value]: [undefined] and [null] are kept apart, as [String]
    and [===] tell them apart. *)
Inductive Value : Type :=
| VUndef
| VNull
| VBool (b : bool)
| VNum (n : float)
| VStr (s : string)
| VArr (l : list Value)
| VObj (m : list (string * Value)).

(** [type TemplateData]: the own properties of the data object. *)
Definition TemplateData : Type := list (string * Value).

(** [type Expr] *)
Inductive Expr : Type :=
| L (val : Value)
| V (path : list string)
| C (fn : string) (args : list Expr)
| P (left_ : Expr) (fn : string) (args : list Expr).

(** [type Node]; [raw?: 1] is a flag, [else?] and [idx?] are optional. *)
Inductive Node : Type :=
| T (val : string)
| I (expr : Expr) (raw : bool)
| F (branches : list (Expr * list Node)) (els : option (list Node))
| E (arr : Expr) (as_ : string) (idx : option string)
    (body : list Node) (els : option (list Node)).

(* ----------------------------------------------------------------- *)
(** *** Own properties *)

Fixpoint assoc {A : Type} (k : string) (m : list (string * A)) : option A :=
  match m with
  | [] => None
  | (k', v) :: r => if String.eqb k' k then Some v else assoc k r
  end.

Definition owns {A : Type} (m : list (string * A)) (k : string) : bool :=
  match assoc k m with Some _ => true | None => false end.

(** Defining an own property: the value of an existing key is replaced
    in place, a new key goes last.  This is what the object literal
    [{ ...ctx, [k]: v }] does with [k] after copying [ctx]. *)
Fixpoint obj_define (k : string) (v : Value) (m : TemplateData) : TemplateData :=
  match m with
  | [] => [(k, v)]
  | (k', v') :: r =>
      if String.eqb k' k then (k', v) :: r else (k', v') :: obj_define k v r
  end.

(** The assignment [o[k] = v] on an object made by an object literal,
    for a primitive [v].  An own key is overwritten and a new key is
    added, except that the key [__proto__], when it is not an own key,
    reaches the setter inherited from [Object.prototype], which ignores a
    primitive value and adds nothing. *)
Definition obj_assign (k : string) (v : Value) (m : TemplateData) : TemplateData :=
  if String.eqb k "__proto__" && negb (owns m k) then m
  else obj_define k v m.

(** [v == null] *)
Definition nullish (v : Value) : bool :=
  match v with VUndef | VNull => true | _ => false end.

Definition has_index (len : nat) (k : string) : bool :=
  match index_of_key k with
  | Some i => (i <? N.of_nat len)%N
  | None => false
  end.

(** [Object.prototype.hasOwnProperty.call(v, k)] for [v] not nullish.
    Arrays and (boxed) strings own their indices and ["length"];
    numbers and booleans own nothing. *)
Definition has (v : Value) (k : string) : bool :=
  match v with
  | VObj m => owns m k
  | VArr l => String.eqb k "length" || has_index (List.length l) k
  | VStr s => String.eqb k "length" || has_index (String.length s) k
  | _ => false
  end.

(** [v[k]] when [k] is an own key of [v]. *)
Definition get (v : Value) (k : string) : Value :=
  match v with
  | VObj m => match assoc k m with Some x => x | None => VUndef end
  | VArr l =>
      if String.eqb k "length" then VNum (Num.of_nat (List.length l))
      else match index_of_key k with
           | Some i => nth (N.to_nat i) l VUndef
           | None => VUndef
           end
  | VStr s =>
      if String.eqb k "length" then VNum (Num.of_nat (String.length s))
      else match index_of_key k with
           | Some i =>
               match String.get (N.to_nat i) s with
               | Some c => VStr (str1 c)
               | None => VUndef
               end
           | None => VUndef
           end
  | _ => VUndef
  end.

(** The loop of the Variable case of [ev]:
    [for (const k of e.path) { if (v == null || !has(v, k)) return undefined; v = v[k]; }] *)
Fixpoint walk (v : Value) (path : list string) : Value :=
  match path with
  | [] => v
  | k :: ks => if nullish v || negb (has v k) then VUndef else walk (get v k) ks
  end.

(* ----------------------------------------------------------------- *)
(** *** Truthiness *)

(** [truthy] *)
Definition truthy (v : Value) : bool :=
  negb
    match v with
    | VNull => true
    | VUndef => true
    | VBool b => negb b
    | VNum n => Num.is_zero n || Num.is_nan n
    | VStr s => String.eqb s ""
    | VArr l => match l with [] => true | _ => false end
    | VObj m => match m with [] => true | _ => false end
    end.

(** [ck] *)
Definition ck (a : list Expr) (n : nat) (name : string) : option string :=
  if (List.length a <? n)%nat
  then Some ("[Error: " ++ name ++ "() needs " ++ nat_to_string n ++ " args]")
  else None.

(* ================================================================= *)
(** ** The host *)

(** What the source takes from the JavaScript runtime and what the data
    model above does not determine: the printing and reading of
    numbers, the Unicode case mappings and [trim], and whether two
    evaluations gave the same array or object. *)
Class Host : Type := {
  (** [String(x)] for a number [x] *)
  numToString : float -> string;
  (** [parseFloat(s)] *)
  parseFloat : string -> float;
  (** [Number(s)] for a string [s] *)
  stringToNumber : string -> float;
  (** [s.toLowerCase()], [s.toUpperCase()], [s.trim()] *)
  toLowerCase : string -> string;
  toUpperCase : string -> string;
  trim : string -> string;
  (** [ev(e1, ctx) === ev(e2, ctx)] when both are arrays or both are
      objects: whether the two evaluations gave the same one *)
  sameRef : Expr -> Expr -> TemplateData -> bool
}.

(** The names of the built-in functions of [fns]. *)
Inductive Builtin : Type :=
| Beq | Bne | Bgt | Blt | Bgte | Blte
| Band | Bor | Bnot
| Blowercase | Buppercase | Btrim | Btruncate | Breplace
| Blimit | Bfirst | Blast | Blength | Bjoin
| Bdefault.

(** The properties a plain object inherits from [Object.prototype]
    besides [constructor] and [toString]. *)
Definition object_prototype_rest : list string :=
  [ "__defineGetter__"; "__defineSetter__"; "hasOwnProperty";
    "__lookupGetter__"; "__lookupSetter__"; "isPrototypeOf";
    "propertyIsEnumerable"; "valueOf"; "__proto__"; "toLocaleString" ].

Section Evaluator.

(** The state of the host program. *)
Context {State : Type}.
Context {host : Host}.

(* --------------------------------------------------------------- *)
(** *** Computations *)

(** A computation reads and writes the host state and ends with a
    value, or with [None] when an exception was thrown. *)
Definition M (A : Type) : Type := State -> option A * State.

Definition ret {A : Type} (a : A) : M A := fun s => (Some a, s).

Definition throw {A : Type} : M A := fun s => (None, s).

Definition bind {A B : Type} (c : M A) (k : A -> M B) : M B :=
  fun s =>
    match c s with
    | (Some a, s') => k a s'
    | (None, s') => (None, s')
    end.

Definition liftO {A : Type} (o : option A) : M A :=
  match o with Some a => ret a | None => throw end.

Local Notation "x <- c ;; k" := (bind c (fun x => k))
  (at level 61, c at next level, right associativity).

(** [type CustomFn] *)
Definition CustomFn : Type := list Value -> M Value.

(** An entry of [fns]: a built-in, or the adapter that
    [registerFunction] wraps around a custom function. *)
Inductive Fn : Type :=
| Native (b : Builtin)
| Registered (f : CustomFn).

(** The own properties of [fns]. *)
Definition Registry : Type := list (string * Fn).

(** The table [fns] as the module creates it. *)
Definition fns : Registry :=
  [ ("eq", Native Beq); ("ne", Native Bne); ("gt", Native Bgt);
    ("lt", Native Blt); ("gte", Native Bgte); ("lte", Native Blte);
    ("and", Native Band); ("or", Native Bor); ("not", Native Bnot);
    ("lowercase", Native Blowercase); ("uppercase", Native Buppercase);
    ("trim", Native Btrim); ("truncate", Native Btruncate);
    ("replace", Native Breplace); ("limit", Native Blimit);
    ("first", Native Bfirst); ("last", Native Blast);
    ("length", Native Blength); ("join", Native Bjoin);
    ("default", Native Bdefault) ].

(** [registerFunction], for a name other than [__proto__]. *)
Definition registerFunction (name : string) (fn : CustomFn)
  (reg : Registry) : Registry :=
  (name, Registered fn) :: reg.

(** What [fns[name]] finds: an own entry, or else a member of
    [Object.prototype]. *)
Inductive Found : Type :=
| Own (f : Fn)
| ProtoConstructor
| ProtoToString
| ProtoOther.

(** [fns[name]]; [None] when the result is [undefined]. *)
Definition lookup_fn (reg : Registry) (name : string) : option Found :=
  match assoc name reg with
  | Some f => Some (Own f)
  | None =>
      if String.eqb name "constructor" then Some ProtoConstructor
      else if String.eqb name "toString" then Some ProtoToString
      else if existsb (String.eqb name) object_prototype_rest
           then Some ProtoOther
      else None
  end.

(* --------------------------------------------------------------- *)
(** *** Conversions *)

(** [r.join(sep)] over the string forms [f] of the elements;
    [undefined] and [null] elements print as the empty string. *)
Fixpoint join_with (f : Value -> option string) (sep : string)
  (l : list Value) : option string :=
  let elem x := if nullish x then Some "" else f x in
  match l with
  | [] => Some ""
  | [x] => elem x
  | x :: r =>
      match elem x, join_with f sep r with
      | Some a, Some b => Some (a ++ sep ++ b)
      | _, _ => None
      end
  end.

(** [String(v)].  An object that owns a key [toString] has no string
    form: the conversion throws a TypeError ([None]). *)
Fixpoint toStr (v : Value) : option string :=
  match v with
  | VUndef => Some "undefined"
  | VNull => Some "null"
  | VBool b => Some (if b then "true" else "false")
  | VNum n => Some (numToString n)
  | VStr s => Some s
  | VArr l => join_with toStr "," l
  | VObj m => if owns m "toString" then None else Some "[object Object]"
  end.

(** [Number(v)] *)
Definition toNum (v : Value) : option float :=
  match v with
  | VUndef => Some PrimFloat.nan
  | VNull => Some PrimFloat.zero
  | VBool b => Some (if b then PrimFloat.one else PrimFloat.zero)
  | VNum n => Some n
  | VStr s => Some (stringToNumber s)
  | VArr _ | VObj _ => option_map stringToNumber (toStr v)
  end.

(** [x === y]; two arrays and two objects are equal when they are the
    same one, which [same] tells. *)
Definition strict_eq (same : bool) (x y : Value) : bool :=
  match x, y with
  | VUndef, VUndef => true
  | VNull, VNull => true
  | VBool a, VBool b => Bool.eqb a b
  | VNum a, VNum b => PrimFloat.eqb a b
  | VStr a, VStr b => String.eqb a b
  | VArr _, VArr _ => same
  | VObj _, VObj _ => same
  | _, _ => false
  end.

(* --------------------------------------------------------------- *)
(** *** The built-in functions *)

Section Builtins.

(** The evaluator the built-ins call back. *)
Variable ev : Expr -> TemplateData -> M Value.

(** [ev(a[i], ctx)]: a missing argument is [undefined], which [ev]
    answers with [undefined] ([if (!e) return undefined]). *)
Fixpoint arg (a : list Expr) (i : nat) (ctx : TemplateData) {struct a}
  : M Value :=
  match a, i with
  | [], _ => ret VUndef
  | e :: _, O => ev e ctx
  | _ :: r, S j => arg r j ctx
  end.

(** [a.map((e) => ev(e, ctx))] *)
Fixpoint args_map (a : list Expr) (ctx : TemplateData) : M (list Value) :=
  match a with
  | [] => ret []
  | e :: r => v <- ev e ctx ;; vs <- args_map r ctx ;; ret (v :: vs)
  end.

(** [ck(a, n, name) ?? body], and
    [const e = ck(a, n, name); if (e) return e; body] *)
Definition checked (a : list Expr) (n : nat) (name : string)
  (body : M Value) : M Value :=
  match ck a n name with
  | Some e => ret (VStr e)
  | None => body
  end.

(** [Number(ev(a[0], ctx)) op Number(ev(a[1], ctx))] *)
Definition compare_with (op : float -> float -> bool)
  (ctx : TemplateData) (a : list Expr) : M Value :=
  x <- arg a 0 ctx ;; nx <- liftO (toNum x) ;;
  y <- arg a 1 ctx ;; ny <- liftO (toNum y) ;;
  ret (VBool (op nx ny)).

(** The loop of [and] ([stop_on = false]) and of [or]
    ([stop_on = true]): [r] is the last result. *)
Fixpoint logic_loop (stop_on : bool) (ctx : TemplateData) (r : Value)
  (a : list Expr) : M Value :=
  match a with
  | [] => ret r
  | e :: rest =>
      r' <- ev e ctx ;;
      if Bool.eqb (truthy r') stop_on then ret r'
      else logic_loop stop_on ctx r' rest
  end.

Definition fn_and (ctx : TemplateData) (a : list Expr) : M Value :=
  logic_loop false ctx (VBool true) a.

Definition fn_or (ctx : TemplateData) (a : list Expr) : M Value :=
  logic_loop true ctx (VBool false) a.

(** [String(ev(a[0], ctx))] *)
Definition str_arg (a : list Expr) (i : nat) (ctx : TemplateData)
  : M string :=
  v <- arg a i ctx ;; liftO (toStr v).

Definition fn_truncate (ctx : TemplateData) (a : list Expr) : M Value :=
  checked a 2 "truncate"
    (s <- str_arg a 0 ctx ;;
     v <- arg a 1 ctx ;; n <- liftO (toNum v) ;;
     suffix <- (if (2 <? List.length a)%nat then str_arg a 2 ctx
                else ret "...") ;;
     let len := String.length s in
     ret (VStr
            (if PrimFloat.ltb n (Num.of_nat len)
             then take_str (Num.slice_end len (Num.toIntegerOrInfinity n)) s
                  ++ suffix
             else s))).

Definition fn_replace (ctx : TemplateData) (a : list Expr) : M Value :=
  checked a 3 "replace"
    (s <- str_arg a 0 ctx ;;
     sep <- str_arg a 1 ctx ;;
     rep <- str_arg a 2 ctx ;;
     ret (VStr (split_join s sep rep))).

Definition fn_limit (ctx : TemplateData) (a : list Expr) : M Value :=
  checked a 2 "limit"
    (r <- arg a 0 ctx ;;
     n <- arg a 1 ctx ;;
     match r with
     | VArr l =>
         x <- liftO (toNum n) ;;
         let e :=
           if PrimFloat.ltb x PrimFloat.zero then Num.Fin 0
           else match n with
                | VUndef => Num.PosInf
                | _ => Num.toIntegerOrInfinity x
                end in
         ret (VArr (firstn (Num.slice_end (List.length l) e) l))
     | _ => ret r
     end).

Definition fn_first (ctx : TemplateData) (a : list Expr) : M Value :=
  checked a 1 "first"
    (r <- arg a 0 ctx ;;
     ret match r with VArr l => nth 0 l VUndef | _ => r end).

Definition fn_last (ctx : TemplateData) (a : list Expr) : M Value :=
  checked a 1 "last"
    (r <- arg a 0 ctx ;;
     ret match r with VArr l => List.last l VUndef | _ => r end).

Definition fn_length (ctx : TemplateData) (a : list Expr) : M Value :=
  checked a 1 "length"
    (v <- arg a 0 ctx ;;
     match v with
     | VArr l => ret (VNum (Num.of_nat (List.length l)))
     | _ => s <- liftO (toStr v) ;;
            ret (VNum (Num.of_nat (String.length s)))
     end).

Definition fn_join (ctx : TemplateData) (a : list Expr) : M Value :=
  checked a 2 "join"
    (r <- arg a 0 ctx ;;
     match r with
     | VArr l => sep <- str_arg a 1 ctx ;;
                 s <- liftO (join_with toStr sep l) ;;
                 ret (VStr s)
     | _ => s <- liftO (toStr r) ;; ret (VStr s)
     end).

Definition fn_default (ctx : TemplateData) (a : list Expr) : M Value :=
  checked a 2 "default"
    (v <- arg a 0 ctx ;;
     if truthy v then ret v else arg a 1 ctx).

(** Whether [ev(a[0], ctx)] and [ev(a[1], ctx)] are the same array or
    object. *)
Definition same_args (ctx : TemplateData) (a : list Expr) : bool :=
  sameRef (nth 0 a (L VUndef)) (nth 1 a (L VUndef)) ctx.

(** The body of each entry of [fns]. *)
Definition builtin (b : Builtin) (ctx : TemplateData) (a : list Expr)
  : M Value :=
  match b with
  | Beq => checked a 2 "eq"
             (x <- arg a 0 ctx ;; y <- arg a 1 ctx ;;
              ret (VBool (strict_eq (same_args ctx a) x y)))
  | Bne => checked a 2 "ne"
             (x <- arg a 0 ctx ;; y <- arg a 1 ctx ;;
              ret (VBool (negb (strict_eq (same_args ctx a) x y))))
  | Bgt => checked a 2 "gt" (compare_with (fun x y => PrimFloat.ltb y x) ctx a)
  | Blt => checked a 2 "lt" (compare_with PrimFloat.ltb ctx a)
  | Bgte => checked a 2 "gte" (compare_with (fun x y => PrimFloat.leb y x) ctx a)
  | Blte => checked a 2 "lte" (compare_with PrimFloat.leb ctx a)
  | Band => fn_and ctx a
  | Bor => fn_or ctx a
  | Bnot => checked a 1 "not"
              (v <- arg a 0 ctx ;; ret (VBool (negb (truthy v))))
  | Blowercase => s <- str_arg a 0 ctx ;; ret (VStr (toLowerCase s))
  | Buppercase => s <- str_arg a 0 ctx ;; ret (VStr (toUpperCase s))
  | Btrim => s <- str_arg a 0 ctx ;; ret (VStr (trim s))
  | Btruncate => fn_truncate ctx a
  | Breplace => fn_replace ctx a
  | Blimit => fn_limit ctx a
  | Bfirst => fn_first ctx a
  | Blast => fn_last ctx a
  | Blength => fn_length ctx a
  | Bjoin => fn_join ctx a
  | Bdefault => fn_default ctx a
  end.

(** The call [fn(ctx, ...a)] of what [fns[name]] found.  A
    registered function gets the evaluated arguments.  Of the
    inherited members, called with no receiver, [constructor] hands
    back its first argument, [toString] names the missing receiver,
    and every other one throws a TypeError. *)
Definition invoke (f : Found) (ctx : TemplateData) (a : list Expr)
  : M Value :=
  match f with
  | Own (Native b) => builtin b ctx a
  | Own (Registered g) => vs <- args_map a ctx ;; g vs
  | ProtoConstructor => ret (VObj ctx)
  | ProtoToString => ret (VStr "[object Undefined]")
  | ProtoOther => throw
  end.

(** The Call and Pipe case of [ev] for the argument list [a]. *)
Definition call (reg : Registry) (fn : string) (ctx : TemplateData)
  (a : list Expr) : M Value :=
  match lookup_fn reg fn with
  | None => ret (VStr ("[Error: unknown " ++ fn ++ "()]"))
  | Some f => invoke f ctx a
  end.

End Builtins.

(* --------------------------------------------------------------- *)
(** *** The evaluator *)

(** [ev], reading the table [reg] *)
Fixpoint ev (reg : Registry) (e : Expr) (ctx : TemplateData) {struct e}
  : M Value :=
  match e with
  | L val => ret val
  | V path => ret (walk (VObj ctx) path)
  | C fn args => call (ev reg) reg fn ctx args
  | P left_ fn args => call (ev reg) reg fn ctx (left_ :: args)
  end.

End Evaluator.

(* ================================================================= *)
(** ** The renderer *)

(** [s.replace(/c/g, by_)] for a single character [c] *)
Fixpoint replace_char (c : ascii) (by_ : string) (s : string) : string :=
  match s with
  | EmptyString => EmptyString
  | String x r =>
      if Ascii.eqb x c then by_ ++ replace_char c by_ r
      else String x (replace_char c by_ r)
  end.

(** [esc] *)
Definition esc (s : string) : string :=
  replace_char Chars.squote "&#39;"
    (replace_char Chars.dquote "&quot;"
       (replace_char ">" "&gt;"
          (replace_char "<" "&lt;"
             (replace_char "&" "&amp;" s)))).

(** [if (n.idx)]: the index name is present and not the empty string. *)
Definition declared (idx : option string) : option string :=
  match idx with
  | Some EmptyString => None
  | _ => idx
  end.

(** The context of one iteration:
    [const local = { ...ctx, [n.as]: arr[i] }; if (n.idx) local[n.idx] = i;] *)
Definition local_ctx (ctx : TemplateData) (as_ : string) (idx : option string)
  (x : Value) (i : nat) : TemplateData :=
  let local := obj_define as_ x ctx in
  match declared idx with
  | Some k => obj_assign k (VNum (Num.of_nat i)) local
  | None => local
  end.

Section Renderer.

Context {State : Type}.
Context {host : Host}.

Local Notation "x <- c ;; k" := (bind c (fun x => k))
  (at level 61, c at next level, right associativity).

Variable reg : Registry (State := State).

(** The loop [for (const n of nodes)] of [rn] around the rendering
    [f] of one node. *)
Fixpoint rn_with (f : Node -> TemplateData -> M string)
  (nodes : list Node) (ctx : TemplateData) : M (State := State) string :=
  match nodes with
  | [] => ret ""
  | n :: rest => s <- f n ctx ;; out <- rn_with f rest ctx ;; ret (s ++ out)
  end.

(** [for (const b of n.branches) if (truthy(ev(b.cond, ctx))) { ...; break; }];
    [fallback] is what [if (!matched && n.else) out += rn(n.else, ctx)]
    appends when no branch matched. *)
Fixpoint branches_loop (body_of : list Node -> M string)
  (ctx : TemplateData) (fallback : M string)
  (branches : list (Expr * list Node)) : M (State := State) string :=
  match branches with
  | [] => fallback
  | (cond, body) :: rest =>
      v <- ev reg cond ctx ;;
      if truthy v then body_of body
      else branches_loop body_of ctx fallback rest
  end.

(** [for (let i = 0; i < arr.length; i++)], from index [i] on *)
Fixpoint each_loop (body_in : TemplateData -> M string)
  (ctx : TemplateData) (as_ : string) (idx : option string)
  (i : nat) (items : list Value) : M (State := State) string :=
  match items with
  | [] => ret ""
  | x :: rest =>
      s <- body_in (local_ctx ctx as_ idx x i) ;;
      out <- each_loop body_in ctx as_ idx (S i) rest ;;
      ret (s ++ out)
  end.

(** What [rn] appends for one node. *)
Fixpoint rn_node (n : Node) (ctx : TemplateData) {struct n}
  : M (State := State) string :=
  match n with
  | T val => ret val
  | I expr raw =>
      v <- ev reg expr ctx ;;
      match v with
      | VArr _ => ret "[Error: use #each for arrays]"
      | VObj _ => ret "[Error: cannot render object]"
      | _ =>
          s <- (if nullish v then ret "" else liftO (toStr v)) ;;
          ret (if raw then s else esc s)
      end
  | F branches els =>
      branches_loop (fun body => rn_with rn_node body ctx) ctx
        (match els with Some e => rn_with rn_node e ctx | None => ret "" end)
        branches
  | E arr as_ idx body els =>
      v <- ev reg arr ctx ;;
      match v with
      | VArr items =>
          match items, els with
          | [], Some e => rn_with rn_node e ctx
          | _, _ =>
              each_loop (fun local => rn_with rn_node body local)
                ctx as_ idx 0 items
          end
      | _ => ret "[Error: #each needs array]"
      end
  end.

(** [rn] *)
Definition rn (nodes : list Node) (ctx : TemplateData) : M string :=
  rn_with rn_node nodes ctx.

End Renderer.

(* ================================================================= *)
(** ** The parser of [compile] *)

(** Every function below takes the unread input [src.slice(pos)] and
    gives back what it leaves unread. *)

(** [skipWs] *)
Fixpoint skipWs (s : string) : string :=
  match s with
  | String c r => if Chars.isWs c then skipWs r else s
  | EmptyString => s
  end.

(** [at] *)
Definition at_ (p : string) (s : string) : bool := String.prefix p s.

(** [skip] *)
Definition skip (p : string) (s : string) : string :=
  if at_ p s then drop_str (String.length p) s else s.

(** [ident]: the identifier read and the rest *)
Fixpoint ident (s : string) : string * string :=
  match s with
  | String c r =>
      if Chars.isWord c then let (w, r') := ident r in (String c w, r')
      else (EmptyString, s)
  | EmptyString => (EmptyString, s)
  end.

(** [src[pos] === c] *)
Definition starts (c : ascii) (s : string) : bool :=
  match s with
  | String x _ => Ascii.eqb x c
  | EmptyString => false
  end.

(** [c === "n" ? "\n" : c === "t" ? "\t" : c === "r" ? "\r" : c] *)
Definition unescape (c : ascii) : ascii :=
  if Ascii.eqb c "n" then Chars.lf
  else if Ascii.eqb c "t" then Chars.tab
  else if Ascii.eqb c "r" then Chars.cr
  else c.

(** The loop of the string literal, entered after the opening quote
    [q]: [Some (s, rest)] when the closing quote is found, with [rest]
    what follows it; [None] when the end of the input is reached
    first. *)
Fixpoint scan_string (q : ascii) (s : string) : option (string * string) :=
  match s with
  | EmptyString => None
  | String c r =>
      if Ascii.eqb c q then Some (EmptyString, r)
      else if Ascii.eqb c Chars.backslash then
        match r with
        | String c2 r2 =>
            match scan_string q r2 with
            | Some (t, rest) => Some (String (unescape c2) t, rest)
            | None => None
            end
        | EmptyString => None
        end
      else
        match scan_string q r with
        | Some (t, rest) => Some (String c t, rest)
        | None => None
        end
  end.

(** The string literal: an unclosed string becomes empty, and the
    cursor is then at the end of the input. *)
Definition string_literal (q : ascii) (s : string) : Expr * string :=
  match scan_string q s with
  | Some (t, rest) => (L (VStr t), rest)
  | None => (L (VStr EmptyString), EmptyString)
  end.

(** The [while] loop of the number literal; [dot] tells that a decimal
    point was read. *)
Fixpoint scan_digits (dot : bool) (s : string) : string * string :=
  match s with
  | String c r =>
      if Chars.isDigit c then
        let (t, rest) := scan_digits dot r in (String c t, rest)
      else if Ascii.eqb c "." && negb dot then
        let (t, rest) := scan_digits true r in (String c t, rest)
      else (EmptyString, s)
  | EmptyString => (EmptyString, s)
  end.

(** The text of the number literal and the rest. *)
Definition scan_number (s : string) : string * string :=
  let (minus, s1) :=
    if starts "-" s then ("-", drop_str 1 s) else (EmptyString, s) in
  let '(point, dot, s2) :=
    if starts "." s1 then (".", true, drop_str 1 s1)
    else (EmptyString, false, s1) in
  let (digits, s3) := scan_digits dot s2 in
  (minus ++ point ++ digits, s3).

(** [while (pos < src.length && !at("}}")) pos++] *)
Fixpoint scan_to_close (s : string) : string :=
  match s with
  | EmptyString => s
  | String _ r => if at_ "}}" s then s else scan_to_close r
  end.

Definition any_at (stops : list string) (s : string) : bool :=
  existsb (fun p => at_ p s) stops.

(** The plain-text loop: the text read and the rest. *)
Fixpoint scan_text (stops : list string) (s : string) : string * string :=
  match s with
  | EmptyString => (EmptyString, s)
  | String c r =>
      if any_at stops s || at_ "\{{" s || at_ "{{" s then (EmptyString, s)
      else let (t, rest) := scan_text stops r in (String c t, rest)
  end.

Local Notation "'let?' p ':=' c 'in' k" :=
  (match c with Some p => k | None => None end)
  (at level 10, p pattern, c at level 100, k at level 200).

Section Parser.

Context {host : Host}.

Section ExprLoops.

(** The expression parser the loops call back. *)
Variable parseExpr : string -> option (Expr * string).

(** The argument loop of a call or a pipe, entered after [(] and
    [skipWs]; [k] bounds the number of iterations. *)
Fixpoint parseArgs (k : nat) (s : string) : option (list Expr * string) :=
  match s with
  | EmptyString => Some ([], s)
  | String c _ =>
      if Ascii.eqb c ")" || Ascii.eqb c "}" then Some ([], s)
      else
        match k with
        | O => None
        | S k' =>
            let? (e, s1) := parseExpr s in
            let s2 := skipWs s1 in
            let s3 := if starts "," s2 then skipWs (drop_str 1 s2) else s2 in
            let? (es, s4) := parseArgs k' s3 in
            Some (e :: es, s4)
        end
  end.

(** [(] args [)]: the loop and [if (src[pos] === ")") pos++] *)
Definition parseParens (k : nat) (s : string) : option (list Expr * string) :=
  let? (args, s1) := parseArgs k (skipWs s) in
  Some (args, if starts ")" s1 then drop_str 1 s1 else s1).

(** [while (src[pos] === "|")] *)
Fixpoint parsePipes (k : nat) (expr : Expr) (s : string)
  : option (Expr * string) :=
  if starts "|" s then
    match k with
    | O => None
    | S k' =>
        let (fn, s1) := ident (skipWs (drop_str 1 s)) in
        let s2 := skipWs s1 in
        let? (args, s3) :=
          if starts "(" s2 then parseParens k' (drop_str 1 s2)
          else Some ([], s2) in
        parsePipes k' (P expr fn args) (skipWs s3)
    end
  else Some (expr, s).

(** [while (src[pos] === ".") { pos++; path.push(ident()); }];
    each iteration reads the dot, so [String.length s] iterations
    are enough for [k]. *)
Fixpoint parsePath (k : nat) (s : string) : list string * string :=
  if starts "." s then
    match k with
    | O => ([], s)
    | S k' =>
        let (seg, s1) := ident (drop_str 1 s) in
        let (segs, s2) := parsePath k' s1 in
        (seg :: segs, s2)
    end
  else ([], s).

(** The first part of [parseExpr], from the cursor [start]: a string
    literal, a number literal, or an identifier that is a keyword, a
    call or a variable path. *)
Definition parseBase (k : nat) (start : string) : option (Expr * string) :=
  if starts Chars.dquote start || starts Chars.squote start then
    match start with
    | String q r => Some (string_literal q r)
    | EmptyString => None
    end
  else if match start with
          | String ch _ => Chars.isNumStart ch
          | EmptyString => false
          end then
    let (s, r) := scan_number start in
    Some (if String.eqb s "-" || String.eqb s "." || String.eqb s ""
          then V [if String.eqb s "" then "-" else s]
          else L (VNum (parseFloat s)), r)
  else
    let (name, r) := ident start in
    if String.eqb name "true" then Some (L (VBool true), r)
    else if String.eqb name "false" then Some (L (VBool false), r)
    else if String.eqb name "null" then Some (L VNull, r)
    else
      let r1 := skipWs r in
      if starts "(" r1 then
        let? (args, r2) := parseParens k (drop_str 1 r1) in
        Some (C name args, r2)
      else
        let (path, r2) := parsePath (String.length r1) r1 in
        Some (V (name :: path), r2).

End ExprLoops.

(** [parseExpr]; [fuel] bounds the nesting of calls.  [start] is the
    cursor after the leading white space; at the end the cursor moves
    one character on when it is still there
    ([if (pos === start && pos < src.length) pos++]). *)
Fixpoint parseExpr_fuel (fuel : nat) (src : string) {struct fuel}
  : option (Expr * string) :=
  match fuel with
  | O => None
  | S fuel' =>
      let start := skipWs src in
      let? (expr, s1) := parseBase (parseExpr_fuel fuel') fuel' start in
      let? (expr', s2) :=
        parsePipes (parseExpr_fuel fuel') fuel' expr (skipWs s1) in
      Some (expr',
            if (String.length s2 =? String.length start)%nat
            then drop_str 1 s2 else s2)
  end.

(** [parseExpr] with the fuel the input calls for: the parser on a
    call stack that is deep enough for the input. *)
Definition parseExpr (src : string) : option (Expr * string) :=
  parseExpr_fuel (S (String.length src)) src.


End Parser.

Section NodeParser.

Context {host : Host}.

Definition stops_if : list string :=
  ["{{:else if"; "{{:elseif"; "{{:else}}"; "{{/if}}"].

Definition stops_each : list string := ["{{:else}}"; "{{/each}}"].

Section NodeLoops.

(** The expression parser and the node parser the branches of a tag
    call back. *)
Variable parseExpr : string -> option (Expr * string).
Variable parseNodes : list string -> string -> option (list Node * string).

(** [while (at("{{:else if") || at("{{:elseif"))] *)
Fixpoint parseElseIfs (k : nat) (s : string)
  : option (list (Expr * list Node) * string) :=
  if at_ "{{:else if" s || at_ "{{:elseif" s then
    match k with
    | O => None
    | S k' =>
        let s1 := skipWs (drop_str (if at_ "{{:elseif" s then 9 else 10) s) in
        let? (cond2, s2) := parseExpr s1 in
        let s3 := skip "}}" (skipWs s2) in
        let? (body, s4) := parseNodes stops_if s3 in
        let? (bs, s5) := parseElseIfs k' s4 in
        Some ((cond2, body) :: bs, s5)
    end
  else Some ([], s).

(** The branch [kw === "if"], entered after the keyword and [skipWs] *)
Definition parseIf (k : nat) (s : string) : option (Node * string) :=
  let? (cond, s1) := parseExpr s in
  let s2 := skip "}}" (skipWs s1) in
  let? (body, s3) := parseNodes stops_if s2 in
  let? (more, s4) := parseElseIfs k s3 in
  let? (elseBody, s5) :=
    if at_ "{{:else}}" s4 then
      let? (e, r) := parseNodes ["{{/if}}"] (drop_str 9 s4) in
      Some (Some e, r)
    else Some (None, s4) in
  Some (F ((cond, body) :: more) elseBody, skip "{{/if}}" s5).

(** The branch [kw === "each"], entered after the keyword and
    [skipWs].  Without the keyword [as] the error text is pushed and
    the loop goes on from the cursor, which is after the word read
    for [as] and the whitespace behind it. *)
Definition parseEach (s : string) : option (Node * string) :=
  let? (arrExpr, s1) := parseExpr s in
  let (asKw, s2) := ident (skipWs s1) in
  let s3 := skipWs s2 in
  if negb (String.eqb asKw "as") then
    Some (T "[Error: #each missing 'as']", s3)
  else
    let (itemName, s4) := ident s3 in
    let s5 := skipWs s4 in
    let (idxName, s6) :=
      if starts "," s5 then
        let (i, r) := ident (skipWs (drop_str 1 s5)) in (Some i, skipWs r)
      else (None, s5) in
    let s7 := skip "}}" s6 in
    let? (body, s8) := parseNodes stops_each s7 in
    let? (elseBody, s9) :=
      if at_ "{{:else}}" s8 then
        let? (e, r) := parseNodes ["{{/each}}"] (drop_str 9 s8) in
        Some (Some e, r)
      else Some (None, s8) in
    Some (E arrExpr itemName idxName body elseBody, skip "{{/each}}" s9).

(** The branch [at("{{")], entered after the delimiter and [skipWs]:
    the node pushed and the rest. *)
Definition parseTag (k : nat) (s : string) : option (Node * string) :=
  if starts "+" s then
    let? (expr, s1) := parseExpr (skipWs (drop_str 1 s)) in
    let s2 := skipWs (skip "+" (skipWs s1)) in
    Some (I expr true, skip "}}" (scan_to_close s2))
  else if starts "#" s then
    let (kw, s1) := ident (drop_str 1 s) in
    let s2 := skipWs s1 in
    if String.eqb kw "if" then parseIf k s2
    else if String.eqb kw "each" then parseEach s2
    else Some (T ("[Error: unknown #" ++ kw ++ "]"), skip "}}" (skipWs s2))
  else
    let? (expr, s1) := parseExpr s in
    Some (I expr false, skip "}}" (scan_to_close (skipWs s1))).

(** One iteration of the loop of [parseNodes], entered where the
    input is not at its end and no stop sequence is at the cursor:
    the nodes pushed (none when the text read is empty) and the
    rest. *)
Definition parseStep (stops : list string) (k : nat) (s : string)
  : option (list Node * string) :=
  if at_ "\{{" s then Some ([T "{{"], drop_str 3 s)
  else if at_ "{{" s then
    let? (n, s1) := parseTag k (skipWs (drop_str 2 s)) in
    Some ([n], s1)
  else
    let (text, s1) := scan_text stops s in
    Some (if String.eqb text "" then [] else [T text], s1).

(** The loop [outer: while (pos < src.length)] of [parseNodes]; [k]
    bounds the number of iterations. *)
Fixpoint parseLoop (stops : list string) (k : nat) (s : string)
  : option (list Node * string) :=
  match s with
  | EmptyString => Some ([], s)
  | String _ _ =>
      if any_at stops s then Some ([], s)
      else
        match k with
        | O => None
        | S k' =>
            let? (pushed, s1) := parseStep stops k' s in
            let? (ns, r) := parseLoop stops k' s1 in
            Some (pushed ++ ns, r)%list
        end
  end.

End NodeLoops.

(** [parseNodes]; [fuel] bounds the nesting of blocks. *)
Fixpoint parseNodes_fuel (fuel : nat) (stops : list string) (src : string)
  {struct fuel} : option (list Node * string) :=
  match fuel with
  | O => None
  | S fuel' => parseLoop parseExpr (parseNodes_fuel fuel') stops fuel' src
  end.

(** [parseNodes] with the fuel the input calls for. *)
Definition parseNodes (stops : list string) (src : string)
  : option (list Node * string) :=
  parseNodes_fuel (S (String.length src)) stops src.

(** [const ast = parseNodes()], on a call stack that is deep enough
    for the template *)
Definition parse (tmpl : string) : option (list Node) :=
  let? (ast, _) := parseNodes [] tmpl in
  Some ast.



End NodeParser.

(* ================================================================= *)
(** ** The public functions *)

Section Public.

Context {State : Type}.
Context {host : Host}.

(** [type Template], bound to the table it reads *)
Definition Template : Type :=
  Registry (State := State) -> TemplateData -> M (State := State) string.

(** [compile] *)
Definition compile (tmpl : string) : option Template :=
  let? ast := parse tmpl in
  Some (fun reg data => rn reg ast data).

(** [render]: the template is compiled, then rendered with [data]
    from the host state [s]. *)
Definition render (reg : Registry) (tmpl : string) (data : TemplateData)
  (s : State) : option (option string * State) :=
  let? t := compile tmpl in
  Some (t reg data s).

End Public.

(* ================================================================= *)
(** ** A host for closed examples *)

(** The examples and test cases below run on this host.  It agrees
    with the JavaScript runtime on what they use: strings of ASCII
    characters, and numbers that are integers below [2^53] in magnitude
    or decimal literals of at most 15 digits.  Numbers with a fraction
    are read but not printed.  Two arrays or objects count as the same
    one exactly when the same variable path names both. *)
Module RefHost.

Definition lower (c : ascii) : ascii :=
  if Chars.between 65 90 c then ascii_of_nat (nat_of_ascii c + 32) else c.

Definition upper (c : ascii) : ascii :=
  if Chars.between 97 122 c then ascii_of_nat (nat_of_ascii c - 32) else c.

Fixpoint map_str (f : ascii -> ascii) (s : string) : string :=
  match s with
  | EmptyString => EmptyString
  | String c r => String (f c) (map_str f r)
  end.

(** White space of [trim] among the first 256 code units. *)
Definition isTrimWs (c : ascii) : bool :=
  Chars.between 9 13 c || Ascii.eqb c " " || Ascii.eqb c (ascii_of_nat 160).

Fixpoint trim_start (s : string) : string :=
  match s with
  | String c r => if isTrimWs c then trim_start r else s
  | EmptyString => s
  end.

Fixpoint rev_str (acc s : string) : string :=
  match s with
  | EmptyString => acc
  | String c r => rev_str (String c acc) r
  end.

Definition trim_ws (s : string) : string :=
  rev_str "" (trim_start (rev_str "" (trim_start s))).

Definition float_of_Z (z : Z) : float :=
  if (z <? 0)%Z then PrimFloat.opp (Num.of_N (Z.to_N (- z)))
  else Num.of_N (Z.to_N z).

Definition num_to_string (f : float) : string :=
  match Prim2SF f with
  | S754_nan => "NaN"
  | S754_zero _ => "0"
  | S754_infinity s => if s then "-Infinity" else "Infinity"
  | S754_finite s m e =>
      if (0 <=? e)%Z || (Zpos m mod 2 ^ (- e) =? 0)%Z then
        match Num.toIntegerOrInfinity f with
        | Num.Fin z =>
            (if (z <? 0)%Z then "-" else "") ++ N_to_string (Z.abs_N z)
        | _ => ""
        end
      else ""
  end.

Fixpoint digits_value (acc : N) (s : string) : N * nat * string :=
  match s with
  | String c r =>
      if Chars.isDigit c
      then let '(v, n, rest) :=
             digits_value (acc * 10 + N.of_nat (nat_of_ascii c - 48)) r in
           (v, S n, rest)
      else (acc, 0, s)
  | EmptyString => (acc, 0, s)
  end.

(** The longest decimal literal at the head of [s] and what is left;
    [None] when there is no digit. *)
Definition read_decimal (s : string) : option (float * string) :=
  let (neg, s1) := if starts "-" s then (true, drop_str 1 s)
                   else if starts "+" s then (false, drop_str 1 s)
                   else (false, s) in
  let '(ip, ni, s2) := digits_value 0 s1 in
  let '(all, nf, s3) :=
    if starts "." s2 then
      let '(v, n, r) := digits_value ip (drop_str 1 s2) in
      if (ni + n =? 0)%nat then (ip, 0, s2)
      else (v, n, r)
    else (ip, 0, s2) in
  if (ni + nf =? 0)%nat then None
  else
    let x := PrimFloat.div (Num.of_N all) (Num.of_N (10 ^ N.of_nat nf)) in
    Some (if neg then PrimFloat.opp x else x, s3).

Definition parse_float (s : string) : float :=
  match read_decimal (trim_start s) with
  | Some (x, _) => x
  | None => PrimFloat.nan
  end.

Definition string_to_number (s : string) : float :=
  match trim_ws s with
  | EmptyString => PrimFloat.zero
  | t => match read_decimal t with
         | Some (x, EmptyString) => x
         | _ => PrimFloat.nan
         end
  end.

(** Two paths of variables that are the same path reach the same
    array or object. *)
Definition same_path (e1 e2 : Expr) (ctx : TemplateData) : bool :=
  match e1, e2 with
  | V p1, V p2 => if list_eq_dec String.string_dec p1 p2 then true else false
  | _, _ => false
  end.

Definition host : Host := {|
  numToString := num_to_string;
  parseFloat := parse_float;
  stringToNumber := string_to_number;
  toLowerCase := map_str lower;
  toUpperCase := map_str upper;
  trim := trim_ws;
  sameRef := same_path
|}.

(** [render] on this host, with no host state, from the table [fns]:
    the text rendered, or [None] for a thrown exception. *)
Definition run (tmpl : string) (data : TemplateData) : option (option string) :=
  option_map fst (render (host := host) (fns (State := unit)) tmpl data tt).

End RefHost.

(* ================================================================= *)
(** ** Vocabulary of the properties *)

(** The values the source lists as falsy. *)
Definition falsy_listed (v : Value) : Prop :=
  v = VNull \/ v = VUndef \/ v = VBool false
  \/ (exists n, v = VNum n /\ Num.is_zero n = true)
  \/ v = VStr ""
  \/ (exists n, v = VNum n /\ Num.is_nan n = true)
  \/ v = VArr []
  \/ v = VObj [].

(** The name each built-in passes to [ck], which is also its key in
    [fns]. *)
Definition builtin_name (b : Builtin) : string :=
  match b with
  | Beq => "eq" | Bne => "ne" | Bgt => "gt" | Blt => "lt"
  | Bgte => "gte" | Blte => "lte"
  | Band => "and" | Bor => "or" | Bnot => "not"
  | Blowercase => "lowercase" | Buppercase => "uppercase" | Btrim => "trim"
  | Btruncate => "truncate" | Breplace => "replace"
  | Blimit => "limit" | Bfirst => "first" | Blast => "last"
  | Blength => "length" | Bjoin => "join"
  | Bdefault => "default"
  end.

(** The count each built-in passes to [ck]; [None] for the five that
    do not call [ck]. *)
Definition min_args (b : Builtin) : option nat :=
  match b with
  | Beq | Bne | Bgt | Blt | Bgte | Blte => Some 2
  | Band | Bor => None
  | Bnot => Some 1
  | Blowercase | Buppercase | Btrim => None
  | Btruncate => Some 2
  | Breplace => Some 3
  | Blimit => Some 2
  | Bfirst | Blast | Blength => Some 1
  | Bjoin => Some 2
  | Bdefault => Some 2
  end.

(** The text of an arity error. *)
Definition arity_error (name : string) (n : nat) : string :=
  "[Error: " ++ name ++ "() needs " ++ nat_to_string n ++ " args]".

(** A table with a registered function that counts its calls in the
    host state, like [countAnd] of the test suite. *)
Definition counting : Registry (State := nat) :=
  registerFunction "count" (fun _ n => (Some (VStr "x"), S n)) fns.

(** A parser of expressions that, on every input shorter than [n],
    returns, reads nothing twice and reads at least one character of a
    non-empty input. *)
Definition expr_parser_ok (pe : string -> option (Expr * string)) (n : nat)
  : Prop :=
  forall s, String.length s < n ->
    exists e r, pe s = Some (e, r)
                /\ String.length r <= String.length s
                /\ (s <> "" -> String.length r < String.length s).

(** A parser of nodes that, on every input shorter than [n], returns
    and hands back a suffix no longer than its input. *)
Definition node_parser_ok
  (pn : list string -> string -> option (list Node * string)) (n : nat)
  : Prop :=
  forall stops s, String.length s < n ->
    exists ns r, pn stops s = Some (ns, r)
                 /\ String.length r <= String.length s.

(** A number of the examples. *)
Definition num (z : Z) : Value := VNum (RefHost.float_of_Z z).

(** No tag opens in [s]: no suffix of [s] starts with [{{]. *)
Fixpoint no_open (s : string) : bool :=
  match s with
  | EmptyString => true
  | String _ r => negb (at_ "{{" s) && no_open r
  end.

(** What [esc] makes of one character. *)
Definition esc_char (c : ascii) : string :=
  if Ascii.eqb c "&" then "&amp;"
  else if Ascii.eqb c "<" then "&lt;"
  else if Ascii.eqb c ">" then "&gt;"
  else if Ascii.eqb c Chars.dquote then "&quot;"
  else if Ascii.eqb c Chars.squote then "&#39;"
  else str1 c.

Fixpoint esc_chars (s : string) : string :=
  match s with
  | EmptyString => EmptyString
  | String c r => esc_char c ++ esc_chars r
  end.

(** The characters that open or close markup or an attribute value. *)
Definition markup_char (c : ascii) : bool :=
  Ascii.eqb c "<" || Ascii.eqb c ">" || Ascii.eqb c Chars.dquote
  || Ascii.eqb c Chars.squote.

Fixpoint has_markup (s : string) : bool :=
  match s with
  | EmptyString => false
  | String c r => markup_char c || has_markup r
  end.

(** The function names an expression calls, as a test. *)
Fixpoint calls (name : string) (e : Expr) : bool :=
  match e with
  | L _ => false
  | V _ => false
  | C fn args => String.eqb fn name || existsb (calls name) args
  | P l fn args =>
      String.eqb fn name || calls name l || existsb (calls name) args
  end.

(** A table that holds built-ins only. *)
Definition native_only {State : Type} (reg : Registry (State := State)) : bool :=
  forallb (fun '(_, f) =>
             match f with Native _ => true | Registered _ => false end) reg.

(** A computation that does not read or write the host state. *)
Definition stateless {State A : Type} (c : M (State := State) A) : Prop :=
  exists r, forall s, c s = (r, s).

(** The body of a string literal for the text [s]: a backslash goes
    before every backslash and every quote character [q]. *)
Fixpoint quote_escape (q : ascii) (s : string) : string :=
  match s with
  | EmptyString => EmptyString
  | String c r =>
      if Ascii.eqb c q || Ascii.eqb c Chars.backslash
      then String Chars.backslash (String c (quote_escape q r))
      else String c (quote_escape q r)
  end.

Fixpoint all_word (s : string) : bool :=
  match s with
  | EmptyString => true
  | String c r => Chars.isWord c && all_word r
  end.

(** A name a template can use for a variable: word characters, the
    first not a digit, and not one of the keywords. *)
Definition variable_name (name : string) : bool :=
  match name with
  | EmptyString => false
  | String c _ =>
      all_word name && negb (Chars.isDigit c)
      && negb (String.eqb name "true") && negb (String.eqb name "false")
      && negb (String.eqb name "null")
  end.

(** The function names the expressions of a node call, as a test. *)
Fixpoint node_calls (name : string) (n : Node) : bool :=
  match n with
  | T _ => false
  | I e _ => calls name e
  | F branches els =>
      existsb (fun '(cond, body) =>
                 calls name cond || existsb (node_calls name) body) branches
      || match els with
         | Some e => existsb (node_calls name) e
         | None => false
         end
  | E arr _ _ body els =>
      calls name arr || existsb (node_calls name) body
      || match els with
         | Some e => existsb (node_calls name) e
         | None => false
         end
  end.

(** Text with no brace and no backslash. *)
Fixpoint plain (s : string) : bool :=
  match s with
  | EmptyString => true
  | String c r =>
      negb (Ascii.eqb c "{") && negb (Ascii.eqb c Chars.backslash) && plain r
  end.

(** [if (text) nodes.push({ t: 0, val: text })]: the nodes pushed for
    the text read. *)
Definition text_nodes (t : string) : list Node :=
  if String.eqb t "" then [] else [T t].

(** The number of occurrences of a character. *)
Fixpoint count_char (c : ascii) (s : string) : nat :=
  match s with
  | EmptyString => 0
  | String x r => (if Ascii.eqb x c then 1 else 0) + count_char c r
  end.


(* ================================================================= *)
(** * Properties *)

(** ** Variable resolution *)

Lemma walk_undef (path : list string) : walk VUndef path = VUndef.
Proof. destruct path; reflexivity. Qed.

(** Walking a path in two parts. *)
Lemma walk_app (p q : list string) :
  forall v, walk v (p ++ q)%list = walk (walk v p) q.
Proof.
  induction p as [|k ks IH]; intros v; simpl.
  - reflexivity.
  - destruct (nullish v || negb (has v k)).
    + now rewrite walk_undef.
    + apply IH.
Qed.

(** One step of the walk, after the prefix [pre]. *)
Lemma walk_step (v : Value) (pre : list string) (k : string) (post : list string) :
  walk v (pre ++ k :: post)%list =
    if nullish (walk v pre) || negb (has (walk v pre) k) then VUndef
    else walk (get (walk v pre) k) post.
Proof. rewrite walk_app. reflexivity. Qed.

Lemma assoc_owns {A : Type} (m : list (string * A)) (k : string) :
  owns m k = false <-> assoc k m = None.
Proof. unfold owns. destruct (assoc k m); split; congruence. Qed.

Section EvaluatorFacts.

Context {State : Type}.
Context {host : Host}.

Implicit Types (reg : Registry (State := State)) (ctx : TemplateData)
  (s : State).

(** A Variable is the walk from the context; it changes no state and
    throws nothing. *)
Lemma ev_variable reg ctx (path : list string) s :
  ev reg (V path) ctx s = (Some (walk (VObj ctx) path), s).
Proof. reflexivity. Qed.

(** C1: a Variable path is walked from the context left to right.  At
    each step, after any prefix [pre] of the path, if the current value
    is null or absent or the next segment [k] is not an own key of it,
    the whole expression evaluates to the absent value [undefined],
    with no exception and no error string; otherwise the walk goes on
    from the own property.  In particular a name that the context only
    inherits from [Object.prototype], such as [constructor],
    [__proto__] or [hasOwnProperty], is not resolved. *)
Theorem C1_variable_own_keys_only reg ctx
  (pre : list string) (k : string) (post : list string) s :
  let cur := walk (VObj ctx) pre in
  (nullish cur = true \/ has cur k = false ->
     ev reg (V (pre ++ k :: post)) ctx s = (Some VUndef, s))
  /\ (nullish cur = false -> has cur k = true ->
     ev reg (V (pre ++ k :: post)) ctx s = (Some (walk (get cur k) post), s))
  /\ (In k ("constructor" :: "toString" :: object_prototype_rest) ->
      owns ctx k = false ->
      ev reg (V (k :: post)) ctx s = (Some VUndef, s)).
Proof.
  intros cur. rewrite !ev_variable. subst cur.
  repeat split.
  - intros [Hn | Hh]; rewrite walk_step.
    + now rewrite Hn.
    + rewrite Hh. now rewrite orb_true_r.
  - intros Hn Hh. rewrite walk_step, Hn, Hh. reflexivity.
  - intros _ Ho. simpl. now rewrite Ho.
Qed.

(** C6: a Pipe evaluates exactly as the Call of the same function with
    the left-hand expression put before the arguments: the same value
    or exception and the same effect on the host state, whatever the
    table holds under the name, and also when it holds nothing, where
    both are the error value naming the unknown function. *)
Theorem C6_pipe_is_call reg (l : Expr) (f : string) (a : list Expr) ctx :
  ev reg (P l f a) ctx = ev reg (C f (l :: a)) ctx
  /\ (lookup_fn reg f = None ->
      forall s,
        ev reg (P l f a) ctx s = (Some (VStr ("[Error: unknown " ++ f ++ "()]")), s)
        /\ ev reg (C f (l :: a)) ctx s
           = (Some (VStr ("[Error: unknown " ++ f ++ "()]")), s)).
Proof.
  split.
  - reflexivity.
  - intros Hf s. simpl. unfold call. rewrite Hf. split; reflexivity.
Qed.

End EvaluatorFacts.

(** ** Truthiness *)

Lemma truthy_partition (v : Value) : truthy v = false <-> falsy_listed v.
Proof.
  unfold falsy_listed, truthy. split.
  - destruct v as [| |b|n|s|l|m]; simpl; intros H.
    + tauto.
    + tauto.
    + destruct b; [discriminate | tauto].
    + apply negb_false_iff, orb_true_iff in H.
      destruct H as [H|H]; [right; right; right; left | do 5 right; left];
        exists n; auto.
    + apply negb_false_iff, String.eqb_eq in H. subst. tauto.
    + destruct l; [tauto | discriminate].
    + destruct m; [tauto | discriminate].
  - intros [H|[H|[H|[[n [H Hz]]|[H|[[n [H Hn]]|[H|H]]]]]]]; subst; simpl;
      try reflexivity.
    + now rewrite Hz.
    + rewrite Hn. now rewrite orb_true_r.
Qed.

(** ** The built-in functions *)

(** The last element of a list that has a first one. *)
Lemma last_cons_default {A : Type} (xs : list A) :
  forall x d, List.last (x :: xs) d = List.last xs x.
Proof.
  induction xs as [|y ys IH]; intros x d.
  - reflexivity.
  - change (List.last (y :: ys) d = List.last (y :: ys) x).
    now rewrite !IH.
Qed.

Section BuiltinFacts.

Context {State : Type}.
Context {host : Host}.

Implicit Types (reg : Registry (State := State)) (ctx : TemplateData)
  (s : State).

Lemma ck_short (a : list Expr) (n : nat) (name : string) :
  List.length a < n -> ck a n name = Some (arity_error name n).
Proof.
  intros H. unfold ck. apply Nat.ltb_lt in H. now rewrite H.
Qed.

Lemma ck_enough (a : list Expr) (n : nat) (name : string) :
  n <= List.length a -> ck a n name = None.
Proof.
  intros H. unfold ck. apply Nat.ltb_ge in H. now rewrite H.
Qed.

(** Every built-in of the table [fns] is found under its name. *)
Lemma fns_lookup (b : Builtin) :
  lookup_fn (fns (State := State)) (builtin_name b) = Some (Own (Native b)).
Proof. destruct b; reflexivity. Qed.

(** The body of a built-in that calls [ck], on too few arguments. *)
Lemma builtin_short (ev' : Expr -> TemplateData -> M (State := State) Value)
  (b : Builtin) (n : nat) ctx (a : list Expr) s :
  min_args b = Some n -> List.length a < n ->
  builtin ev' b ctx a s = (Some (VStr (arity_error (builtin_name b) n)), s).
Proof.
  intros Hb Hlen.
  destruct b; simpl in Hb; inversion Hb; subst n; clear Hb; simpl;
    unfold fn_truncate, fn_replace, fn_limit, fn_first, fn_last,
      fn_length, fn_join, fn_default, checked;
    rewrite (ck_short _ _ Hlen); reflexivity.
Qed.

(** C2 (as amended): for every built-in whose body calls [ck] (eq, ne,
    gt, lt, gte, lte, truncate, limit, join and default with 2, not,
    first, last and length with 1, replace with 3), a Call with fewer
    argument expressions than that count evaluates to exactly the
    error value [[Error: <name>() needs <N> args]]; no argument is
    evaluated: the result does not depend on the arguments or the
    context, nothing is thrown and the host state is unchanged. *)
Theorem C2_arity_error reg (name : string) (b : Builtin) (n : nat)
  (args : list Expr) ctx s :
  lookup_fn reg name = Some (Own (Native b)) ->
  min_args b = Some n ->
  List.length args < n ->
  ev reg (C name args) ctx s
  = (Some (VStr ("[Error: " ++ builtin_name b ++ "() needs "
                   ++ nat_to_string n ++ " args]")), s).
Proof.
  intros Hf Hb Hlen. simpl. unfold call. rewrite Hf. simpl.
  now apply builtin_short.
Qed.

(* --------------------------------------------------------------- *)
(** *** The logical built-ins *)

Variable ev' : Expr -> TemplateData -> M (State := State) Value.

(** The loop stops at the first result whose truthiness is [stop]:
    nothing behind it is evaluated. *)
Lemma logic_loop_stops (stop : bool) ctx (pre : list Expr) :
  forall (e : Expr) (post : list Expr) (r : Value) s
         (vs : list Value) s1 (v : Value) s2,
    args_map ev' pre ctx s = (Some vs, s1) ->
    forallb (fun x => Bool.eqb (truthy x) (negb stop)) vs = true ->
    ev' e ctx s1 = (Some v, s2) ->
    truthy v = stop ->
    logic_loop ev' stop ctx r (pre ++ e :: post) s = (Some v, s2).
Proof.
  induction pre as [|p pre IH]; intros e post r s vs s1 v s2 Hpre Hall He Hv.
  - simpl in Hpre. injection Hpre as Hvs Hs. subst s1. simpl. unfold bind.
    rewrite He, Hv, Bool.eqb_reflx. reflexivity.
  - simpl in Hpre. unfold bind in Hpre.
    destruct (ev' p ctx s) as [[x|] sx] eqn:Hp; [|discriminate].
    destruct (args_map ev' pre ctx sx) as [[xs|] sy] eqn:Hxs; [|discriminate].
    injection Hpre as Hvs Hs. subst vs sy. simpl in Hall.
    apply andb_true_iff in Hall. destruct Hall as [Hx Hall].
    simpl. unfold bind at 1. rewrite Hp.
    apply Bool.eqb_prop in Hx. rewrite Hx.
    replace (Bool.eqb (negb stop) stop) with false by now destruct stop.
    eapply IH; eauto.
Qed.

(** When no result has the truthiness [stop], the loop evaluates every
    argument and returns the last result. *)
Lemma logic_loop_runs_out (stop : bool) ctx (a : list Expr) :
  forall (r : Value) s (vs : list Value) s1,
    args_map ev' a ctx s = (Some vs, s1) ->
    forallb (fun x => Bool.eqb (truthy x) (negb stop)) vs = true ->
    logic_loop ev' stop ctx r a s = (Some (List.last vs r), s1).
Proof.
  induction a as [|p a IH]; intros r s vs s1 Ha Hall.
  - simpl in Ha. injection Ha as Hvs Hs. subst vs s1. reflexivity.
  - simpl in Ha. unfold bind in Ha.
    destruct (ev' p ctx s) as [[x|] sx] eqn:Hp; [|discriminate].
    destruct (args_map ev' a ctx sx) as [[xs|] sy] eqn:Hxs; [|discriminate].
    injection Ha as Hvs Hs. subst vs sy. simpl in Hall.
    apply andb_true_iff in Hall. destruct Hall as [Hx Hall].
    simpl logic_loop. unfold bind at 1. rewrite Hp.
    apply Bool.eqb_prop in Hx. rewrite Hx.
    replace (Bool.eqb (negb stop) stop) with false by now destruct stop.
    rewrite (IH x sx xs s1 Hxs Hall).
    now rewrite last_cons_default.
Qed.

End BuiltinFacts.

Lemma forallb_truthy (stop : bool) (vs : list Value) :
  forallb (fun x => Bool.eqb (truthy x) (negb stop)) vs
  = forallb (fun x => if stop then negb (truthy x) else truthy x) vs.
Proof.
  induction vs as [|x vs IH]; simpl; [reflexivity|].
  rewrite IH. now destruct stop, (truthy x).
Qed.

Section LogicFacts.

Context {State : Type}.
Context {host : Host}.

Implicit Types (reg : Registry (State := State)) (ctx : TemplateData)
  (s : State).

(** C4: [and] evaluates its arguments from left to right.  When the
    arguments [pre] evaluate to truthy values and the next one, [e],
    to a falsy value [v], the call returns [v] in the state [e] left:
    the arguments [post] behind [e] are not evaluated and have no
    effect.  When all arguments are truthy the call returns the last
    result.  [or] does the same with truthy and falsy exchanged.  In
    particular [and(e1, e2)] with [e1] falsy and [or(e1, e2)] with [e1]
    truthy are the evaluation of [e1] alone. *)
Theorem C4_and_or_short_circuit reg ctx :
  lookup_fn reg "and" = Some (Own (Native Band)) ->
  lookup_fn reg "or" = Some (Own (Native Bor)) ->
  (forall (pre : list Expr) (e : Expr) (post : list Expr) s
          (vs : list Value) s1 (v : Value) s2,
      args_map (ev reg) pre ctx s = (Some vs, s1) ->
      forallb truthy vs = true ->
      ev reg e ctx s1 = (Some v, s2) ->
      truthy v = false ->
      ev reg (C "and" (pre ++ e :: post)) ctx s = (Some v, s2))
  /\ (forall (a : list Expr) s (vs : list Value) s1,
      args_map (ev reg) a ctx s = (Some vs, s1) ->
      forallb truthy vs = true ->
      ev reg (C "and" a) ctx s = (Some (List.last vs (VBool true)), s1))
  /\ (forall (pre : list Expr) (e : Expr) (post : list Expr) s
             (vs : list Value) s1 (v : Value) s2,
      args_map (ev reg) pre ctx s = (Some vs, s1) ->
      forallb (fun x => negb (truthy x)) vs = true ->
      ev reg e ctx s1 = (Some v, s2) ->
      truthy v = true ->
      ev reg (C "or" (pre ++ e :: post)) ctx s = (Some v, s2))
  /\ (forall (a : list Expr) s (vs : list Value) s1,
      args_map (ev reg) a ctx s = (Some vs, s1) ->
      forallb (fun x => negb (truthy x)) vs = true ->
      ev reg (C "or" a) ctx s = (Some (List.last vs (VBool false)), s1))
  /\ (forall (e1 e2 : Expr) s (v : Value) s1,
      ev reg e1 ctx s = (Some v, s1) ->
      truthy v = false ->
      ev reg (C "and" [e1; e2]) ctx s = (Some v, s1))
  /\ (forall (e1 e2 : Expr) s (v : Value) s1,
      ev reg e1 ctx s = (Some v, s1) ->
      truthy v = true ->
      ev reg (C "or" [e1; e2]) ctx s = (Some v, s1)).
Proof.
  intros Hand Hor.
  assert (Eand : forall a, ev reg (C "and" a) ctx
                           = logic_loop (ev reg) false ctx (VBool true) a).
  { intros a. simpl. unfold call. now rewrite Hand. }
  assert (Eor : forall a, ev reg (C "or" a) ctx
                          = logic_loop (ev reg) true ctx (VBool false) a).
  { intros a. simpl. unfold call. now rewrite Hor. }
  repeat split.
  - intros pre e post s vs s1 v s2 Hpre Hall He Hv. rewrite Eand.
    eapply logic_loop_stops; eauto; now rewrite forallb_truthy.
  - intros a s vs s1 Ha Hall. rewrite Eand.
    apply logic_loop_runs_out; auto; now rewrite forallb_truthy.
  - intros pre e post s vs s1 v s2 Hpre Hall He Hv. rewrite Eor.
    eapply logic_loop_stops; eauto; now rewrite forallb_truthy.
  - intros a s vs s1 Ha Hall. rewrite Eor.
    apply logic_loop_runs_out; auto; now rewrite forallb_truthy.
  - intros e1 e2 s v s1 He Hv. rewrite Eand.
    apply logic_loop_stops with (pre := []) (vs := []) (s1 := s); auto.
  - intros e1 e2 s v s1 He Hv. rewrite Eor.
    apply logic_loop_stops with (pre := []) (vs := []) (s1 := s); auto.
Qed.

(** C3: a value is falsy exactly when it is [null], [undefined],
    [false], a zero, the empty string, NaN, the empty array or an
    object without keys; every other value is truthy, a non-empty
    array or object whatever it holds.  [truthy] is what a Conditional
    tests on each branch condition, what tells an empty array source of
    a Loop with a fallback from a non-empty one, and what [not], [and],
    [or] and [default] test on their operands. *)
Theorem C3_truthiness :
  (forall v : Value, truthy v = false <-> falsy_listed v)
  /\ (forall (x : Value) (l : list Value), truthy (VArr (x :: l)) = true)
  /\ (forall (kv : string * Value) (m : list (string * Value)),
         truthy (VObj (kv :: m)) = true)
  /\ truthy (VObj [("a", VBool false)]) = true
  /\ (forall reg (cond : Expr) (body : list Node)
             (rest : list (Expr * list Node)) (els : option (list Node)) ctx,
         rn_node reg (F ((cond, body) :: rest) els) ctx
         = bind (ev reg cond ctx)
             (fun v => if truthy v then rn reg body ctx
                       else rn_node reg (F rest els) ctx))
  /\ (forall reg (arr : Expr) (as_ : string) (idx : option string)
             (body e : list Node) ctx s,
         rn_node reg (E arr as_ idx body (Some e)) ctx s
         = bind (ev reg arr ctx)
             (fun v =>
                match v with
                | VArr items =>
                    if truthy v
                    then each_loop (fun local => rn reg body local)
                           ctx as_ idx 0 items
                    else rn reg e ctx
                | _ => ret "[Error: #each needs array]"
                end) s)
  /\ (forall (ev' : Expr -> TemplateData -> M (State := State) Value)
             (e : Expr) (rest : list Expr) ctx s,
         builtin ev' Bnot ctx (e :: rest)
         = bind (ev' e ctx) (fun v => ret (VBool (negb (truthy v))))
         /\ builtin ev' Band ctx (e :: rest) s
            = bind (ev' e ctx)
                (fun r => if truthy r then logic_loop ev' false ctx r rest
                          else ret r) s
         /\ builtin ev' Bor ctx (e :: rest) s
            = bind (ev' e ctx)
                (fun r => if truthy r then ret r
                          else logic_loop ev' true ctx r rest) s
         /\ forall e2 : Expr,
             builtin ev' Bdefault ctx (e :: e2 :: rest)
             = bind (ev' e ctx)
                 (fun v => if truthy v then ret v else ev' e2 ctx)).
Proof.
  split; [exact truthy_partition|].
  split; [reflexivity|]. split; [reflexivity|]. split; [reflexivity|].
  split; [reflexivity|].
  split.
  - intros reg arr as_ idx body e ctx s. simpl. unfold bind.
    destruct (ev reg arr ctx s) as [[v|] s']; [|reflexivity].
    destruct v as [| | | | |items|]; try reflexivity.
    destruct items; reflexivity.
  - intros ev' e rest ctx s. split; [reflexivity|].
    split; [|split].
    + simpl. unfold fn_and. simpl. unfold bind.
      destruct (ev' e ctx s) as [[r|] s']; [|reflexivity].
      now destruct (truthy r).
    + simpl. unfold fn_or. simpl. unfold bind.
      destruct (ev' e ctx s) as [[r|] s']; [|reflexivity].
      now destruct (truthy r).
    + reflexivity.
Qed.

End LogicFacts.

(** ** Loop contexts *)

Lemma assoc_obj_define_same (k : string) (v : Value) (m : TemplateData) :
  assoc k (obj_define k v m) = Some v.
Proof.
  induction m as [|[k' v'] m IH]; simpl.
  - now rewrite String.eqb_refl.
  - destruct (String.eqb k' k) eqn:E; simpl; rewrite E; auto.
Qed.

Lemma assoc_obj_define_other (k k' : string) (v : Value) (m : TemplateData) :
  k' <> k -> assoc k' (obj_define k v m) = assoc k' m.
Proof.
  intros Hne. induction m as [|[k0 v0] m IH]; simpl.
  - destruct (String.eqb k k') eqn:E; [|reflexivity].
    apply String.eqb_eq in E. congruence.
  - destruct (String.eqb k0 k) eqn:E; simpl.
    + apply String.eqb_eq in E. subst k0.
      destruct (String.eqb k k') eqn:E'; [|reflexivity].
      apply String.eqb_eq in E'. congruence.
    + now rewrite IH.
Qed.

Lemma assoc_obj_assign_other (k k' : string) (v : Value) (m : TemplateData) :
  k' <> k -> assoc k' (obj_assign k v m) = assoc k' m.
Proof.
  intros Hne. unfold obj_assign.
  destruct (String.eqb k "__proto__" && negb (owns m k)); [reflexivity|].
  now apply assoc_obj_define_other.
Qed.

(** The nodes behind a node are rendered in the context the node was
    rendered in: a Loop hands its child contexts to its body only. *)
Lemma rn_cons {State : Type} {host : Host} (reg : Registry (State := State))
  (n : Node) (rest : list Node) (ctx : TemplateData) :
  rn reg (n :: rest) ctx
  = bind (rn_node reg n ctx)
      (fun s => bind (rn reg rest ctx) (fun out => ret (s ++ out))).
Proof. reflexivity. Qed.

(** Each iteration renders the body in its own child context. *)
Lemma each_loop_cons {State : Type} {host : Host}
  (body_in : TemplateData -> M (State := State) string)
  (ctx : TemplateData) (as_ : string) (idx : option string) (i : nat)
  (x : Value) (rest : list Value) :
  each_loop body_in ctx as_ idx i (x :: rest)
  = bind (body_in (local_ctx ctx as_ idx x i))
      (fun s => bind (each_loop body_in ctx as_ idx (S i) rest)
                  (fun out => ret (s ++ out))).
Proof. reflexivity. Qed.

(** The keys of the enclosing context other than the two binding names
    keep their values in the context of an iteration. *)
Lemma local_ctx_frame (ctx : TemplateData) (as_ : string) (idx : option string)
  (x : Value) (i : nat) (k : string) :
  k <> as_ -> declared idx <> Some k ->
  assoc k (local_ctx ctx as_ idx x i) = assoc k ctx.
Proof.
  intros Has Hidx. unfold local_ctx.
  destruct (declared idx) as [j|].
  - rewrite assoc_obj_assign_other by congruence.
    now apply assoc_obj_define_other.
  - now apply assoc_obj_define_other.
Qed.

(** The element name is bound to the element, unless the index has the
    same name. *)
Lemma local_ctx_item (ctx : TemplateData) (as_ : string) (idx : option string)
  (x : Value) (i : nat) :
  declared idx <> Some as_ ->
  assoc as_ (local_ctx ctx as_ idx x i) = Some x.
Proof.
  intros Hidx. unfold local_ctx.
  destruct (declared idx) as [j|].
  - rewrite assoc_obj_assign_other by congruence.
    apply assoc_obj_define_same.
  - apply assoc_obj_define_same.
Qed.

(** A declared index name is bound to the index when it is not
    [__proto__], or when [__proto__] is an own key already. *)
Lemma local_ctx_index (ctx : TemplateData) (as_ : string) (idx : option string)
  (x : Value) (i : nat) (k : string) :
  declared idx = Some k ->
  k <> "__proto__" \/ owns (obj_define as_ x ctx) k = true ->
  assoc k (local_ctx ctx as_ idx x i) = Some (VNum (Num.of_nat i)).
Proof.
  intros Hidx Hk. unfold local_ctx. rewrite Hidx. unfold obj_assign.
  destruct Hk as [Hk | Hk].
  - apply String.eqb_neq in Hk. rewrite Hk. simpl.
    apply assoc_obj_define_same.
  - rewrite Hk, andb_false_r. apply assoc_obj_define_same.
Qed.

(** An index named [__proto__] is not bound when neither the enclosing
    context nor the element name provides that key. *)
Lemma local_ctx_index_proto (ctx : TemplateData) (as_ : string)
  (x : Value) (i : nat) :
  owns ctx "__proto__" = false -> as_ <> "__proto__" ->
  local_ctx ctx as_ (Some "__proto__") x i = obj_define as_ x ctx
  /\ assoc "__proto__" (local_ctx ctx as_ (Some "__proto__") x i) = None.
Proof.
  intros Hctx Has.
  assert (Ho : owns (obj_define as_ x ctx) "__proto__" = false).
  { unfold owns. rewrite assoc_obj_define_other by congruence.
    apply assoc_owns in Hctx. now rewrite Hctx. }
  unfold local_ctx. simpl. unfold obj_assign. rewrite Ho. simpl.
  split; [reflexivity|]. now apply assoc_owns.
Qed.

(** ** Strings *)

Lemma append_empty_r (s : string) : s ++ "" = s.
Proof. induction s; simpl; congruence. Qed.

Lemma length_append (s t : string) :
  String.length (s ++ t) = String.length s + String.length t.
Proof. induction s; simpl; congruence. Qed.

Lemma drop_str_le (n : nat) :
  forall s, String.length (drop_str n s) <= String.length s.
Proof.
  induction n as [|n IH]; intros s; destruct s; simpl; auto.
Qed.

Lemma drop_str_length (n : nat) :
  forall s, String.length (drop_str n s) = String.length s - n.
Proof.
  induction n as [|n IH]; intros s; destruct s; simpl; auto.
Qed.

Lemma skipWs_le (s : string) : String.length (skipWs s) <= String.length s.
Proof.
  induction s as [|c r IH]; simpl; auto.
  destruct (Chars.isWs c); simpl; lia.
Qed.

Lemma skip_le (p s : string) : String.length (skip p s) <= String.length s.
Proof. unfold skip. destruct (at_ p s); auto using drop_str_le. Qed.

Lemma ident_le (s : string) : String.length (snd (ident s)) <= String.length s.
Proof.
  induction s as [|c r IH]; simpl; auto.
  destruct (Chars.isWord c); simpl; auto.
  destruct (ident r); simpl in *. lia.
Qed.

Lemma starts_length (c : ascii) (s : string) :
  starts c s = true -> String.length (drop_str 1 s) < String.length s.
Proof. destruct s; simpl; [discriminate | lia]. Qed.

Lemma scan_string_lt (q : ascii) :
  forall n s t rest, String.length s <= n ->
    scan_string q s = Some (t, rest) -> String.length rest < String.length s.
Proof.
  induction n as [|n IH]; intros s t rest Hn H.
  - destruct s; simpl in *; [discriminate | lia].
  - destruct s as [|c r]; simpl in *; [discriminate|].
    destruct (Ascii.eqb c q).
    + inversion H; subst. lia.
    + destruct (Ascii.eqb c Chars.backslash).
      * destruct r as [|c2 r2]; [discriminate|].
        destruct (scan_string q r2) as [[t' rest']|] eqn:E; [|discriminate].
        inversion H; subst. apply IH in E; simpl in *; lia.
      * destruct (scan_string q r) as [[t' rest']|] eqn:E; [|discriminate].
        inversion H; subst. apply IH in E; simpl in *; lia.
Qed.

Lemma string_literal_le (q : ascii) (s : string) :
  String.length (snd (string_literal q s)) <= String.length s.
Proof.
  unfold string_literal.
  destruct (scan_string q s) as [[t rest]|] eqn:E; simpl.
  - apply scan_string_lt with (n := String.length s) in E; lia.
  - lia.
Qed.

Lemma scan_digits_le (s : string) :
  forall dot, String.length (snd (scan_digits dot s)) <= String.length s.
Proof.
  induction s as [|c r IH]; intros dot; simpl; auto.
  destruct (Chars.isDigit c).
  - specialize (IH dot). destruct (scan_digits dot r); simpl in *. lia.
  - destruct (Ascii.eqb c "." && negb dot); simpl; auto.
    specialize (IH true). destruct (scan_digits true r); simpl in *. lia.
Qed.

Lemma scan_number_le (s : string) :
  String.length (snd (scan_number s)) <= String.length s.
Proof.
  unfold scan_number.
  destruct (starts "-" s) eqn:E1.
  - pose proof (starts_length _ _ E1) as H1.
    destruct (starts "." (drop_str 1 s)) eqn:E2.
    + pose proof (starts_length _ _ E2) as H2.
      pose proof (scan_digits_le (drop_str 1 (drop_str 1 s)) true) as H3.
      destruct (scan_digits true (drop_str 1 (drop_str 1 s))); simpl in *. lia.
    + pose proof (scan_digits_le (drop_str 1 s) false) as H3.
      destruct (scan_digits false (drop_str 1 s)); simpl in *. lia.
  - destruct (starts "." s) eqn:E2.
    + pose proof (starts_length _ _ E2) as H2.
      pose proof (scan_digits_le (drop_str 1 s) true) as H3.
      destruct (scan_digits true (drop_str 1 s)); simpl in *. lia.
    + pose proof (scan_digits_le s false) as H3.
      destruct (scan_digits false s); simpl in *. lia.
Qed.

Lemma scan_to_close_le (s : string) :
  String.length (scan_to_close s) <= String.length s.
Proof.
  induction s as [|c r IH]; auto.
  change (String.length (if at_ "}}" (String c r) then String c r
                         else scan_to_close r) <= S (String.length r)).
  destruct (at_ "}}" (String c r)); simpl; lia.
Qed.

Lemma scan_text_le (stops : list string) (s : string) :
  String.length (snd (scan_text stops s)) <= String.length s.
Proof.
  induction s as [|c r IH]; auto.
  change (String.length
            (snd (if any_at stops (String c r) || at_ "\{{" (String c r)
                     || at_ "{{" (String c r)
                  then (EmptyString, String c r)
                  else let (t, rest) := scan_text stops r in (String c t, rest)))
          <= S (String.length r)).
  destruct (any_at stops (String c r) || at_ "\{{" (String c r)
            || at_ "{{" (String c r)); simpl; auto.
  destruct (scan_text stops r); simpl in *. lia.
Qed.

(** The plain-text loop reads at least one character where the outer
    loop enters it. *)
Lemma scan_text_progress (stops : list string) (c : ascii) (r : string) :
  any_at stops (String c r) = false ->
  at_ "\{{" (String c r) = false ->
  at_ "{{" (String c r) = false ->
  String.length (snd (scan_text stops (String c r))) < String.length (String c r).
Proof.
  intros H1 H2 H3.
  change (String.length
            (snd (if any_at stops (String c r) || at_ "\{{" (String c r)
                     || at_ "{{" (String c r)
                  then (EmptyString, String c r)
                  else let (t, rest) := scan_text stops r in (String c t, rest)))
          < S (String.length r)).
  rewrite H1, H2, H3. simpl.
  pose proof (scan_text_le stops r) as H.
  destruct (scan_text stops r); simpl in *. lia.
Qed.

Lemma parsePath_le (k : nat) :
  forall s, String.length (snd (parsePath k s)) <= String.length s.
Proof.
  induction k as [|k IH]; intros s; simpl.
  - destruct (starts "." s); simpl; auto.
  - destruct (starts "." s) eqn:E; simpl; auto.
    pose proof (starts_length _ _ E) as H1.
    pose proof (ident_le (drop_str 1 s)) as H2.
    destruct (ident (drop_str 1 s)) as [seg s1]; simpl in *.
    specialize (IH s1). destruct (parsePath k s1); simpl in *. lia.
Qed.

(** ** Termination of the parser *)

Section ParserTotal.

Context {host : Host}.

Section Loops.

Variable pe : string -> option (Expr * string).
Variable n : nat.
Hypothesis pe_ok : expr_parser_ok pe n.

Lemma parseArgs_total (k : nat) :
  forall s, String.length s <= k -> String.length s < n ->
    exists es r, parseArgs pe k s = Some (es, r)
                 /\ String.length r <= String.length s.
Proof.
  induction k as [|k IH]; intros s Hk Hn; destruct s as [|c r0].
  - simpl; eauto.
  - simpl in Hk; lia.
  - simpl; eauto.
  - simpl. destruct (Ascii.eqb c ")" || Ascii.eqb c "}"); [eauto|].
    destruct (pe_ok _ Hn) as (e & s1 & He & Hle & Hlt).
    rewrite He.
    assert (H1 : String.length s1 < String.length (String c r0))
      by (apply Hlt; discriminate).
    set (s3 := if starts "," (skipWs s1) then skipWs (drop_str 1 (skipWs s1))
               else skipWs s1).
    assert (H3 : String.length s3 <= String.length s1).
    { subst s3. pose proof (skipWs_le s1).
      destruct (starts "," (skipWs s1)); auto.
      pose proof (skipWs_le (drop_str 1 (skipWs s1))).
      pose proof (drop_str_le 1 (skipWs s1)). lia. }
    clearbody s3.
    destruct (IH s3) as (es & r & Hes & Hr); [lia | lia |].
    rewrite Hes. exists (e :: es), r. split; [reflexivity|].
    simpl String.length in *. lia.
Qed.

Lemma parseParens_total (k : nat) (s : string) :
  String.length s <= k -> String.length s < n ->
  exists es r, parseParens pe k s = Some (es, r)
               /\ String.length r <= String.length s.
Proof.
  intros Hk Hn. unfold parseParens.
  pose proof (skipWs_le s) as Hw.
  destruct (@parseArgs_total k (skipWs s)) as (es & r & He & Hr);
    [lia | lia |].
  rewrite He. eexists _, _. split; [reflexivity|].
  destruct (starts ")" r); [pose proof (drop_str_le 1 r)|]; lia.
Qed.

Lemma parsePipes_total (k : nat) :
  forall expr s, String.length s <= k -> String.length s <= n ->
    exists e r, parsePipes pe k expr s = Some (e, r)
                /\ String.length r <= String.length s.
Proof.
  induction k as [|k IH]; intros expr s Hk Hn.
  - destruct s; [|simpl in Hk; lia]. simpl. eauto.
  - simpl. destruct (starts "|" s) eqn:E; [|eauto].
    pose proof (starts_length _ _ E) as H0.
    pose proof (skipWs_le (drop_str 1 s)) as H1.
    pose proof (ident_le (skipWs (drop_str 1 s))) as H2.
    destruct (ident (skipWs (drop_str 1 s))) as [fn s1]. simpl in H2.
    pose proof (skipWs_le s1) as H3.
    assert (Hargs : exists args s3,
               (if starts "(" (skipWs s1)
                then parseParens pe k (drop_str 1 (skipWs s1))
                else Some ([], skipWs s1)) = Some (args, s3)
               /\ String.length s3 <= String.length (skipWs s1)).
    { destruct (starts "(" (skipWs s1)); [|eauto].
      pose proof (drop_str_le 1 (skipWs s1)).
      destruct (@parseParens_total k (drop_str 1 (skipWs s1)))
        as (args & s3 & Ha & H4); [lia | lia |].
      exists args, s3. split; [assumption | lia]. }
    destruct Hargs as (args & s3 & Ha & H4). rewrite Ha.
    pose proof (skipWs_le s3) as H5.
    destruct (IH (P expr fn args) (skipWs s3)) as (e & r & He & Hr);
      [lia | lia |].
    rewrite He. exists e, r. split; [reflexivity | lia].
Qed.

Lemma parseBase_total (k : nat) (start : string) :
  String.length start <= k -> String.length start <= n ->
  exists e r, parseBase pe k start = Some (e, r)
              /\ String.length r <= String.length start.
Proof.
  intros Hk Hn. unfold parseBase.
  destruct (starts Chars.dquote start || starts Chars.squote start) eqn:Eq.
  - destruct start as [|q r]; [discriminate|].
    pose proof (string_literal_le q r) as H.
    destruct (string_literal q r) as [e rest]. simpl in *.
    exists e, rest. split; [reflexivity | lia].
  - destruct (match start with
              | String ch _ => Chars.isNumStart ch
              | EmptyString => false
              end).
    + pose proof (scan_number_le start) as H.
      destruct (scan_number start) as [t r]. simpl in H. eauto.
    + pose proof (ident_le start) as H.
      destruct (ident start) as [name r]. simpl in H.
      destruct (String.eqb name "true"); [eauto|].
      destruct (String.eqb name "false"); [eauto|].
      destruct (String.eqb name "null"); [eauto|].
      pose proof (skipWs_le r) as H1.
      destruct (starts "(" (skipWs r)) eqn:E.
      * pose proof (starts_length _ _ E) as H2.
        destruct (@parseParens_total k (drop_str 1 (skipWs r)))
          as (args & r2 & Ha & H3); [lia | lia |].
        rewrite Ha. eexists _, _. split; [reflexivity | lia].
      * pose proof (parsePath_le (String.length (skipWs r)) (skipWs r)) as H2.
        destruct (parsePath (String.length (skipWs r)) (skipWs r))
          as [path r2]. simpl in H2.
        eexists _, _. split; [reflexivity | lia].
Qed.

End Loops.

(** With more fuel than the input has characters [parseExpr] returns,
    and it reads at least one character of a non-empty input. *)
Lemma parseExpr_fuel_total (fuel : nat) :
  expr_parser_ok (parseExpr_fuel fuel) fuel.
Proof.
  induction fuel as [|f IH]; intros s Hs; [lia|].
  simpl.
  pose proof (skipWs_le s) as Hw.
  destruct (@parseBase_total _ f IH f (skipWs s)) as (e & s1 & He & H1);
    [lia | lia |].
  rewrite He.
  pose proof (skipWs_le s1) as Hw1.
  destruct (@parsePipes_total _ f IH f e (skipWs s1)) as (e' & s2 & He' & H2);
    [lia | lia |].
  rewrite He'. eexists _, _. split; [reflexivity|].
  pose proof (drop_str_length 1 s2) as Hd.
  destruct (String.length s2 =? String.length (skipWs s))%nat eqn:E.
  - apply Nat.eqb_eq in E. split; [lia|].
    intros Hne. destruct s; [congruence|]. simpl in *. lia.
  - apply Nat.eqb_neq in E. split; [lia|]. intros _. lia.
Qed.

Lemma parseExpr_total (s : string) :
  exists e r, parseExpr s = Some (e, r)
              /\ String.length r <= String.length s
              /\ (s <> "" -> String.length r < String.length s).
Proof. apply parseExpr_fuel_total. unfold lt. auto. Qed.

End ParserTotal.

Lemma at_length (p s : string) :
  at_ p s = true -> String.length p <= String.length s.
Proof.
  unfold at_. revert s. induction p as [|c p IH]; intros s H; simpl.
  - lia.
  - destruct s as [|d s]; simpl in *; [discriminate|].
    destruct (Ascii.ascii_dec c d); [|discriminate].
    apply IH in H. lia.
Qed.

Section NodeParserTotal.

Context {host : Host}.

Section Loops.

Variable pe : string -> option (Expr * string).
Variable pn : list string -> string -> option (list Node * string).
Variable n : nat.
Hypothesis pe_ok : expr_parser_ok pe n.
Hypothesis pn_ok : node_parser_ok pn n.

Lemma parseElseIfs_total (k : nat) :
  forall s, String.length s <= k -> String.length s <= n ->
    exists bs r, parseElseIfs pe pn k s = Some (bs, r)
                 /\ String.length r <= String.length s.
Proof.
  induction k as [|k IH]; intros s Hk Hn.
  - destruct s; [|simpl in Hk; lia]. simpl. eauto.
  - simpl.
    destruct (at_ "{{:else if" s || at_ "{{:elseif" s) eqn:E; [|eauto].
    assert (H0 : 9 <= String.length s).
    { apply orb_true_iff in E. destruct E as [E|E];
        apply at_length in E; simpl in E; lia. }
    set (m := if at_ "{{:elseif" s then 9 else 10).
    assert (Hm : 9 <= m) by (subst m; destruct (at_ "{{:elseif" s); lia).
    clearbody m.
    pose proof (drop_str_length m s) as H1.
    pose proof (skipWs_le (drop_str m s)) as H2.
    destruct (pe_ok (skipWs (drop_str m s)))
      as (cond2 & s2 & He & H3 & _); [lia|].
    rewrite He.
    pose proof (skipWs_le s2) as H4.
    pose proof (skip_le "}}" (skipWs s2)) as H5.
    destruct (pn_ok stops_if (skip "}}" (skipWs s2)))
      as (body & s4 & Hb & H6); [lia|].
    rewrite Hb.
    destruct (IH s4) as (bs & r & Hbs & H7); [lia | lia |].
    rewrite Hbs. eexists _, _. split; [reflexivity | lia].
Qed.

(** The optional [{{:else}}] part of a block. *)
Lemma parseElse_total (close : string) (s : string) :
  String.length s < n ->
  exists e r,
    (if at_ "{{:else}}" s then
       match pn [close] (drop_str 9 s) with
       | Some (e, r) => Some (Some e, r)
       | None => None
       end
     else Some (None, s)) = Some (e, r)
    /\ String.length r <= String.length s.
Proof.
  intros Hn. destruct (at_ "{{:else}}" s); [|eauto].
  pose proof (drop_str_le 9 s) as H1.
  destruct (pn_ok [close] (drop_str 9 s)) as (e & r & He & H2); [lia|].
  rewrite He. eexists _, _. split; [reflexivity | lia].
Qed.

Lemma parseIf_total (k : nat) (s : string) :
  String.length s <= k -> String.length s < n ->
  exists node r, parseIf pe pn k s = Some (node, r)
                 /\ String.length r <= String.length s.
Proof.
  intros Hk Hn. unfold parseIf.
  destruct (pe_ok s) as (cond & s1 & He & H1 & _); [lia|]. rewrite He.
  pose proof (skipWs_le s1) as H2.
  pose proof (skip_le "}}" (skipWs s1)) as H3.
  destruct (pn_ok stops_if (skip "}}" (skipWs s1)))
    as (body & s3 & Hb & H4); [lia|].
  rewrite Hb.
  destruct (@parseElseIfs_total k s3) as (more & s4 & Hm & H5); [lia | lia |].
  rewrite Hm.
  destruct (@parseElse_total "{{/if}}" s4) as (e & s5 & Hel & H6); [lia|].
  rewrite Hel.
  pose proof (skip_le "{{/if}}" s5) as H7.
  eexists _, _. split; [reflexivity | lia].
Qed.

Lemma parseEach_total (s : string) :
  String.length s < n ->
  exists node r, parseEach pe pn s = Some (node, r)
                 /\ String.length r <= String.length s.
Proof.
  intros Hn. unfold parseEach.
  destruct (pe_ok s) as (arr & s1 & He & H1 & _); [lia|]. rewrite He.
  pose proof (skipWs_le s1) as H2.
  pose proof (ident_le (skipWs s1)) as H3.
  destruct (ident (skipWs s1)) as [asKw s2]. simpl in H3.
  pose proof (skipWs_le s2) as H4.
  destruct (negb (String.eqb asKw "as")).
  { eexists _, _. split; [reflexivity | lia]. }
  pose proof (ident_le (skipWs s2)) as H5.
  destruct (ident (skipWs s2)) as [itemName s4]. simpl in H5.
  pose proof (skipWs_le s4) as H6.
  set (p := if starts "," (skipWs s4)
            then let (i, r) := ident (skipWs (drop_str 1 (skipWs s4))) in
                 (Some i, skipWs r)
            else (None, skipWs s4)).
  assert (Hp : String.length (snd p) <= String.length (skipWs s4)).
  { subst p. destruct (starts "," (skipWs s4)); simpl; auto.
    pose proof (drop_str_le 1 (skipWs s4)).
    pose proof (skipWs_le (drop_str 1 (skipWs s4))).
    pose proof (ident_le (skipWs (drop_str 1 (skipWs s4)))) as Hi.
    destruct (ident (skipWs (drop_str 1 (skipWs s4)))) as [i r].
    simpl in *. pose proof (skipWs_le r). lia. }
  clearbody p. destruct p as [idxName s6]. simpl in Hp.
  pose proof (skip_le "}}" s6) as H7.
  destruct (pn_ok stops_each (skip "}}" s6)) as (body & s8 & Hb & H8); [lia|].
  rewrite Hb.
  destruct (@parseElse_total "{{/each}}" s8) as (e & s9 & Hel & H9); [lia|].
  rewrite Hel.
  pose proof (skip_le "{{/each}}" s9) as H10.
  eexists _, _. split; [reflexivity | lia].
Qed.

Lemma parseTag_total (k : nat) (s : string) :
  String.length s <= k -> String.length s < n ->
  exists node r, parseTag pe pn k s = Some (node, r)
                 /\ String.length r <= String.length s.
Proof.
  intros Hk Hn. unfold parseTag.
  destruct (starts "+" s) eqn:Eplus.
  - pose proof (drop_str_le 1 s) as H0.
    pose proof (skipWs_le (drop_str 1 s)) as H1.
    destruct (pe_ok (skipWs (drop_str 1 s)))
      as (e & s1 & He & H2 & _); [lia|].
    rewrite He.
    pose proof (skipWs_le s1) as H3.
    pose proof (skip_le "+" (skipWs s1)) as H4.
    pose proof (skipWs_le (skip "+" (skipWs s1))) as H5.
    pose proof (scan_to_close_le (skipWs (skip "+" (skipWs s1)))) as H6.
    pose proof (skip_le "}}" (scan_to_close (skipWs (skip "+" (skipWs s1)))))
      as H7.
    eexists _, _. split; [reflexivity | lia].
  - destruct (starts "#" s) eqn:Ehash.
    + pose proof (drop_str_le 1 s) as H0.
      pose proof (ident_le (drop_str 1 s)) as H1.
      destruct (ident (drop_str 1 s)) as [kw s1]. simpl in H1.
      pose proof (skipWs_le s1) as H2.
      destruct (String.eqb kw "if").
      * destruct (@parseIf_total k (skipWs s1)) as (nd & r & Hi & H3);
          [lia | lia |].
        exists nd, r. split; [assumption | lia].
      * destruct (String.eqb kw "each").
        -- destruct (@parseEach_total (skipWs s1)) as (nd & r & Hi & H3);
             [lia|].
           exists nd, r. split; [assumption | lia].
        -- pose proof (skip_le "}}" (skipWs (skipWs s1))) as H3.
           pose proof (skipWs_le (skipWs s1)) as H4.
           eexists _, _. split; [reflexivity | lia].
    + destruct (pe_ok s) as (e & s1 & He & H1 & _); [lia|]. rewrite He.
      pose proof (skipWs_le s1) as H2.
      pose proof (scan_to_close_le (skipWs s1)) as H3.
      pose proof (skip_le "}}" (scan_to_close (skipWs s1))) as H4.
      eexists _, _. split; [reflexivity | lia].
Qed.

(** An iteration reads at least one character. *)
Lemma parseStep_total (stops : list string) (k : nat) (s : string) :
  s <> "" -> any_at stops s = false ->
  String.length s <= S k -> String.length s <= n ->
  exists pushed s1, parseStep pe pn stops k s = Some (pushed, s1)
                    /\ String.length s1 < String.length s.
Proof.
  intros Hne Hstop Hk Hn. unfold parseStep.
  assert (Hpos : 1 <= String.length s) by (destruct s; simpl; [congruence | lia]).
  destruct (at_ "\{{" s) eqn:Eesc.
  - pose proof (drop_str_length 3 s) as H1.
    eexists _, _. split; [reflexivity | lia].
  - destruct (at_ "{{" s) eqn:Etag.
    + pose proof (at_length _ _ Etag) as H0. simpl in H0.
      pose proof (drop_str_length 2 s) as H1.
      pose proof (skipWs_le (drop_str 2 s)) as H2.
      destruct (@parseTag_total k (skipWs (drop_str 2 s)))
        as (nd & s1 & Ht & H3); [lia | lia |].
      rewrite Ht. eexists _, _. split; [reflexivity | lia].
    + assert (H1 : String.length (snd (scan_text stops s)) < String.length s).
      { destruct s; [congruence|]. now apply scan_text_progress. }
      destruct (scan_text stops s) as [text s1]. simpl in H1.
      eexists _, _. split; [reflexivity | lia].
Qed.

Lemma parseLoop_S (stops : list string) (k : nat) (s : string) :
  s <> "" ->
  parseLoop pe pn stops (S k) s =
    if any_at stops s then Some ([], s)
    else
      match parseStep pe pn stops k s with
      | Some (pushed, s1) =>
          match parseLoop pe pn stops k s1 with
          | Some (ns, r) => Some ((pushed ++ ns)%list, r)
          | None => None
          end
      | None => None
      end.
Proof. destruct s; [congruence | reflexivity]. Qed.

Lemma parseLoop_total (stops : list string) (k : nat) :
  forall s, String.length s <= k -> String.length s <= n ->
    exists ns r, parseLoop pe pn stops k s = Some (ns, r)
                 /\ String.length r <= String.length s.
Proof.
  induction k as [|k IH]; intros s Hk Hn.
  - destruct s; [|simpl in Hk; lia]. simpl. eauto.
  - destruct s as [|c r0]; [simpl; eauto|].
    rewrite parseLoop_S by discriminate.
    destruct (any_at stops (String c r0)) eqn:Estop; [eauto|].
    destruct (@parseStep_total stops k (String c r0))
      as (pushed & s1 & Hs & H1); [discriminate | assumption | lia | lia |].
    rewrite Hs.
    destruct (IH s1) as (ns & r & Hl & H2); [lia | lia |].
    rewrite Hl. eexists _, _. split; [reflexivity | lia].
Qed.


End Loops.

Lemma parseNodes_fuel_total (fuel : nat) :
  node_parser_ok (parseNodes_fuel fuel) fuel.
Proof.
  induction fuel as [|f IH]; intros stops s Hs; [lia|].
  simpl.
  apply (@parseLoop_total parseExpr (parseNodes_fuel f) f
           (fun s0 _ => parseExpr_total s0) IH stops f s); lia.
Qed.

(** [parse] returns on every template. *)
Lemma parse_total (tmpl : string) : exists ast, parse tmpl = Some ast.
Proof.
  unfold parse, parseNodes.
  destruct (@parseNodes_fuel_total (S (String.length tmpl)) [] tmpl)
    as (ast & r & H & _); [lia|].
  rewrite H. eauto.
Qed.

End NodeParserTotal.

(** ** The fuel does not matter *)

(** Fuel is how the embedding bounds the recursion; a result reached
    with some fuel is the result with any more fuel. *)

Section ParserMono.

Context {host : Host}.

Section ExprLoops.

Variables pe pe' : string -> option (Expr * string).
Hypothesis pe_ext : forall s r, pe s = Some r -> pe' s = Some r.

Lemma parseArgs_mono (k : nat) :
  forall k' s r, k <= k' ->
    parseArgs pe k s = Some r -> parseArgs pe' k' s = Some r.
Proof.
  induction k as [|k IH]; intros k' s r Hle H.
  - destruct s as [|c r0]; simpl in H.
    + destruct k'; exact H.
    + destruct (Ascii.eqb c ")" || Ascii.eqb c "}") eqn:E; [|discriminate].
      destruct k'; simpl; rewrite E; exact H.
  - destruct k' as [|k']; [lia|].
    destruct s as [|c r0]; simpl in *; [exact H|].
    destruct (Ascii.eqb c ")" || Ascii.eqb c "}"); [exact H|].
    destruct (pe (String c r0)) as [[e s1]|] eqn:E; [|discriminate].
    apply pe_ext in E. rewrite E.
    destruct (parseArgs pe k
                (if starts "," (skipWs s1)
                 then skipWs (drop_str 1 (skipWs s1)) else skipWs s1))
      as [[es s4]|] eqn:E2; [|discriminate].
    apply IH with (k' := k') in E2; [|lia]. rewrite E2. exact H.
Qed.

Lemma parseParens_mono (k k' : nat) (s : string) r :
  k <= k' -> parseParens pe k s = Some r -> parseParens pe' k' s = Some r.
Proof.
  intros Hle H. unfold parseParens in *.
  destruct (parseArgs pe k (skipWs s)) as [[args s1]|] eqn:E; [|discriminate].
  apply parseArgs_mono with (k' := k') in E; [|exact Hle]. rewrite E. exact H.
Qed.

Lemma parsePipes_mono (k : nat) :
  forall k' expr s r, k <= k' ->
    parsePipes pe k expr s = Some r -> parsePipes pe' k' expr s = Some r.
Proof.
  induction k as [|k IH]; intros k' expr s r Hle H.
  - simpl in H. destruct (starts "|" s) eqn:E; [discriminate|].
    destruct k'; simpl; rewrite E; exact H.
  - destruct k' as [|k']; [lia|]. simpl in *.
    destruct (starts "|" s); [|exact H].
    destruct (ident (skipWs (drop_str 1 s))) as [fn s1].
    destruct (starts "(" (skipWs s1)).
    + destruct (parseParens pe k (drop_str 1 (skipWs s1)))
        as [[args s3]|] eqn:E; [|discriminate].
      apply parseParens_mono with (k' := k') in E; [|lia]. rewrite E.
      apply IH; [lia | exact H].
    + apply IH; [lia | exact H].
Qed.

Lemma parseBase_mono (k k' : nat) (start : string) r :
  k <= k' -> parseBase pe k start = Some r -> parseBase pe' k' start = Some r.
Proof.
  intros Hle H. unfold parseBase in *.
  destruct (starts Chars.dquote start || starts Chars.squote start);
    [exact H|].
  destruct (match start with
            | String ch _ => Chars.isNumStart ch
            | EmptyString => false
            end); [exact H|].
  destruct (ident start) as [name r0].
  destruct (String.eqb name "true"); [exact H|].
  destruct (String.eqb name "false"); [exact H|].
  destruct (String.eqb name "null"); [exact H|].
  destruct (starts "(" (skipWs r0)); [|exact H].
  destruct (parseParens pe k (drop_str 1 (skipWs r0)))
    as [[args r2]|] eqn:E; [|discriminate].
  apply parseParens_mono with (k' := k') in E; [|exact Hle]. rewrite E. exact H.
Qed.

End ExprLoops.

Lemma parseExpr_fuel_mono (fuel : nat) :
  forall fuel' s r, fuel <= fuel' ->
    parseExpr_fuel fuel s = Some r -> parseExpr_fuel fuel' s = Some r.
Proof.
  induction fuel as [|f IH]; intros f' s r Hle H; [discriminate|].
  destruct f' as [|f']; [lia|]. simpl in *.
  assert (Hext : forall s r, parseExpr_fuel f s = Some r ->
                             parseExpr_fuel f' s = Some r)
    by (intros; eapply IH; eauto; lia).
  destruct (parseBase (parseExpr_fuel f) f (skipWs s))
    as [[expr s1]|] eqn:E; [|discriminate].
  apply parseBase_mono with (pe' := parseExpr_fuel f') (k' := f') in E;
    [|exact Hext|lia]. rewrite E.
  destruct (parsePipes (parseExpr_fuel f) f expr (skipWs s1))
    as [[expr' s2]|] eqn:E2; [|discriminate].
  apply parsePipes_mono with (pe' := parseExpr_fuel f') (k' := f') in E2;
    [|exact Hext|lia]. rewrite E2. exact H.
Qed.

(** Any fuel above the length of the input gives the result of
    [parseExpr]. *)
Lemma parseExpr_fuel_enough (fuel : nat) (s : string) :
  String.length s < fuel -> parseExpr_fuel fuel s = parseExpr s.
Proof.
  intros Hlt. destruct (parseExpr_total s) as (e & r & H & _).
  rewrite H. eapply parseExpr_fuel_mono; [|exact H]. lia.
Qed.

Section NodeLoops.

Variables pe pe' : string -> option (Expr * string).
Variables pn pn' : list string -> string -> option (list Node * string).
Hypothesis pe_ext : forall s r, pe s = Some r -> pe' s = Some r.
Hypothesis pn_ext : forall stops s r, pn stops s = Some r -> pn' stops s = Some r.

Lemma parseElseIfs_mono (k : nat) :
  forall k' s r, k <= k' ->
    parseElseIfs pe pn k s = Some r -> parseElseIfs pe' pn' k' s = Some r.
Proof.
  induction k as [|k IH]; intros k' s r Hle H.
  - simpl in H.
    destruct (at_ "{{:else if" s || at_ "{{:elseif" s) eqn:E; [discriminate|].
    destruct k'; simpl; rewrite E; exact H.
  - destruct k' as [|k']; [lia|]. simpl in *.
    destruct (at_ "{{:else if" s || at_ "{{:elseif" s); [|exact H].
    destruct (pe (skipWs (drop_str (if at_ "{{:elseif" s then 9 else 10) s)))
      as [[cond2 s2]|] eqn:E0; [|discriminate].
    apply pe_ext in E0. rewrite E0.
    destruct (pn stops_if (skip "}}" (skipWs s2))) as [[body s4]|] eqn:E;
      [|discriminate].
    apply pn_ext in E. rewrite E.
    destruct (parseElseIfs pe pn k s4) as [[bs s5]|] eqn:E2; [|discriminate].
    apply IH with (k' := k') in E2; [|lia]. rewrite E2. exact H.
Qed.

Lemma parseIf_mono (k k' : nat) (s : string) r :
  k <= k' -> parseIf pe pn k s = Some r -> parseIf pe' pn' k' s = Some r.
Proof.
  intros Hle H. unfold parseIf in *.
  destruct (pe s) as [[cond s1]|] eqn:E0; [|discriminate].
  apply pe_ext in E0. rewrite E0.
  destruct (pn stops_if (skip "}}" (skipWs s1))) as [[body s3]|] eqn:E;
    [|discriminate].
  apply pn_ext in E. rewrite E.
  destruct (parseElseIfs pe pn k s3) as [[more s4]|] eqn:E2; [|discriminate].
  apply parseElseIfs_mono with (k' := k') in E2; [|exact Hle]. rewrite E2.
  destruct (at_ "{{:else}}" s4); [|exact H].
  destruct (pn ["{{/if}}"] (drop_str 9 s4)) as [[e s5]|] eqn:E3;
    [|discriminate].
  apply pn_ext in E3. rewrite E3. exact H.
Qed.

Lemma parseEach_mono (s : string) r :
  parseEach pe pn s = Some r -> parseEach pe' pn' s = Some r.
Proof.
  intros H. unfold parseEach in *.
  destruct (pe s) as [[arr s1]|] eqn:E0; [|discriminate].
  apply pe_ext in E0. rewrite E0.
  destruct (ident (skipWs s1)) as [asKw s2].
  destruct (negb (String.eqb asKw "as")); [exact H|].
  destruct (ident (skipWs s2)) as [itemName s4].
  destruct (if starts "," (skipWs s4)
            then let (i, r0) := ident (skipWs (drop_str 1 (skipWs s4))) in
                 (Some i, skipWs r0)
            else (None, skipWs s4)) as [idxName s6].
  destruct (pn stops_each (skip "}}" s6)) as [[body s8]|] eqn:E;
    [|discriminate].
  apply pn_ext in E. rewrite E.
  destruct (at_ "{{:else}}" s8); [|exact H].
  destruct (pn ["{{/each}}"] (drop_str 9 s8)) as [[e s9]|] eqn:E3;
    [|discriminate].
  apply pn_ext in E3. rewrite E3. exact H.
Qed.

Lemma parseTag_mono (k k' : nat) (s : string) r :
  k <= k' -> parseTag pe pn k s = Some r -> parseTag pe' pn' k' s = Some r.
Proof.
  intros Hle H. unfold parseTag in *.
  destruct (starts "+" s).
  { destruct (pe (skipWs (drop_str 1 s))) as [[e s1]|] eqn:E0;
      [|discriminate].
    apply pe_ext in E0. rewrite E0. exact H. }
  destruct (starts "#" s).
  - destruct (ident (drop_str 1 s)) as [kw s1].
    destruct (String.eqb kw "if"); [eapply parseIf_mono; eauto|].
    destruct (String.eqb kw "each"); [now apply parseEach_mono|].
    exact H.
  - destruct (pe s) as [[e s1]|] eqn:E0; [|discriminate].
    apply pe_ext in E0. rewrite E0. exact H.
Qed.

Lemma parseStep_mono (stops : list string) (k k' : nat) (s : string) r :
  k <= k' ->
  parseStep pe pn stops k s = Some r -> parseStep pe' pn' stops k' s = Some r.
Proof.
  intros Hle H. unfold parseStep in *.
  destruct (at_ "\{{" s); [exact H|].
  destruct (at_ "{{" s); [|exact H].
  destruct (parseTag pe pn k (skipWs (drop_str 2 s))) as [[nd s1]|] eqn:E;
    [|discriminate].
  apply parseTag_mono with (k' := k') in E; [|exact Hle]. rewrite E. exact H.
Qed.

Lemma parseLoop_mono (stops : list string) (k : nat) :
  forall k' s r, k <= k' ->
    parseLoop pe pn stops k s = Some r -> parseLoop pe' pn' stops k' s = Some r.
Proof.
  induction k as [|k IH]; intros k' s r Hle H.
  - destruct s as [|c r0]; simpl in H.
    + destruct k'; exact H.
    + destruct (any_at stops (String c r0)) eqn:E; [|discriminate].
      destruct k'; simpl; rewrite E; exact H.
  - destruct k' as [|k']; [lia|].
    destruct s as [|c r0]; [exact H|].
    rewrite parseLoop_S in * by discriminate.
    destruct (any_at stops (String c r0)); [exact H|].
    destruct (parseStep pe pn stops k (String c r0)) as [[pushed s1]|] eqn:E;
      [|discriminate].
    apply parseStep_mono with (k' := k') in E; [|lia]. rewrite E.
    destruct (parseLoop pe pn stops k s1) as [[ns r1]|] eqn:E2; [|discriminate].
    apply IH with (k' := k') in E2; [|lia]. rewrite E2. exact H.
Qed.

End NodeLoops.

Lemma parseNodes_fuel_mono (fuel : nat) :
  forall fuel' stops s r, fuel <= fuel' ->
    parseNodes_fuel fuel stops s = Some r ->
    parseNodes_fuel fuel' stops s = Some r.
Proof.
  induction fuel as [|f IH]; intros f' stops s r Hle H; [discriminate|].
  destruct f' as [|f']; [lia|]. simpl in *.
  apply (@parseLoop_mono parseExpr parseExpr
           (parseNodes_fuel f) (parseNodes_fuel f')
           (fun _ _ E => E)
           (fun stops0 s0 r0 E => IH f' stops0 s0 r0 ltac:(lia) E)
           stops f f' s r); [lia | exact H].
Qed.


End ParserMono.

(** ** The parser on a bounded call stack *)

Section StackParser.

Context {host : Host}.













End StackParser.

Section ParserClaims.

Context {host : Host}.

(** A string literal with no quote behind the opening one is
    unterminated. *)
Lemma scan_string_no_quote (q : ascii) (n : nat) :
  forall body, String.length body <= n ->
    ~ In q (list_ascii_of_string body) -> scan_string q body = None.
Proof.
  induction n as [|n IH]; intros body Hn Hq.
  - destruct body; [reflexivity | simpl in Hn; lia].
  - destruct body as [|c r]; [reflexivity|]. simpl in *.
    destruct (Ascii.eqb c q) eqn:E.
    + apply Ascii.eqb_eq in E. subst. tauto.
    + destruct (Ascii.eqb c Chars.backslash).
      * destruct r as [|c2 r2]; [reflexivity|].
        rewrite IH; [reflexivity | simpl in Hn; lia |].
        simpl in Hq. tauto.
      * rewrite IH; [reflexivity | lia | tauto].
Qed.

(** Without the keyword [as] the branch of [each] stops right behind
    the word it read in its place: the rest of the tag stays unread. *)
Lemma parseEach_missing_as
  (pn : list string -> string -> option (list Node * string))
  (s : string) (arr : Expr) (s1 : string) (w : string) (s2 : string) :
  parseExpr s = Some (arr, s1) ->
  ident (skipWs s1) = (w, s2) ->
  w <> "as" ->
  parseEach parseExpr pn s = Some (T "[Error: #each missing 'as']", skipWs s2).
Proof.
  intros He Hi Hw. unfold parseEach. rewrite He, Hi.
  apply String.eqb_neq in Hw. now rewrite Hw.
Qed.

End ParserClaims.

Section RenderClaims.

Context {State : Type}.
Context {host : Host}.

Lemma parse_s_length :
  parse "{{ s.length }}" = Some [I (V ["s"; "length"]) false].
Proof. reflexivity. Qed.

Lemma parse_s_0 : parse "{{ s.0 }}" = Some [I (V ["s"; "0"]) false].
Proof. reflexivity. Qed.

Lemma has_index_0 (n : nat) : has_index (S n) "0" = true.
Proof.
  unfold has_index. change (index_of_key "0") with (Some 0%N).
  apply N.ltb_lt. lia.
Qed.

(** C10 (as amended): when the context binds [s] to a string, the
    segment [length] behind [s] is an own key of the string, and so is
    the segment [0] unless the string is empty.  [{{ s.length }}]
    renders the number of code units of the string, printed as a
    number is, and [{{ s.0 }}] renders the first code unit, both
    through the HTML escaping of an Interpolation: one of the
    characters that [esc] replaces is rendered as its entity.  On the
    empty string, which has no first character, [{{ s.0 }}] renders
    nothing. *)
Theorem C10_string_own_properties (reg : Registry (State := State))
  (ctx : TemplateData) (str : string) (s : State) :
  assoc "s" ctx = Some (VStr str) ->
  has (VStr str) "length" = true
  /\ (str <> "" -> has (VStr str) "0" = true)
  /\ render reg "{{ s.length }}" ctx s
     = Some (Some (esc (numToString (Num.of_nat (String.length str)))), s)
  /\ render reg "{{ s.0 }}" ctx s
     = Some (Some (esc match str with
                       | String c _ => str1 c
                       | EmptyString => ""
                       end), s).
Proof.
  intros Hs.
  assert (Ho : owns ctx "s" = true) by (unfold owns; now rewrite Hs).
  split; [reflexivity|]. split.
  - destruct str; [congruence|]. intros _. apply has_index_0.
  - split.
    + unfold render, compile. rewrite parse_s_length.
      cbn [rn rn_with rn_node ev walk]. unfold bind, ret.
      cbn [nullish has get]. rewrite Ho. unfold get at 2. rewrite Hs.
      cbn. now rewrite append_empty_r.
    + unfold render, compile. rewrite parse_s_0.
      cbn [rn rn_with rn_node ev walk]. unfold bind, ret.
      cbn [nullish has get]. rewrite Ho. unfold get at 2. rewrite Hs.
      destruct str as [|c r].
      * reflexivity.
      * cbn [negb orb has String.length]. rewrite has_index_0.
        cbn. now rewrite append_empty_r.
Qed.

End RenderClaims.

(* ================================================================= *)
(** * Closed instances *)

(** The statements below are closed: they run the embedding on the
    host [RefHost.host]. *)

(** ** The scenarios of the specification and cases of the test suite *)

Example scenario_nested_path :
  RefHost.run "{{ a.b }}" [("a", VObj [("b", VStr "x")])] = Some (Some "x").
Proof. vm_compute. reflexivity. Qed.

Example scenario_array_interpolation :
  RefHost.run "{{ tags }}" [("tags", VArr [num 1; num 2])]
  = Some (Some "[Error: use #each for arrays]").
Proof. vm_compute. reflexivity. Qed.

Example scenario_else_if :
  RefHost.run "{{#if eq(n,1)}}A{{:else if eq(n,2)}}B{{:else}}C{{/if}}"
    [("n", num 2)]
  = Some (Some "B").
Proof. vm_compute. reflexivity. Qed.

Example scenario_each_with_index :
  RefHost.run "{{#each xs as x, i}}{{i}}:{{x}} {{/each}}"
    [("xs", VArr [VStr "a"; VStr "b"])]
  = Some (Some "0:a 1:b ").
Proof. vm_compute. reflexivity. Qed.

Example scenario_truncate :
  RefHost.run "{{ s | truncate(5, '~') }}" [("s", VStr "Hello World")]
  = Some (Some "Hello~").
Proof. vm_compute. reflexivity. Qed.

Example scenario_escaped_delimiter :
  RefHost.run "\{{ x }}" [] = Some (Some "{{ x }}").
Proof. vm_compute. reflexivity. Qed.

Example test_unknown_block :
  RefHost.run "{{#unknown}}content{{/unknown}}" []
  = Some (Some "[Error: unknown #unknown]content").
Proof. vm_compute. reflexivity. Qed.

Example test_unclosed_parenthesis :
  RefHost.run "{{ eq(1, 2 }} world" [] = Some (Some "false world").
Proof. vm_compute. reflexivity. Qed.

Example test_missing_closing_delimiter :
  RefHost.run "Hello {{ name World" [] = Some (Some "Hello ").
Proof. vm_compute. reflexivity. Qed.

Example test_nested_unclosed_blocks :
  RefHost.run "{{#if true}}A{{#if true}}B{{#if true}}C" [] = Some (Some "ABC").
Proof. vm_compute. reflexivity. Qed.

Example test_prototype_properties :
  RefHost.run "{{ constructor }}{{ __proto__ }}{{ hasOwnProperty }}" []
  = Some (Some "").
Proof. vm_compute. reflexivity. Qed.

Example test_missing_args :
  RefHost.run "{{ ne() }}|{{ gt(5) }}|{{ not() }}|{{ replace('hello', 'l') }}" []
  = Some (Some ("[Error: ne() needs 2 args]|[Error: gt() needs 2 args]|"
                ++ "[Error: not() needs 1 args]|[Error: replace() needs 3 args]")).
Proof. vm_compute. reflexivity. Qed.

Example test_pipes :
  RefHost.run
    ("{{ title | lowercase | truncate(7) }}|{{ x | replace('a', 'x') }}|"
     ++ "{{ tags | limit(2) | join(', ') }}|{{ title | truncate(-5) }}")
    [("title", VStr "Getting Started"); ("x", VStr "banana");
     ("tags", VArr [VStr "search"; VStr "static-site"; VStr "tutorial"])]
  = Some (Some "getting...|bxnxnx|search, static-site|Getting St...").
Proof. vm_compute. reflexivity. Qed.

Example test_functions :
  RefHost.run
    ("{{ length(tags) }}|{{ length(title) }}|{{ first(tags) }}|"
     ++ "{{ last(tags) }}|{{ first(none) }}|{{ zero | default('fallback') }}|"
     ++ "{{ gt(count, 1000) }}|{{ not(tags) }}")
    [("title", VStr "Getting Started"); ("zero", num 0); ("count", num 1250);
     ("none", VArr []);
     ("tags", VArr [VStr "search"; VStr "static-site"; VStr "tutorial"])]
  = Some (Some "3|15|search|tutorial||fallback|true|false").
Proof. vm_compute. reflexivity. Qed.

Example test_each_else :
  RefHost.run "{{#each items as x}}{{ x }}{{:else}}none{{/each}}"
    [("items", VArr [])]
  = Some (Some "none").
Proof. vm_compute. reflexivity. Qed.

(** The members [fns] inherits are found by name: [constructor] hands
    back the context, [valueOf] throws. *)
Example inherited_functions :
  RefHost.run "{{ constructor() }}|{{ toString() }}" []
  = Some (Some "[Error: cannot render object]|[object Undefined]")
  /\ RefHost.run "{{ valueOf() }}" [] = Some None.
Proof. split; vm_compute; reflexivity. Qed.

(** [and(countAnd(), countAnd())] calls the function twice. *)
Example test_and_counts :
  ev (host := RefHost.host) counting (C "and" [C "count" []; C "count" []]) [] 0
  = (Some (VStr "x"), 2).
Proof. vm_compute. reflexivity. Qed.

(** ** Instances of the theorems *)

Lemma C1_witness :
  ev (host := RefHost.host) (fns (State := unit)) (V ["constructor"]) [] tt
  = (Some VUndef, tt)
  /\ ev (host := RefHost.host) (fns (State := unit)) (V ["a"; "toString"; "x"])
       [("a", VObj [("b", VStr "x")])] tt
     = (Some VUndef, tt)
  /\ ev (host := RefHost.host) (fns (State := unit)) (V ["a"; "b"])
       [("a", VObj [("b", VStr "x")])] tt
     = (Some (VStr "x"), tt).
Proof.
  split; [|split].
  - apply (proj1 (@C1_variable_own_keys_only unit RefHost.host fns []
                    [] "constructor" [] tt)).
    right. reflexivity.
  - apply (proj1 (@C1_variable_own_keys_only unit RefHost.host fns
                    [("a", VObj [("b", VStr "x")])] ["a"] "toString" ["x"] tt)).
    right. reflexivity.
  - apply (proj1 (proj2 (@C1_variable_own_keys_only unit RefHost.host fns
                           [("a", VObj [("b", VStr "x")])] ["a"] "b" [] tt)));
      reflexivity.
Defined.

(** [and] and [or] check no count and answer [true] and [false] without
    arguments; [lowercase], [uppercase] and [trim] check none either and
    work on the string form of the missing argument: none of the five
    returns the arity error. *)
Lemma C2_counterexample :
  ev (host := RefHost.host) (fns (State := unit)) (C "and" []) [] tt
  = (Some (VBool true), tt)
  /\ ev (host := RefHost.host) (fns (State := unit)) (C "or" []) [] tt
     = (Some (VBool false), tt)
  /\ ev (host := RefHost.host) (fns (State := unit)) (C "lowercase" []) [] tt
     = (Some (VStr "undefined"), tt)
  /\ ev (host := RefHost.host) (fns (State := unit)) (C "uppercase" []) [] tt
     = (Some (VStr "UNDEFINED"), tt)
  /\ ev (host := RefHost.host) (fns (State := unit)) (C "trim" []) [] tt
     = (Some (VStr "undefined"), tt)
  /\ ev (host := RefHost.host) (fns (State := unit)) (C "and" []) [] tt
     <> (Some (VStr "[Error: and() needs 1 args]"), tt)
  /\ ev (host := RefHost.host) (fns (State := unit)) (C "lowercase" []) [] tt
     <> (Some (VStr "[Error: lowercase() needs 1 args]"), tt).
Proof.
  repeat split; try reflexivity; vm_compute; discriminate.
Qed.

(** [replace(count(), count())] is short of an argument: the error is
    returned and [count] is not called. *)
Lemma C2_witness :
  ev (host := RefHost.host) counting
    (C "replace" [C "count" []; C "count" []]) [] 0
  = (Some (VStr "[Error: replace() needs 3 args]"), 0).
Proof.
  apply (@C2_arity_error nat RefHost.host counting "replace" Breplace 3
           [C "count" []; C "count" []] [] 0).
  - reflexivity.
  - reflexivity.
  - simpl. lia.
Defined.

(** [and(null, count())] and [or("truthy", count())] do not call
    [count]. *)
Lemma C4_witness :
  ev (host := RefHost.host) counting (C "and" [L VNull; C "count" []]) [] 0
  = (Some VNull, 0)
  /\ ev (host := RefHost.host) counting
       (C "or" [L (VStr "truthy"); C "count" []]) [] 0
     = (Some (VStr "truthy"), 0).
Proof.
  pose proof (@C4_and_or_short_circuit nat RefHost.host counting []
                eq_refl eq_refl) as H.
  destruct H as (_ & _ & _ & _ & Hand & Hor).
  split.
  - apply Hand; reflexivity.
  - apply Hor; reflexivity.
Defined.

Lemma C6_witness :
  ev (host := RefHost.host) (fns (State := unit)) (P (L VNull) "nope" []) [] tt
  = (Some (VStr "[Error: unknown nope()]"), tt)
  /\ ev (host := RefHost.host) (fns (State := unit)) (C "nope" [L VNull]) [] tt
     = (Some (VStr "[Error: unknown nope()]"), tt).
Proof.
  apply (proj2 (@C6_pipe_is_call unit RefHost.host fns (L VNull) "nope" [] [])
           eq_refl tt).
Defined.

(** C5 (the code at the failing input): the index of a Loop named
    [__proto__] is not bound: the body sees the element but not the
    index, where any other index name is bound to the index. *)
Theorem C5_index_named_proto_not_bound :
  local_ctx [] "x" (Some "__proto__") (VStr "a") 0 = [("x", VStr "a")]
  /\ local_ctx [] "x" (Some "i") (VStr "a") 0 = [("x", VStr "a"); ("i", num 0)]
  /\ RefHost.run "{{#each xs as x, __proto__}}{{ x }}{{ __proto__ }};{{/each}}"
       [("xs", VArr [VStr "a"; VStr "b"])]
     = Some (Some "a;b;")
  /\ RefHost.run "{{#each xs as x, i}}{{ x }}{{ i }};{{/each}}"
       [("xs", VArr [VStr "a"; VStr "b"])]
     = Some (Some "a0;b1;").
Proof. repeat split; vm_compute; reflexivity. Qed.



(** The text behind an unterminated string literal is read as part of
    the literal and lost: it is neither parsed nor rendered. *)
Lemma C8_counterexample :
  parseExpr (host := RefHost.host) (String Chars.dquote "hello }} world")
  = Some (L (VStr ""), "")
  /\ parse (host := RefHost.host) ("{{ " ++ String Chars.dquote "hello }} world")
     = Some [I (L (VStr "")) false]
  /\ RefHost.run ("{{ " ++ String Chars.dquote "hello }} world") []
     = Some (Some "")
  /\ RefHost.run "{{ 'hello' }} world" [] = Some (Some "hello world").
Proof. repeat split; vm_compute; reflexivity. Qed.

(** C9 (the code at the failing inputs): the tag
    [{{#each items NOTASKEYWORD item}}] is left at [item}}], which is
    then read as text and rendered; the tag [{{#each items}}] is left at
    its closing braces, which are rendered too, where the branch of an
    unknown block keyword reads them. *)
Theorem C9_each_missing_as_leaves_tag :
  parse (host := RefHost.host)
    "{{#each items NOTASKEYWORD item}}{{ item }}{{/each}}"
  = Some [T "[Error: #each missing 'as']"; T "item}}";
          I (V ["item"]) false; I (V [""]) false]
  /\ RefHost.run "{{#each items NOTASKEYWORD item}}{{ item }}{{/each}}"
       [("items", VArr [num 1; num 2])]
     = Some (Some "[Error: #each missing 'as']item}}")
  /\ RefHost.run "{{#each items}}X" [("items", VArr [num 1; num 2])]
     = Some (Some "[Error: #each missing 'as']}}X")
  /\ RefHost.run "{{#unknown}}X" [("items", VArr [num 1; num 2])]
     = Some (Some "[Error: unknown #unknown]X").
Proof. repeat split; vm_compute; reflexivity. Qed.

(** [{{ s.0 }}] does not always render the first character: the first
    character of [<b>] is rendered as its entity, and the empty string
    has no first character and owns no key [0]. *)
Lemma C10_counterexample :
  render (host := RefHost.host) (fns (State := unit)) "{{ s.0 }}"
    [("s", VStr "<b>")] tt
  = Some (Some "&lt;", tt)
  /\ render (host := RefHost.host) (fns (State := unit)) "{{ s.0 }}"
       [("s", VStr "<b>")] tt
     <> Some (Some "<", tt)
  /\ has (VStr "") "0" = false
  /\ render (host := RefHost.host) (fns (State := unit)) "{{ s.0 }}"
       [("s", VStr "")] tt
     = Some (Some "", tt).
Proof.
  repeat split; try reflexivity. vm_compute. discriminate.
Qed.

Lemma C10_witness :
  render (host := RefHost.host) (fns (State := unit)) "{{ s.length }}"
    [("s", VStr "Hello")] tt
  = Some (Some "5", tt)
  /\ render (host := RefHost.host) (fns (State := unit)) "{{ s.0 }}"
       [("s", VStr "Hello")] tt
     = Some (Some "H", tt).
Proof.
  apply (proj2 (proj2 (@C10_string_own_properties unit RefHost.host fns
                         [("s", VStr "Hello")] "Hello" tt eq_refl))).
Defined.

(* ================================================================= *)
(** * Further properties *)

(** ** [esc] *)

Lemma append_assoc (s t u : string) : (s ++ t) ++ u = s ++ t ++ u.
Proof. induction s; simpl; congruence. Qed.

Lemma replace_char_app (c : ascii) (by_ s t : string) :
  replace_char c by_ (s ++ t) = replace_char c by_ s ++ replace_char c by_ t.
Proof.
  induction s as [|x r IH]; simpl; [reflexivity|].
  destruct (Ascii.eqb x c); rewrite IH.
  - now rewrite append_assoc.
  - reflexivity.
Qed.

Lemma esc_cons (x : ascii) (r : string) : esc (String x r) = esc_char x ++ esc r.
Proof.
  unfold esc, esc_char. cbn [replace_char].
  destruct (Ascii.eqb x "&") eqn:E1.
  { now rewrite !replace_char_app. }
  cbn [replace_char]. destruct (Ascii.eqb x "<") eqn:E2.
  { now rewrite !replace_char_app. }
  cbn [replace_char]. destruct (Ascii.eqb x ">") eqn:E3.
  { now rewrite !replace_char_app. }
  cbn [replace_char]. destruct (Ascii.eqb x Chars.dquote) eqn:E4.
  { now rewrite !replace_char_app. }
  cbn [replace_char]. destruct (Ascii.eqb x Chars.squote) eqn:E5.
  { reflexivity. }
  reflexivity.
Qed.

Lemma esc_chars_app (s t : string) : esc_chars (s ++ t) = esc_chars s ++ esc_chars t.
Proof.
  induction s as [|x r IH]; simpl; [reflexivity|].
  now rewrite IH, append_assoc.
Qed.

Lemma has_markup_app (s t : string) :
  has_markup (s ++ t) = has_markup s || has_markup t.
Proof.
  induction s as [|x r IH]; simpl; [reflexivity|].
  now rewrite IH, orb_assoc.
Qed.

Lemma esc_char_no_markup (c : ascii) : has_markup (esc_char c) = false.
Proof.
  unfold esc_char.
  destruct (Ascii.eqb c "&") eqn:E0; [reflexivity|].
  destruct (Ascii.eqb c "<") eqn:E1; [reflexivity|].
  destruct (Ascii.eqb c ">") eqn:E2; [reflexivity|].
  destruct (Ascii.eqb c Chars.dquote) eqn:E3; [reflexivity|].
  destruct (Ascii.eqb c Chars.squote) eqn:E4; [reflexivity|].
  simpl. unfold markup_char. now rewrite E1, E2, E3, E4.
Qed.

(** X1: [esc] works character by character: the five replacements one
    after the other give what replacing each character once gives, so
    no entity is escaped a second time, and [esc] goes through
    concatenation. *)
Theorem X1_esc_charwise (s t : string) :
  esc s = esc_chars s /\ esc (s ++ t) = esc s ++ esc t.
Proof.
  assert (H : forall u, esc u = esc_chars u).
  { induction u as [|x r IH]; [reflexivity|].
    rewrite esc_cons, IH. reflexivity. }
  split; [apply H|]. now rewrite !H, esc_chars_app.
Qed.

Lemma esc_no_markup (s : string) : has_markup (esc s) = false.
Proof.
  induction s as [|x r IH]; [reflexivity|].
  now rewrite esc_cons, has_markup_app, esc_char_no_markup, IH.
Qed.

Section InterpolationEscaped.

Context {State : Type}.
Context {host : Host}.

(** X2: whatever the expression evaluates to, an Interpolation that is
    not raw renders text without the characters [<], [>], the double
    quote and the single quote: the value goes through [esc], and the
    two error texts hold none of them. *)
Theorem X2_interpolation_has_no_markup (reg : Registry (State := State))
  (e : Expr) (ctx : TemplateData) (s s' : State) (out : string) :
  rn_node reg (I e false) ctx s = (Some out, s') ->
  has_markup out = false.
Proof.
  cbn [rn_node]. unfold bind.
  destruct (ev reg e ctx s) as [[v|] s1]; [|discriminate].
  destruct v as [| |b|n|str|l|m]; cbn [nullish toStr liftO ret throw];
    intros H; inversion H; subst; try reflexivity; apply esc_no_markup.
Qed.

End InterpolationEscaped.

Lemma X2_witness :
  rn_node (host := RefHost.host) (fns (State := unit))
    (I (V ["x"]) false) [("x", VStr "<b>'hi'</b>")] tt
  = (Some "&lt;b&gt;&#39;hi&#39;&lt;/b&gt;", tt)
  /\ has_markup "&lt;b&gt;&#39;hi&#39;&lt;/b&gt;" = false.
Proof.
  split; [reflexivity|].
  apply (@X2_interpolation_has_no_markup unit RefHost.host fns
           (V ["x"]) [("x", VStr "<b>'hi'</b>")] tt tt).
  reflexivity.
Defined.

(** ** Plain text *)

Lemma at_cons (a : ascii) (p : string) (b : ascii) (s : string) :
  at_ (String a p) (String b s) = Ascii.eqb a b && at_ p s.
Proof.
  unfold at_. simpl. destruct (Ascii.ascii_dec a b) as [E|E].
  - subst. now rewrite Ascii.eqb_refl.
  - apply Ascii.eqb_neq in E. now rewrite E.
Qed.

Lemma at_nil (s : string) : at_ "" s = true.
Proof. now destruct s. Qed.

Lemma at_open (c : ascii) (u : string) :
  at_ "{{" (String c u) = Ascii.eqb c "{" && starts "{" u.
Proof.
  rewrite at_cons, (Ascii.eqb_sym "{" c). destruct u as [|d u]; [reflexivity|].
  now rewrite at_cons, at_nil, andb_true_r, (Ascii.eqb_sym "{" d).
Qed.

Lemma at_escape_cons (c : ascii) (u : string) :
  at_ "\{{" (String c u) = Ascii.eqb c "\" && at_ "{{" u.
Proof. now rewrite at_cons, (Ascii.eqb_sym "\" c). Qed.

Lemma at_escape (r : string) : at_ "\{{" ("\{{" ++ r) = true.
Proof.
  change ("\{{" ++ r) with (String "\" (String "{" (String "{" r))).
  now rewrite !at_cons, at_nil.
Qed.

(** No tag opens across the end of text without an opening delimiter,
    when what follows does not start with a brace. *)
Lemma no_open_at_app (t e : string) :
  no_open t = true -> starts "{" e = false -> at_ "{{" (t ++ e) = false.
Proof.
  intros Ht He. destruct t as [|c t'].
  - destruct e as [|x e']; [reflexivity|].
    change ("" ++ String x e') with (String x e').
    rewrite at_open. simpl in He. now rewrite He.
  - cbn [no_open] in Ht. apply andb_true_iff in Ht. destruct Ht as [H1 _].
    apply negb_true_iff in H1. rewrite at_open in H1.
    change (String c t' ++ e) with (String c (t' ++ e)). rewrite at_open.
    destruct (Ascii.eqb c "{"); [|reflexivity]. simpl in *.
    destruct t' as [|d t'']; [exact He | exact H1].
Qed.

(** Text without an opening delimiter is read up to what follows it. *)
Lemma scan_text_app (t e : string) :
  no_open t = true -> starts "{" e = false -> scan_text [] e = ("", e) ->
  scan_text [] (t ++ e) = (t, e).
Proof.
  intros Ht He Hs. induction t as [|c t' IH]; [exact Hs|].
  pose proof (no_open_at_app _ _ Ht He) as Htag.
  cbn [no_open] in Ht. apply andb_true_iff in Ht. destruct Ht as [_ H2].
  change (String c t' ++ e) with (String c (t' ++ e)) in *.
  cbn [scan_text]. rewrite Htag, at_escape_cons, (no_open_at_app _ _ H2 He).
  rewrite andb_false_r. cbn [any_at existsb orb]. now rewrite (IH H2).
Qed.

(** Text without an opening delimiter is read whole. *)
Lemma scan_text_no_open (t : string) :
  no_open t = true -> scan_text [] t = (t, "").
Proof.
  intros H. pose proof (@scan_text_app t "" H eq_refl eq_refl) as E.
  now rewrite append_empty_r in E.
Qed.

(** Text without an opening delimiter is read up to an escaped
    delimiter behind it. *)
Lemma scan_text_before_escape (t r : string) :
  no_open t = true -> scan_text [] (t ++ "\{{" ++ r) = (t, "\{{" ++ r).
Proof.
  intros H. apply scan_text_app; [exact H | reflexivity |].
  change ("\{{" ++ r) with (String "\" (String "{" (String "{" r))).
  cbn [scan_text].
  change (String "\" (String "{" (String "{" r))) with ("\{{" ++ r).
  rewrite at_escape. now rewrite orb_true_r.
Qed.

Section PlainText.

Context {host : Host}.

(** The nodes of a stretch of text. *)
Lemma parseLoop_text
  (pn : list string -> string -> option (list Node * string)) (t : string) :
  no_open t = true ->
  parseLoop parseExpr pn [] 1 t = Some (if String.eqb t "" then [] else [T t], "").
Proof.
  intros H. destruct t as [|c r]; [reflexivity|].
  rewrite parseLoop_S by discriminate.
  change (any_at [] (String c r)) with false. cbv iota.
  unfold parseStep.
  pose proof (scan_text_no_open _ H) as Hs.
  cbn [no_open] in H. apply andb_true_iff in H. destruct H as [H1 H2].
  apply negb_true_iff in H1.
  assert (Hesc : at_ "\{{" (String c r) = false).
  { rewrite at_escape_cons.
    pose proof (no_open_at_app r "" H2 eq_refl) as E.
    rewrite append_empty_r in E. rewrite E. apply andb_false_r. }
  rewrite Hesc, H1, Hs. cbn [parseLoop].
  now rewrite List.app_nil_r.
Qed.

(** X3: a template in which no tag opens (it has no [{{]) is one Text
    node, or no node when it is empty, and renders to itself, with any
    data and any table of functions. *)
Theorem X3_plain_text_round_trip (tmpl : string) :
  no_open tmpl = true ->
  parse tmpl = Some (if String.eqb tmpl "" then [] else [T tmpl])
  /\ forall (State : Type) (reg : Registry (State := State))
            (data : TemplateData) (s : State),
       render reg tmpl data s = Some (Some tmpl, s).
Proof.
  intros H.
  assert (P : parse tmpl = Some (if String.eqb tmpl "" then [] else [T tmpl])).
  { destruct tmpl as [|c r]; [reflexivity|].
    unfold parse, parseNodes.
    assert (E : parseNodes_fuel 2 [] (String c r)
                = Some (if String.eqb (String c r) "" then [] else [T (String c r)], "")).
    { cbn [parseNodes_fuel]. now apply parseLoop_text. }
    apply parseNodes_fuel_mono with (fuel' := S (String.length (String c r))) in E;
      [|simpl; lia].
    now rewrite E. }
  split; [exact P|].
  intros State reg data s. unfold render, compile. rewrite P.
  destruct tmpl as [|c r]; [reflexivity|].
  cbn. now rewrite append_empty_r.
Qed.

(** X4: a backslash before an opening delimiter makes it text: with no
    other [{{] in front or behind, the template [t1\{{t2] renders to
    [t1{{t2], the backslash left out. *)
Theorem X4_escaped_delimiter (t1 t2 : string) :
  no_open t1 = true -> no_open t2 = true ->
  forall (State : Type) (reg : Registry (State := State))
         (data : TemplateData) (s : State),
    render reg (t1 ++ "\{{" ++ t2) data s = Some (Some (t1 ++ "{{" ++ t2), s).
Proof.
  intros H1 H2 State reg data s.
  set (nodes := ((if String.eqb t1 "" then [] else [T t1])
                 ++ T "{{" :: (if String.eqb t2 "" then [] else [T t2]))%list).
  assert (L2 : forall pn, parseLoop parseExpr pn [] 2 ("\{{" ++ t2)
                     = Some (T "{{" :: (if String.eqb t2 "" then [] else [T t2]), "")).
  { intros pn. rewrite parseLoop_S by discriminate.
    change (any_at [] ("\{{" ++ t2)) with false. cbv iota.
    unfold parseStep. rewrite at_escape.
    change (drop_str 3 ("\{{" ++ t2)) with t2.
    now rewrite (parseLoop_text pn _ H2). }
  assert (L3 : forall pn, parseLoop parseExpr pn [] 3 (t1 ++ "\{{" ++ t2) = Some (nodes, "")).
  { intros pn. subst nodes. destruct t1 as [|c r].
    - change ("" ++ "\{{" ++ t2) with ("\{{" ++ t2).
      apply parseLoop_mono with (pe := parseExpr) (pn := pn) (k := 2); auto.
    - change (String c r ++ "\{{" ++ t2) with (String c (r ++ "\{{" ++ t2)).
      rewrite parseLoop_S by discriminate.
      change (any_at [] (String c (r ++ "\{{" ++ t2))) with false. cbv iota.
      unfold parseStep.
      pose proof (scan_text_before_escape (String c r) t2 H1) as Hs.
      change (String c r ++ "\{{" ++ t2) with (String c (r ++ "\{{" ++ t2)) in Hs.
      pose proof (no_open_at_app (String c r) ("\{{" ++ t2) H1 eq_refl) as Htag.
      change (String c r ++ "\{{" ++ t2) with (String c (r ++ "\{{" ++ t2)) in Htag.
      assert (Hesc : at_ "\{{" (String c (r ++ "\{{" ++ t2)) = false).
      { rewrite at_escape_cons.
        cbn [no_open] in H1. apply andb_true_iff in H1. destruct H1 as [_ H1].
        rewrite (no_open_at_app r ("\{{" ++ t2) H1 eq_refl).
        apply andb_false_r. }
      rewrite Hesc, Htag, Hs, L2. reflexivity. }
  assert (P : parse (t1 ++ "\{{" ++ t2) = Some nodes).
  { unfold parse, parseNodes.
    assert (E : parseNodes_fuel 4 [] (t1 ++ "\{{" ++ t2) = Some (nodes, ""))
      by (cbn [parseNodes_fuel]; apply L3).
    apply parseNodes_fuel_mono
      with (fuel' := S (String.length (t1 ++ "\{{" ++ t2))) in E.
    - now rewrite E.
    - rewrite length_append. simpl. lia. }
  unfold render, compile. rewrite P. subst nodes.
  destruct t1 as [|c r], t2 as [|d r2]; cbn; rewrite ?append_empty_r;
    reflexivity.
Qed.

End PlainText.

Lemma X3_witness :
  parse (host := RefHost.host) "Hello { World }" = Some [T "Hello { World }"]
  /\ forall (State : Type) (reg : Registry (State := State))
            (data : TemplateData) (s : State),
       render (host := RefHost.host) reg "Hello { World }" data s
       = Some (Some "Hello { World }", s).
Proof.
  apply (@X3_plain_text_round_trip RefHost.host "Hello { World }"). reflexivity.
Defined.

Lemma X4_witness :
  render (host := RefHost.host) (fns (State := unit))
    "Show \{{ code }} here" [] tt
  = Some (Some "Show {{ code }} here", tt).
Proof.
  apply (@X4_escaped_delimiter RefHost.host "Show " " code }} here");
    reflexivity.
Defined.

(** ** The renderer *)

Section RendererFacts.

Context {State : Type}.
Context {host : Host}.

Implicit Types (reg : Registry (State := State)) (ctx : TemplateData)
  (s : State).

(** X5: rendering two node lists one after the other is rendering
    their concatenation: the second list is rendered in the same
    context, from the host state the first one left, the two texts are
    joined, and an exception in either ends the rendering. *)
Theorem X5_rn_app reg (a b : list Node) ctx s :
  rn reg (a ++ b) ctx s
  = bind (rn reg a ctx)
      (fun x => bind (rn reg b ctx) (fun y => ret (x ++ y))) s.
Proof.
  revert s. unfold rn. induction a as [|n a IH]; intros s.
  - cbn [app rn_with]. unfold bind, ret.
    destruct (rn_with (rn_node reg) b ctx s) as [[y|] s']; reflexivity.
  - cbn [app rn_with]. unfold bind, ret.
    destruct (rn_node reg n ctx s) as [[x|] s1]; [|reflexivity].
    rewrite IH. unfold bind, ret.
    destruct (rn_with (rn_node reg) a ctx s1) as [[y|] s2]; [|reflexivity].
    destruct (rn_with (rn_node reg) b ctx s2) as [[z|] s3]; [|reflexivity].
    now rewrite append_assoc.
Qed.

(** The loop over the branches of a Conditional stops at the first
    condition that is truthy. *)
Lemma branches_loop_first (body_of : list Node -> M (State := State) string)
  reg ctx (fallback : M string) (pre : list (Expr * list Node)) :
  forall (c : Expr) (b : list Node) (post : list (Expr * list Node)) s
         (vs : list Value) s1 (v : Value) s2,
    args_map (ev reg) (map fst pre) ctx s = (Some vs, s1) ->
    forallb (fun x => negb (truthy x)) vs = true ->
    ev reg c ctx s1 = (Some v, s2) ->
    truthy v = true ->
    branches_loop reg body_of ctx fallback (pre ++ (c, b) :: post) s
    = body_of b s2.
Proof.
  induction pre as [|[c0 b0] pre IH]; intros c b post s vs s1 v s2 Hpre Hall Hc Hv.
  - simpl in Hpre. injection Hpre as _ Hs. subst s1.
    cbn. unfold bind. now rewrite Hc, Hv.
  - cbn in Hpre. unfold bind in Hpre.
    destruct (ev reg c0 ctx s) as [[x|] sx] eqn:E0; [|discriminate].
    destruct (args_map (ev reg) (map fst pre) ctx sx) as [[xs|] sy] eqn:E1;
      [|discriminate].
    injection Hpre as Hvs Hs. subst vs sy. cbn in Hall.
    apply andb_true_iff in Hall. destruct Hall as [Hx Hall].
    apply negb_true_iff in Hx.
    cbn. unfold bind at 1. rewrite E0, Hx. eapply IH; eauto.
Qed.

(** When no condition is truthy the loop ends in the fallback. *)
Lemma branches_loop_none (body_of : list Node -> M (State := State) string)
  reg ctx (fallback : M string) (branches : list (Expr * list Node)) :
  forall s (vs : list Value) s1,
    args_map (ev reg) (map fst branches) ctx s = (Some vs, s1) ->
    forallb (fun x => negb (truthy x)) vs = true ->
    branches_loop reg body_of ctx fallback branches s = fallback s1.
Proof.
  induction branches as [|[c0 b0] bs IH]; intros s vs s1 Hbs Hall.
  - simpl in Hbs. injection Hbs as _ Hs. now subst s1.
  - cbn in Hbs. unfold bind in Hbs.
    destruct (ev reg c0 ctx s) as [[x|] sx] eqn:E0; [|discriminate].
    destruct (args_map (ev reg) (map fst bs) ctx sx) as [[xs|] sy] eqn:E1;
      [|discriminate].
    injection Hbs as Hvs Hs. subst vs sy. cbn in Hall.
    apply andb_true_iff in Hall. destruct Hall as [Hx Hall].
    apply negb_true_iff in Hx.
    cbn. unfold bind at 1. rewrite E0, Hx. eapply IH; eauto.
Qed.

(** X6: a Conditional renders the body of the first branch whose
    condition is truthy, in the host state its condition left: the
    conditions before it are evaluated in order and are falsy, the
    branches behind it and the fallback are neither evaluated nor
    rendered.  When every condition is falsy it renders the fallback,
    or nothing without one. *)
Theorem X6_conditional_first_truthy reg ctx
  (pre : list (Expr * list Node)) (vs : list Value) s s1 :
  args_map (ev reg) (map fst pre) ctx s = (Some vs, s1) ->
  forallb (fun x => negb (truthy x)) vs = true ->
  (forall (c : Expr) (b : list Node) (post : list (Expr * list Node))
          (els : option (list Node)) (v : Value) s2,
      ev reg c ctx s1 = (Some v, s2) ->
      truthy v = true ->
      rn_node reg (F (pre ++ (c, b) :: post) els) ctx s = rn reg b ctx s2)
  /\ (forall e : list Node,
         rn_node reg (F pre (Some e)) ctx s = rn reg e ctx s1)
  /\ rn_node reg (F pre None) ctx s = (Some "", s1).
Proof.
  intros Hpre Hall. split; [|split].
  - intros c b post els v s2 Hc Hv. cbn [rn_node].
    now rewrite (branches_loop_first _ reg ctx _ pre c b post s Hpre Hall Hc Hv).
  - intros e. cbn [rn_node].
    now rewrite (branches_loop_none _ reg ctx _ pre s Hpre Hall).
  - cbn [rn_node].
    now rewrite (branches_loop_none _ reg ctx _ pre s Hpre Hall).
Qed.

End RendererFacts.

Lemma X6_witness :
  rn_node (host := RefHost.host) counting
    (F [(L VNull, [T "A"]); (C "count" [], [T "B"]); (C "count" [], [T "C"])]
       (Some [T "D"])) [] 0
  = rn (host := RefHost.host) counting [T "B"] [] 1.
Proof.
  apply (proj1 (@X6_conditional_first_truthy nat RefHost.host counting []
                  [(L VNull, [T "A"])] [VNull] 0 0 eq_refl eq_refl)
           (C "count" []) [T "B"] [(C "count" [], [T "C"])] (Some [T "D"])
           (VStr "x") 1); reflexivity.
Defined.

(** ** Loop contexts *)

(** X7: in the context of an iteration the element name is bound to
    the element, the index name, when there is one other than
    [__proto__], is bound to the index, and every other key of the
    enclosing context keeps its value, absent keys staying absent.  An
    index with the name of the element takes its place. *)
Theorem X7_loop_child_context (ctx : TemplateData) (as_ : string)
  (idx : option string) (x : Value) (i : nat) :
  declared idx <> Some "__proto__" ->
  (declared idx <> Some as_ ->
     assoc as_ (local_ctx ctx as_ idx x i) = Some x)
  /\ (forall k, declared idx = Some k ->
        assoc k (local_ctx ctx as_ idx x i) = Some (VNum (Num.of_nat i)))
  /\ (forall k, k <> as_ -> declared idx <> Some k ->
        assoc k (local_ctx ctx as_ idx x i) = assoc k ctx).
Proof.
  intros Hproto. split; [|split].
  - apply local_ctx_item.
  - intros k Hk. apply local_ctx_index; [exact Hk|].
    left. intros ->. congruence.
  - intros k. apply local_ctx_frame.
Qed.

Lemma X7_witness :
  assoc "x" (local_ctx [("x", VStr "outer"); ("y", VStr "kept")] "x" (Some "i")
               (VStr "a") 3) = Some (VStr "a")
  /\ assoc "i" (local_ctx [("x", VStr "outer"); ("y", VStr "kept")] "x" (Some "i")
                  (VStr "a") 3) = Some (VNum (Num.of_nat 3))
  /\ assoc "y" (local_ctx [("x", VStr "outer"); ("y", VStr "kept")] "x" (Some "i")
                  (VStr "a") 3) = Some (VStr "kept").
Proof.
  pose proof (@X7_loop_child_context [("x", VStr "outer"); ("y", VStr "kept")]
                "x" (Some "i") (VStr "a") 3) as H.
  destruct H as (H1 & H2 & H3); [discriminate|].
  split; [|split].
  - apply H1. discriminate.
  - apply H2. reflexivity.
  - apply H3; discriminate.
Defined.

(** ** Indices *)

Lemma index_of_key_canonical (n : N) : index_of_key (N_to_string n) = Some n.
Proof.
  unfold index_of_key, N_to_string.
  rewrite NilEmpty.usu, DecimalN.Unsigned.of_to.
  now rewrite String.eqb_refl.
Qed.

Lemma index_of_key_inv (k : string) (i : N) :
  index_of_key k = Some i -> k = N_to_string i.
Proof.
  unfold index_of_key.
  destruct (NilEmpty.uint_of_string k) as [d|]; [|discriminate].
  destruct (String.eqb (N_to_string (N.of_uint d)) k) eqn:E; [|discriminate].
  intros H. inversion H; subst. apply String.eqb_eq in E. now symmetry.
Qed.

Lemma nat_to_string_not_length (i : nat) :
  String.eqb (nat_to_string i) "length" = false.
Proof.
  destruct (String.eqb (nat_to_string i) "length") eqn:E; [|reflexivity].
  apply String.eqb_eq in E. unfold nat_to_string in E.
  pose proof (index_of_key_canonical (N.of_nat i)) as H.
  rewrite E in H. discriminate.
Qed.

Section IndexFacts.

Context {State : Type}.
Context {host : Host}.

(** X8: behind a key bound to an array, the decimal form of an index
    below the length resolves to that element, [length] resolves to the
    number of elements, and every other segment (an index out of
    bounds, a number written with leading zeros, a name) is absent. *)
Theorem X8_array_segments (reg : Registry (State := State))
  (ctx : TemplateData) (k : string) (l : list Value) (s : State) :
  assoc k ctx = Some (VArr l) ->
  (forall i, i < List.length l ->
     ev reg (V [k; nat_to_string i]) ctx s = (Some (nth i l VUndef), s))
  /\ ev reg (V [k; "length"]) ctx s
     = (Some (VNum (Num.of_nat (List.length l))), s)
  /\ (forall seg,
        seg <> "length" ->
        (forall i, i < List.length l -> seg <> nat_to_string i) ->
        ev reg (V [k; seg]) ctx s = (Some VUndef, s)).
Proof.
  intros Hk.
  assert (Ho : owns ctx k = true) by (unfold owns; now rewrite Hk).
  assert (W : forall seg,
             ev reg (V [k; seg]) ctx s
             = (Some (if negb (has (VArr l) seg) then VUndef
                      else get (VArr l) seg), s)).
  { intros seg. cbn [ev walk nullish has get]. rewrite Ho, Hk. cbn.
    now destruct (String.eqb seg "length" || has_index (List.length l) seg). }
  split; [|split].
  - intros i Hi. rewrite W. cbn [has get].
    rewrite nat_to_string_not_length. unfold has_index, nat_to_string.
    rewrite index_of_key_canonical.
    assert (E : (N.of_nat i <? N.of_nat (List.length l))%N = true)
      by (apply N.ltb_lt; lia).
    rewrite E. cbn. now rewrite Nat2N.id.
  - rewrite W. reflexivity.
  - intros seg Hlen Hidx. rewrite W. cbn [has].
    apply String.eqb_neq in Hlen. rewrite Hlen. unfold has_index.
    destruct (index_of_key seg) as [i|] eqn:E; [|reflexivity].
    destruct (i <? N.of_nat (List.length l))%N eqn:Elt; [|reflexivity].
    exfalso. apply N.ltb_lt in Elt. apply index_of_key_inv in E.
    apply (Hidx (N.to_nat i)); [lia|].
    unfold nat_to_string. now rewrite N2Nat.id.
Qed.

End IndexFacts.

Lemma X8_witness :
  ev (host := RefHost.host) (fns (State := unit)) (V ["tags"; "1"])
    [("tags", VArr [VStr "a"; VStr "b"])] tt
  = (Some (VStr "b"), tt)
  /\ ev (host := RefHost.host) (fns (State := unit)) (V ["tags"; "01"])
       [("tags", VArr [VStr "a"; VStr "b"])] tt
     = (Some VUndef, tt).
Proof.
  pose proof (@X8_array_segments unit RefHost.host fns
                [("tags", VArr [VStr "a"; VStr "b"])] "tags"
                [VStr "a"; VStr "b"] tt eq_refl) as H.
  destruct H as (H1 & _ & H3). split.
  - apply (H1 1). simpl. lia.
  - apply H3; [discriminate|].
    intros i Hi. simpl in Hi.
    destruct i as [|[|i]]; [discriminate | discriminate | lia].
Defined.

(** ** More on the built-in functions *)

Section BuiltinResults.

Context {State : Type}.
Context {host : Host}.

(** X9: the comparisons [eq], [ne], [gt], [lt], [gte], [lte] and [not]
    return a boolean whenever they return a value on enough arguments;
    their only other result is the arity error, on too few. *)
Theorem X9_comparisons_return_booleans (reg : Registry (State := State))
  (name : string) (b : Builtin) (n : nat) (args : list Expr)
  (ctx : TemplateData) (s s' : State) (v : Value) :
  lookup_fn reg name = Some (Own (Native b)) ->
  In b [Beq; Bne; Bgt; Blt; Bgte; Blte; Bnot] ->
  min_args b = Some n ->
  n <= List.length args ->
  ev reg (C name args) ctx s = (Some v, s') ->
  exists r : bool, v = VBool r.
Proof.
  intros Hf Hin Hn Hlen. cbn [ev]. unfold call. rewrite Hf. cbn [invoke].
  assert (Hcmp : forall op,
             compare_with (ev reg) op ctx args s = (Some v, s') ->
             exists r : bool, v = VBool r).
  { intros op. unfold compare_with, bind, ret.
    destruct (arg (ev reg) args 0 ctx s) as [[x|] s1]; [|discriminate].
    destruct (liftO (toNum x) s1) as [[nx|] s2]; [|discriminate].
    destruct (arg (ev reg) args 1 ctx s2) as [[y|] s3]; [|discriminate].
    destruct (liftO (toNum y) s3) as [[ny|] s4]; [|discriminate].
    intros H. inversion H. eauto. }
  simpl in Hin.
  destruct Hin as [<-|[<-|[<-|[<-|[<-|[<-|[<-|[]]]]]]]];
    simpl in Hn; inversion Hn; subst n; cbn [builtin]; unfold checked;
    rewrite (ck_enough _ _ Hlen); try apply Hcmp.
  - unfold bind, ret.
    destruct (arg (ev reg) args 0 ctx s) as [[x|] s1]; [|discriminate].
    destruct (arg (ev reg) args 1 ctx s1) as [[y|] s2]; [|discriminate].
    intros H. inversion H. eauto.
  - unfold bind, ret.
    destruct (arg (ev reg) args 0 ctx s) as [[x|] s1]; [|discriminate].
    destruct (arg (ev reg) args 1 ctx s1) as [[y|] s2]; [|discriminate].
    intros H. inversion H. eauto.
  - unfold bind, ret.
    destruct (arg (ev reg) args 0 ctx s) as [[x|] s1]; [|discriminate].
    intros H. inversion H. eauto.
Qed.

(** Joining strings. *)
Lemma join_with_strings (sep : string) (l : list string) :
  join_with toStr sep (map VStr l) = Some (String.concat sep l).
Proof.
  induction l as [|x [|y l] IH]; [reflexivity | reflexivity |].
  change (map VStr (x :: y :: l)) with (VStr x :: map VStr (y :: l)).
  cbn [join_with] in *. cbn [map] in *. cbn [nullish toStr].
  cbn [nullish toStr] in IH. rewrite IH. reflexivity.
Qed.

(** X10: [join] on an array of strings and a string separator is the
    concatenation of the strings with the separator between them; the
    empty array joins to the empty string. *)
Theorem X10_join_strings (reg : Registry (State := State))
  (e1 e2 : Expr) (rest : list Expr) (ctx : TemplateData)
  (l : list string) (sep : string) (s s1 s2 : State) :
  lookup_fn reg "join" = Some (Own (Native Bjoin)) ->
  ev reg e1 ctx s = (Some (VArr (map VStr l)), s1) ->
  ev reg e2 ctx s1 = (Some (VStr sep), s2) ->
  ev reg (C "join" (e1 :: e2 :: rest)) ctx s
  = (Some (VStr (String.concat sep l)), s2)
  /\ ev reg (P e1 "join" (e2 :: rest)) ctx s
     = (Some (VStr (String.concat sep l)), s2).
Proof.
  intros Hf H1 H2.
  assert (E : ev reg (C "join" (e1 :: e2 :: rest)) ctx s
              = (Some (VStr (String.concat sep l)), s2)).
  { cbn [ev]. unfold call. rewrite Hf. cbn [invoke builtin].
    unfold fn_join, checked. rewrite ck_enough by (simpl; lia).
    unfold bind. cbn [arg]. rewrite H1. unfold str_arg, bind. cbn [arg].
    rewrite H2. cbn [toStr liftO]. unfold ret at 1.
    rewrite join_with_strings. reflexivity. }
  split; [exact E|]. exact E.
Qed.

End BuiltinResults.

Lemma X9_witness : exists r : bool, VBool false = VBool r.
Proof.
  apply (@X9_comparisons_return_booleans unit RefHost.host fns "gt" Bgt 2
           [L (VStr "abc"); L VNull] [] tt tt (VBool false)).
  - reflexivity.
  - simpl. tauto.
  - reflexivity.
  - simpl. lia.
  - reflexivity.
Defined.

Lemma X10_witness :
  ev (host := RefHost.host) (fns (State := unit))
    (C "join" [V ["tags"]; L (VStr ", ")])
    [("tags", VArr (map VStr ["a"; "b"; "c"]))] tt
  = (Some (VStr (String.concat ", " ["a"; "b"; "c"])), tt)
  /\ ev (host := RefHost.host) (fns (State := unit))
       (P (V ["tags"]) "join" [L (VStr ", ")])
       [("tags", VArr (map VStr ["a"; "b"; "c"]))] tt
     = (Some (VStr (String.concat ", " ["a"; "b"; "c"])), tt).
Proof.
  apply (@X10_join_strings unit RefHost.host fns (V ["tags"]) (L (VStr ", ")) []
           [("tags", VArr (map VStr ["a"; "b"; "c"]))] ["a"; "b"; "c"] ", "
           tt tt tt); reflexivity.
Defined.

(** ** [replace] *)

Lemma split_join_go_char (c : ascii) (rep s : string) :
  split_join_go (str1 c) rep 0 s = replace_char c rep s.
Proof.
  induction s as [|x r IH]; [reflexivity|].
  cbn [split_join_go replace_char].
  change (String.prefix (str1 c) (String x r)) with (at_ (str1 c) (String x r)).
  unfold str1 at 1. rewrite at_cons, at_nil, andb_true_r.
  rewrite (Ascii.eqb_sym c x).
  destruct (Ascii.eqb x c); cbn [String.length str1 Nat.sub]; now rewrite IH.
Qed.

Lemma prefix_split (p s : string) :
  String.prefix p s = true -> s = p ++ drop_str (String.length p) s.
Proof.
  revert s. induction p as [|a p IH]; intros s H.
  - now destruct s.
  - destruct s as [|b s]; [discriminate|]. simpl in H.
    destruct (Ascii.ascii_dec a b); [|discriminate]. subst b.
    simpl. f_equal. now apply IH.
Qed.

(** Skipping is dropping. *)
Lemma split_join_go_skip (sep rep : string) (n : nat) :
  forall s, n <= String.length s ->
    split_join_go sep rep n s = split_join_go sep rep 0 (drop_str n s).
Proof.
  induction n as [|n IH]; intros s Hn; [now destruct s|].
  destruct s as [|x r]; [simpl in Hn; lia|].
  cbn [split_join_go]. simpl in Hn. rewrite IH by lia. reflexivity.
Qed.

Lemma split_join_go_self (sep : string) (n : nat) :
  sep <> "" ->
  forall s, String.length s <= n -> split_join_go sep sep 0 s = s.
Proof.
  intros Hsep. induction n as [|n IH]; intros s Hn.
  - destruct s; [reflexivity | simpl in Hn; lia].
  - destruct s as [|x r]; [reflexivity|].
    cbn [split_join_go].
    destruct (String.prefix sep (String x r)) eqn:E.
    + pose proof (prefix_split _ _ E) as Hs.
      destruct sep as [|a sep']; [congruence|].
      simpl in E. destruct (Ascii.ascii_dec a x); [|discriminate]. subst a.
      cbn [String.length Nat.sub] in *. rewrite Nat.sub_0_r.
      simpl in Hs. injection Hs as Hr.
      assert (Hlen : String.length sep' <= String.length r).
      { pose proof (f_equal String.length Hr) as Hl.
        rewrite length_append in Hl. lia. }
      rewrite split_join_go_skip by exact Hlen.
      rewrite IH.
      * simpl. f_equal. now symmetry.
      * pose proof (drop_str_le (String.length sep') r). simpl in Hn. lia.
    + f_equal. apply IH. simpl in Hn. lia.
Qed.

(** X11: [s.split(sep).join(rep)], the body of [replace]: for a pattern
    of one character it replaces every occurrence of the character, as
    the passes of [esc] do; replacing any non-empty pattern by itself
    changes nothing; and the empty pattern puts the replacement between
    all the characters. *)
Theorem X11_replace_all (s rep : string) :
  (forall c : ascii, split_join s (str1 c) rep = replace_char c rep s)
  /\ (forall sep : string, sep <> "" -> split_join s sep sep = s)
  /\ split_join s "" rep = intersperse_str rep s
  /\ split_join "" rep rep = "".
Proof.
  split; [|split; [|split]].
  - intros c. apply split_join_go_char.
  - intros sep Hsep. destruct sep as [|a p]; [congruence|].
    apply (split_join_go_self Hsep (n := String.length s)). lia.
  - reflexivity.
  - now destruct rep.
Qed.

(** ** The lexer *)

(** The parts [ident] splits its input in. *)
Lemma ident_split (s : string) :
  s = fst (ident s) ++ snd (ident s).
Proof.
  induction s as [|c r IH]; [reflexivity|]. simpl.
  destruct (Chars.isWord c); [|reflexivity].
  destruct (ident r) as [w r']. simpl in *. now f_equal.
Qed.

(** X12: [ident] reads the longest run of word characters at the
    cursor: the input is the word followed by the rest, every character
    of the word is a letter, a digit or the underscore, and the rest is
    empty or starts with another character.  [skipWs] likewise leaves a
    rest that does not start with white space. *)
Theorem X12_ident_longest_word (s : string) :
  s = fst (ident s) ++ snd (ident s)
  /\ all_word (fst (ident s)) = true
  /\ match snd (ident s) with
     | String c _ => Chars.isWord c = false
     | EmptyString => True
     end
  /\ match skipWs s with
     | String c _ => Chars.isWs c = false
     | EmptyString => True
     end.
Proof.
  split; [apply ident_split|]. split; [|split].
  - induction s as [|c r IH]; [reflexivity|]. simpl.
    destruct (Chars.isWord c) eqn:E; [|reflexivity].
    destruct (ident r) as [w r']. simpl in *. now rewrite E.
  - induction s as [|c r IH]; [constructor|]. simpl.
    destruct (Chars.isWord c) eqn:E; [|exact E].
    destruct (ident r) as [w r']. exact IH.
  - induction s as [|c r IH]; [constructor|]. simpl.
    destruct (Chars.isWs c) eqn:E; [exact IH | exact E].
Qed.

(** ** String literals *)

Lemma unescape_other (c : ascii) :
  c = Chars.dquote \/ c = Chars.squote \/ c = Chars.backslash ->
  unescape c = c.
Proof. intros [->|[->| ->]]; reflexivity. Qed.

(** X13: every text can be written as a string literal: with a
    backslash put before each backslash and each quote character of the
    text, the literal is read back as the text, and the cursor is then
    behind the closing quote. *)
Theorem X13_string_literal_round_trip (q : ascii) (s rest : string) :
  q = Chars.dquote \/ q = Chars.squote ->
  string_literal q (quote_escape q s ++ String q rest) = (L (VStr s), rest).
Proof.
  intros Hq.
  assert (Hqb : Ascii.eqb Chars.backslash q = false)
    by (destruct Hq; subst q; reflexivity).
  assert (H : scan_string q (quote_escape q s ++ String q rest) = Some (s, rest)).
  { induction s as [|c r IH].
    - simpl. now rewrite Ascii.eqb_refl.
    - cbn [quote_escape].
      destruct (Ascii.eqb c q || Ascii.eqb c Chars.backslash) eqn:E.
      + change (String Chars.backslash (String c (quote_escape q r))
                ++ String q rest)
          with (String Chars.backslash
                  (String c (quote_escape q r ++ String q rest))).
        cbn [scan_string]. rewrite Hqb, Ascii.eqb_refl, IH.
        rewrite unescape_other; [reflexivity|].
        apply orb_true_iff in E. destruct E as [E|E]; apply Ascii.eqb_eq in E;
          subst c; tauto.
      + apply orb_false_iff in E. destruct E as [E1 E2].
        change (String c (quote_escape q r) ++ String q rest)
          with (String c (quote_escape q r ++ String q rest)).
        cbn [scan_string]. now rewrite E1, E2, IH. }
  unfold string_literal. now rewrite H.
Qed.

Lemma X13_witness :
  string_literal Chars.squote
    (quote_escape Chars.squote "it's a \ here" ++ String Chars.squote " }}")
  = (L (VStr "it's a \ here"), " }}")
  /\ quote_escape Chars.squote "it's a \ here" = "it\'s a \\ here".
Proof.
  split; [|reflexivity].
  apply (@X13_string_literal_round_trip Chars.squote "it's a \ here" " }}").
  right. reflexivity.
Defined.

(** ** Variable tags *)

(** A word character is none of the characters the parser gives a
    meaning to. *)
Lemma word_char_plain (c : ascii) :
  Chars.isWord c = true ->
  Chars.isWs c = false
  /\ Ascii.eqb c Chars.dquote = false /\ Ascii.eqb c Chars.squote = false
  /\ Ascii.eqb c "-" = false /\ Ascii.eqb c "." = false
  /\ Ascii.eqb c "+" = false /\ Ascii.eqb c "#" = false.
Proof.
  destruct c as [[] [] [] [] [] [] [] []]; vm_compute; intros H;
    try discriminate H; repeat split.
Qed.

Lemma ident_app (w rest : string) :
  all_word w = true ->
  match rest with
  | String c _ => Chars.isWord c = false
  | EmptyString => True
  end ->
  ident (w ++ rest) = (w, rest).
Proof.
  intros Hw Hr. induction w as [|c w IH].
  - destruct rest as [|d r]; [reflexivity|]. simpl. now rewrite Hr.
  - cbn [all_word] in Hw. apply andb_true_iff in Hw. destruct Hw as [Hc Hw].
    change (String c w ++ rest) with (String c (w ++ rest)).
    cbn [ident]. now rewrite Hc, (IH Hw).
Qed.

Lemma variable_name_inv (name : string) :
  variable_name name = true ->
  exists c w, name = String c w
    /\ Chars.isWord c = true /\ all_word name = true
    /\ Chars.isDigit c = false
    /\ String.eqb name "true" = false /\ String.eqb name "false" = false
    /\ String.eqb name "null" = false.
Proof.
  destruct name as [|c w]; [discriminate|]. unfold variable_name. intros H.
  apply andb_true_iff in H. destruct H as [H H4].
  apply andb_true_iff in H. destruct H as [H H3].
  apply andb_true_iff in H. destruct H as [H H2].
  apply andb_true_iff in H. destruct H as [H H1].
  apply negb_true_iff in H1, H2, H3, H4.
  exists c, w. repeat split; try assumption.
  cbn [all_word] in H. now apply andb_true_iff in H.
Qed.

Section VariableTag.

Context {host : Host}.

Lemma parsePipes_no_pipe (pe : string -> option (Expr * string)) (k : nat)
  (e : Expr) (s : string) :
  starts "|" s = false -> parsePipes pe k e s = Some (e, s).
Proof. intros H. destruct k; simpl; now rewrite H. Qed.

Lemma parsePath_no_dot (k : nat) (s : string) :
  starts "." s = false -> parsePath k s = ([], s).
Proof. intros H. destruct k; simpl; now rewrite H. Qed.

Lemma skipWs_idem (s : string) : skipWs (skipWs s) = skipWs s.
Proof.
  induction s as [|c r IH]; [reflexivity|]. cbn [skipWs].
  destruct (Chars.isWs c) eqn:E; [exact IH|]. cbn [skipWs]. now rewrite E.
Qed.

(** A name followed by something that goes on with neither a call, a
    path nor a pipe is read as the variable of that name; the cursor is
    left after the white space behind it. *)
Lemma parseExpr_variable (name rest : string) :
  variable_name name = true ->
  match rest with
  | String c _ => Chars.isWord c = false
  | EmptyString => True
  end ->
  starts "(" (skipWs rest) = false ->
  starts "." (skipWs rest) = false ->
  starts "|" (skipWs rest) = false ->
  parseExpr (name ++ rest) = Some (V [name], skipWs rest).
Proof.
  intros Hname Hrest Hparen Hpath Hpipe.
  destruct (@variable_name_inv name Hname)
    as (c & w & -> & Hc & Hall & Hdigit & Htrue & Hfalse & Hnull).
  destruct (word_char_plain c Hc) as (Hws & Hdq & Hsq & Hminus & Hdot & _).
  set (src := String c w ++ rest).
  assert (Esrc : src = String c (w ++ rest)) by reflexivity.
  clearbody src.
  assert (Hident : ident src = (String c w, rest)).
  { rewrite Esrc. change (String c (w ++ rest)) with (String c w ++ rest).
    now apply ident_app. }
  unfold parseExpr. cbn [parseExpr_fuel].
  assert (Hskip : skipWs src = src)
    by (rewrite Esrc; cbn [skipWs]; now rewrite Hws).
  rewrite Hskip.
  assert (Hbase : forall pe k,
             parseBase pe k src = Some (V [String c w], skipWs rest)).
  { intros pe k. unfold parseBase. rewrite Hident. rewrite Esrc.
    cbn [starts]. rewrite Hdq, Hsq. cbn [orb].
    unfold Chars.isNumStart. rewrite Hminus, Hdot, Hdigit. cbn [orb].
    rewrite Htrue, Hfalse, Hnull, Hparen.
    now rewrite (parsePath_no_dot _ _ Hpath). }
  rewrite Hbase, skipWs_idem, (parsePipes_no_pipe _ _ _ _ Hpipe).
  assert (Hlen : (String.length (skipWs rest) =? String.length src)%nat = false).
  { apply Nat.eqb_neq. rewrite Esrc. cbn [String.length].
    rewrite length_append. pose proof (skipWs_le rest). lia. }
  now rewrite Hlen.
Qed.

(** The expression of a tag that holds a name. *)
Lemma parseExpr_name (name sp : string) :
  variable_name name = true -> sp = "" \/ sp = " " ->
  parseExpr (name ++ sp ++ "}}") = Some (V [name], "}}").
Proof.
  intros Hname Hsp.
  destruct Hsp; subst sp; now apply (@parseExpr_variable name).
Qed.

(** X14: for every name a template can use for a variable, the tag
    [{{ name }}], with or without the spaces, is one Interpolation of
    the one-segment path, not raw.  It renders the HTML-escaped value of
    a key bound to a string and nothing for a key the data do not
    own. *)
Theorem X14_variable_tag (name : string) :
  variable_name name = true ->
  parse ("{{ " ++ name ++ " }}") = Some [I (V [name]) false]
  /\ parse ("{{" ++ name ++ "}}") = Some [I (V [name]) false]
  /\ forall (State : Type) (reg : Registry (State := State))
            (data : TemplateData) (s : State),
       (forall v, assoc name data = Some (VStr v) ->
          render reg ("{{ " ++ name ++ " }}") data s = Some (Some (esc v), s))
       /\ (assoc name data = None ->
          render reg ("{{ " ++ name ++ " }}") data s = Some (Some "", s)).
Proof.
  intros Hname.
  pose proof (@variable_name_inv name Hname) as Hc.
  destruct Hc as (c & w & Ename & Hword & _).
  destruct (word_char_plain c Hword) as (Hws & _ & _ & _ & _ & Hplus & Hhash).
  assert (Htag : forall pn k sp, sp = "" \/ sp = " " ->
             parseTag parseExpr pn k (name ++ sp ++ "}}")
             = Some (I (V [name]) false, "")).
  { intros pn k sp Hsp. unfold parseTag.
    rewrite (@parseExpr_name name sp Hname Hsp). subst name.
    change (String c w ++ sp ++ "}}") with (String c (w ++ sp ++ "}}")).
    cbn [starts]. now rewrite Hplus, Hhash. }
  assert (Hloop : forall pn sp, sp = "" \/ sp = " " ->
             parseLoop parseExpr pn [] 2 ("{{" ++ sp ++ name ++ sp ++ "}}")
             = Some ([I (V [name]) false], "")).
  { intros pn sp Hsp. rewrite parseLoop_S by discriminate.
    change (any_at [] ("{{" ++ sp ++ name ++ sp ++ "}}")) with false. cbv iota.
    unfold parseStep.
    assert (E1 : at_ "\{{" ("{{" ++ sp ++ name ++ sp ++ "}}") = false)
      by reflexivity.
    assert (E2 : at_ "{{" ("{{" ++ sp ++ name ++ sp ++ "}}") = true).
    { change ("{{" ++ sp ++ name ++ sp ++ "}}")
        with (String "{" (String "{" (sp ++ name ++ sp ++ "}}"))).
      now rewrite !at_cons, at_nil. }
    assert (E3 : skipWs (drop_str 2 ("{{" ++ sp ++ name ++ sp ++ "}}"))
                 = name ++ sp ++ "}}").
    { change (drop_str 2 ("{{" ++ sp ++ name ++ sp ++ "}}"))
        with (sp ++ name ++ sp ++ "}}").
      subst name. destruct Hsp; subst sp.
      - change ("" ++ String c w ++ "" ++ "}}") with (String c (w ++ "" ++ "}}")).
        cbn [skipWs]. now rewrite Hws.
      - change (" " ++ String c w ++ " " ++ "}}")
          with (String " " (String c (w ++ " " ++ "}}"))).
        cbn [skipWs]. change (Chars.isWs " ") with true. cbv iota.
        now rewrite Hws. }
    rewrite E1, E2, E3, (Htag pn 1 sp Hsp). reflexivity. }
  assert (Hparse : forall sp, sp = "" \/ sp = " " ->
             parse ("{{" ++ sp ++ name ++ sp ++ "}}")
             = Some [I (V [name]) false]).
  { intros sp Hsp. unfold parse, parseNodes.
    assert (E : parseNodes_fuel 3 [] ("{{" ++ sp ++ name ++ sp ++ "}}")
                = Some ([I (V [name]) false], ""))
      by (cbn [parseNodes_fuel]; now apply Hloop).
    apply parseNodes_fuel_mono
      with (fuel' := S (String.length ("{{" ++ sp ++ name ++ sp ++ "}}"))) in E.
    - now rewrite E.
    - simpl. lia. }
  pose proof (Hparse " " (or_intror eq_refl)) as P1.
  pose proof (Hparse "" (or_introl eq_refl)) as P2.
  change ("{{" ++ " " ++ name ++ " " ++ "}}") with ("{{ " ++ name ++ " }}") in P1.
  change ("{{" ++ "" ++ name ++ "" ++ "}}") with ("{{" ++ name ++ "}}") in P2.
  split; [exact P1|]. split; [exact P2|].
  intros State reg data s. split.
  - intros v Hv. unfold render, compile. rewrite P1.
    cbn [rn rn_with rn_node ev walk]. unfold bind, ret.
    cbn [nullish has get orb owns]. unfold owns. rewrite Hv.
    cbn. now rewrite append_empty_r.
  - intros Hnone. unfold render, compile. rewrite P1.
    cbn [rn rn_with rn_node ev walk]. unfold bind, ret.
    cbn [nullish has get orb owns]. unfold owns. rewrite Hnone.
    reflexivity.
Qed.

End VariableTag.

Lemma X14_witness :
  parse (host := RefHost.host) "{{ user_name }}"
  = Some [I (V ["user_name"]) false]
  /\ render (host := RefHost.host) (fns (State := unit)) "{{ user_name }}"
       [("user_name", VStr "A & B")] tt
     = Some (Some "A &amp; B", tt)
  /\ render (host := RefHost.host) (fns (State := unit)) "{{ user_name }}"
       [] tt
     = Some (Some "", tt).
Proof.
  pose proof (@X14_variable_tag RefHost.host "user_name" eq_refl) as H.
  destruct H as (H1 & _ & H3). split; [exact H1|]. split.
  - exact (proj1 (H3 unit fns [("user_name", VStr "A & B")] tt)
             "A & B" eq_refl).
  - exact (proj2 (H3 unit fns [] tt) eq_refl).
Defined.

(** ** The table of functions *)

(** Induction over expressions and nodes, with the hypothesis for the
    expressions and nodes inside the lists. *)
Lemma Expr_nested_ind (Q : Expr -> Prop) :
  (forall v, Q (L v)) ->
  (forall p, Q (V p)) ->
  (forall fn args, Forall Q args -> Q (C fn args)) ->
  (forall l fn args, Q l -> Forall Q args -> Q (P l fn args)) ->
  forall e, Q e.
Proof.
  intros HL HV HC HP. fix IH 1. intros [v|p|fn args|l fn args].
  - apply HL.
  - apply HV.
  - apply HC. induction args as [|a r IHr]; constructor; [apply IH | exact IHr].
  - apply HP; [apply IH|].
    induction args as [|a r IHr]; constructor; [apply IH | exact IHr].
Qed.

Lemma Node_nested_ind (Q : Node -> Prop) :
  (forall s, Q (T s)) ->
  (forall e raw, Q (I e raw)) ->
  (forall branches els,
     Forall (fun b => Forall Q (snd b)) branches ->
     match els with Some e => Forall Q e | None => True end ->
     Q (F branches els)) ->
  (forall arr as_ idx body els,
     Forall Q body ->
     match els with Some e => Forall Q e | None => True end ->
     Q (E arr as_ idx body els)) ->
  forall n, Q n.
Proof.
  intros HT HI HF HE. fix IH 1.
  assert (Hlist : forall l : list Node, Forall Q l).
  { induction l as [|a r IHr]; constructor; [apply IH | exact IHr]. }
  intros [s|e raw|branches els|arr as_ idx body els].
  - apply HT.
  - apply HI.
  - apply HF.
    + induction branches as [|[c b] r IHr]; constructor; [apply Hlist | exact IHr].
    + destruct els; [apply Hlist | exact Logic.I].
  - apply HE; [apply Hlist|]. destruct els; [apply Hlist | exact Logic.I].
Qed.

Section Frame.

Context {State : Type}.
Context {host : Host}.

Lemma bind_ext (A B : Type) (c1 c2 : M (State := State) A)
  (k1 k2 : A -> M (State := State) B) :
  (forall s, c1 s = c2 s) -> (forall a s, k1 a s = k2 a s) ->
  forall s, bind c1 k1 s = bind c2 k2 s.
Proof.
  intros Hc Hk s. unfold bind. rewrite Hc.
  destruct (c2 s) as [[a|] s']; [apply Hk | reflexivity].
Qed.

Section BuiltinsFrame.

Variables ev1 ev2 : Expr -> TemplateData -> M (State := State) Value.

Lemma arg_ext (a : list Expr) :
  (forall e, In e a -> forall ctx s, ev1 e ctx s = ev2 e ctx s) ->
  forall i ctx s, arg ev1 a i ctx s = arg ev2 a i ctx s.
Proof.
  induction a as [|e r IH]; intros H i ctx s; [reflexivity|].
  destruct i; cbn [arg].
  - apply H. now left.
  - apply IH. intros e' Hin. apply H. now right.
Qed.

Lemma args_map_ext (a : list Expr) :
  (forall e, In e a -> forall ctx s, ev1 e ctx s = ev2 e ctx s) ->
  forall ctx s, args_map ev1 a ctx s = args_map ev2 a ctx s.
Proof.
  induction a as [|e r IH]; intros H ctx s; [reflexivity|].
  cbn [args_map]. apply bind_ext.
  - intros s0. apply H. now left.
  - intros v s0. apply bind_ext; [|reflexivity].
    intros s1. apply IH. intros e' Hin. apply H. now right.
Qed.

Lemma logic_loop_ext (stop_on : bool) (a : list Expr) :
  (forall e, In e a -> forall ctx s, ev1 e ctx s = ev2 e ctx s) ->
  forall ctx r s,
    logic_loop ev1 stop_on ctx r a s = logic_loop ev2 stop_on ctx r a s.
Proof.
  induction a as [|e rest IH]; intros H ctx r s; [reflexivity|].
  cbn [logic_loop]. apply bind_ext.
  - intros s0. apply H. now left.
  - intros v s0. destruct (Bool.eqb (truthy v) stop_on); [reflexivity|].
    apply IH. intros e' Hin. apply H. now right.
Qed.

Lemma str_arg_ext (a : list Expr) :
  (forall e, In e a -> forall ctx s, ev1 e ctx s = ev2 e ctx s) ->
  forall i ctx s, str_arg ev1 a i ctx s = str_arg ev2 a i ctx s.
Proof.
  intros H i ctx s. unfold str_arg.
  apply bind_ext; [intros s0; now apply arg_ext | reflexivity].
Qed.

Lemma builtin_ext (b : Builtin) (a : list Expr) :
  (forall e, In e a -> forall ctx s, ev1 e ctx s = ev2 e ctx s) ->
  forall ctx s, builtin ev1 b ctx a s = builtin ev2 b ctx a s.
Proof.
  intros H ctx s.
  destruct b; cbn [builtin];
    unfold fn_and, fn_or, fn_truncate, fn_replace, fn_limit, fn_first,
      fn_last, fn_length, fn_join, fn_default, compare_with, checked;
    try (apply logic_loop_ext; exact H);
    try match goal with |- context [ck a ?n ?f] => destruct (ck a n f) end;
    try reflexivity;
    repeat first
      [ reflexivity
      | apply arg_ext; exact H
      | apply str_arg_ext; exact H
      | apply bind_ext; intros
      | match goal with
        | |- context [match ?v with VUndef => _ | _ => _ end] => destruct v
        | |- context [if ?c then _ else _] => destruct c
        end ].
Qed.

Lemma invoke_ext (f : Found) (a : list Expr) :
  (forall e, In e a -> forall ctx s, ev1 e ctx s = ev2 e ctx s) ->
  forall ctx s, invoke ev1 f ctx a s = invoke ev2 f ctx a s.
Proof.
  intros H ctx s. destruct f as [[b|g]| | |]; cbn [invoke]; try reflexivity.
  - now apply builtin_ext.
  - apply bind_ext; [intros s0; now apply args_map_ext | reflexivity].
Qed.

End BuiltinsFrame.

(** Two tables that agree on the names an expression calls give it the
    same value. *)
Lemma ev_ext (reg1 reg2 : Registry (State := State)) (e : Expr) :
  (forall n, calls n e = true -> lookup_fn reg1 n = lookup_fn reg2 n) ->
  forall ctx s, ev reg1 e ctx s = ev reg2 e ctx s.
Proof.
  induction e as [v|p|fn args IH|l fn args IHl IH] using Expr_nested_ind;
    intros H ctx s; cbn [ev]; try reflexivity.
  - unfold call. rewrite (H fn) by (cbn [calls]; now rewrite String.eqb_refl).
    destruct (lookup_fn reg2 fn) as [f|]; [|reflexivity].
    apply invoke_ext. intros e Hin.
    rewrite Forall_forall in IH. apply (IH e Hin).
    intros n Hn. apply H. cbn [calls]. apply orb_true_iff. right.
    apply existsb_exists. now exists e.
  - unfold call. rewrite (H fn) by (cbn [calls]; now rewrite String.eqb_refl).
    destruct (lookup_fn reg2 fn) as [f|]; [|reflexivity].
    apply invoke_ext. intros e [<-|Hin].
    + apply IHl. intros n Hn. apply H. cbn [calls]. rewrite Hn.
      now rewrite orb_true_r.
    + rewrite Forall_forall in IH. apply (IH e Hin).
      intros n Hn. apply H. cbn [calls]. apply orb_true_iff. right.
      apply existsb_exists. now exists e.
Qed.

Lemma rn_with_ext (f1 f2 : Node -> TemplateData -> M (State := State) string)
  (nodes : list Node) :
  (forall n, In n nodes -> forall ctx s, f1 n ctx s = f2 n ctx s) ->
  forall ctx s, rn_with f1 nodes ctx s = rn_with f2 nodes ctx s.
Proof.
  induction nodes as [|n rest IH]; intros H ctx s; [reflexivity|].
  cbn [rn_with]. apply bind_ext.
  - intros s0. apply H. now left.
  - intros v s0. apply bind_ext; [|reflexivity].
    intros s1. apply IH. intros n' Hin. apply H. now right.
Qed.

Lemma each_loop_ext (b1 b2 : TemplateData -> M (State := State) string)
  (ctx : TemplateData) (as_ : string) (idx : option string)
  (items : list Value) :
  (forall local s, b1 local s = b2 local s) ->
  forall i s,
    each_loop b1 ctx as_ idx i items s = each_loop b2 ctx as_ idx i items s.
Proof.
  intros H. induction items as [|x rest IH]; intros i s; [reflexivity|].
  cbn [each_loop]. apply bind_ext; [intros s0; apply H|].
  intros v s0. apply bind_ext; [|reflexivity]. intros s1. apply IH.
Qed.

Lemma branches_loop_ext (reg1 reg2 : Registry (State := State))
  (o1 o2 : list Node -> M (State := State) string) (ctx : TemplateData)
  (fb1 fb2 : M (State := State) string)
  (branches : list (Expr * list Node)) :
  (forall b, In b branches ->
     (forall s, ev reg1 (fst b) ctx s = ev reg2 (fst b) ctx s)
     /\ forall s, o1 (snd b) s = o2 (snd b) s) ->
  (forall s, fb1 s = fb2 s) ->
  forall s,
    branches_loop reg1 o1 ctx fb1 branches s
    = branches_loop reg2 o2 ctx fb2 branches s.
Proof.
  intros H Hfb. induction branches as [|[c b] rest IH]; intros s.
  - apply Hfb.
  - cbn [branches_loop].
    destruct (H (c, b) (or_introl eq_refl)) as [Hc Hb]. cbn [fst snd] in *.
    apply bind_ext; [exact Hc|].
    intros v s0. destruct (truthy v); [apply Hb|].
    apply IH. intros b' Hin. apply H. now right.
Qed.

(** Two tables that agree on the names a node calls render it alike. *)
Lemma rn_node_ext (reg1 reg2 : Registry (State := State)) (n : Node) :
  (forall name, node_calls name n = true ->
     lookup_fn reg1 name = lookup_fn reg2 name) ->
  forall ctx s, rn_node reg1 n ctx s = rn_node reg2 n ctx s.
Proof.
  induction n as [t|e raw|branches els IHb IHe|arr as_ idx body els IHb IHe]
    using Node_nested_ind; intros H ctx s; cbn [rn_node].
  - reflexivity.
  - apply bind_ext; [|reflexivity]. intros s0. apply ev_ext. exact H.
  - apply branches_loop_ext.
    + intros [c b] Hin. cbn [fst snd]. rewrite Forall_forall in IHb.
      pose proof (IHb (c, b) Hin) as Hbody. cbn [snd] in Hbody.
      rewrite Forall_forall in Hbody.
      assert (Hcalls : forall name,
                 calls name c || existsb (node_calls name) b = true ->
                 node_calls name (F branches els) = true).
      { intros name Hn. cbn [node_calls]. apply orb_true_iff. left.
        apply existsb_exists. exists (c, b). now split. }
      split.
      * intros s0. apply ev_ext. intros name Hn. apply H, Hcalls.
        now rewrite Hn.
      * intros s0. apply rn_with_ext. intros n' Hin' ctx' s'.
        apply (Hbody n' Hin'). intros name Hn. apply H, Hcalls.
        apply orb_true_iff. right. apply existsb_exists. now exists n'.
    + intros s0. destruct els as [e|]; [|reflexivity].
      apply rn_with_ext. intros n' Hin' ctx' s'.
      rewrite Forall_forall in IHe. apply (IHe n' Hin').
      intros name Hn. apply H. cbn [node_calls]. apply orb_true_iff. right.
      apply existsb_exists. now exists n'.
  - assert (Hbody : forall ctx' s',
               rn_with (rn_node reg1) body ctx' s'
               = rn_with (rn_node reg2) body ctx' s').
    { apply rn_with_ext. intros n' Hin' ctx' s'.
      rewrite Forall_forall in IHb. apply (IHb n' Hin').
      intros name Hn. apply H. cbn [node_calls].
      apply orb_true_iff. left. apply orb_true_iff. right.
      apply existsb_exists. now exists n'. }
    apply bind_ext.
    + intros s0. apply ev_ext. intros name Hn. apply H. cbn [node_calls].
      now rewrite Hn.
    + intros v s0. destruct v as [| | | | |items|]; try reflexivity.
      destruct items as [|x r], els as [e|];
        try (apply each_loop_ext; intros local s1; apply Hbody).
      apply rn_with_ext. intros n' Hin' ctx' s'.
      rewrite Forall_forall in IHe. apply (IHe n' Hin').
      intros name Hn. apply H. cbn [node_calls]. apply orb_true_iff. right.
      apply existsb_exists. now exists n'.
Qed.

Lemma lookup_fn_register_other (name n : string) (f : CustomFn)
  (reg : Registry (State := State)) :
  String.eqb name n = false ->
  lookup_fn (registerFunction name f reg) n = lookup_fn reg n.
Proof.
  intros Hne. unfold lookup_fn, registerFunction. cbn [assoc].
  now rewrite Hne.
Qed.

(** X15: registering a function under a name other than [__proto__]
    changes nothing for a template that does not call that name: the
    nodes render to the same output, with the same effect on the host
    state, under the table with and without the new entry.  A call of
    the registered name evaluates the arguments from left to right and
    hands the values to the function, also when the name was that of a
    built-in. *)
Theorem X15_register_function_frame (name : string) (f : CustomFn)
  (reg : Registry (State := State)) (nodes : list Node) :
  String.eqb name "__proto__" = false ->
  existsb (node_calls name) nodes = false ->
  (forall ctx s,
     rn (registerFunction name f reg) nodes ctx s = rn reg nodes ctx s)
  /\ (forall args ctx s,
        ev (registerFunction name f reg) (C name args) ctx s
        = bind (args_map (ev (registerFunction name f reg)) args ctx) f s).
Proof.
  intros _ Hno. split.
  - intros ctx s. unfold rn. apply rn_with_ext. intros n Hin ctx' s'.
    apply rn_node_ext. intros n' Hn'.
    apply lookup_fn_register_other.
    destruct (String.eqb name n') eqn:E; [|reflexivity].
    apply String.eqb_eq in E. subst n'.
    assert (Hex : existsb (node_calls name) nodes = true)
      by (apply existsb_exists; now exists n).
    congruence.
  - intros args ctx s. cbn [ev]. unfold call, lookup_fn, registerFunction.
    cbn [assoc]. rewrite String.eqb_refl. reflexivity.
Qed.

End Frame.

Lemma X15_witness :
  rn (host := RefHost.host)
    (registerFunction "shout" (fun _ => ret (VStr "!")) (fns (State := unit)))
    [I (P (V ["t"]) "uppercase" []) false] [("t", VStr "a")] tt
  = rn (host := RefHost.host) fns
      [I (P (V ["t"]) "uppercase" []) false] [("t", VStr "a")] tt
  /\ ev (host := RefHost.host)
       (registerFunction "shout" (fun _ => ret (VStr "!")) (fns (State := unit)))
       (C "shout" []) [] tt
     = (Some (VStr "!"), tt).
Proof.
  destruct (@X15_register_function_frame unit RefHost.host "shout"
              (fun _ => ret (VStr "!")) fns
              [I (P (V ["t"]) "uppercase" []) false] eq_refl eq_refl)
    as [H1 H2].
  split; [exact (H1 [("t", VStr "a")] tt) | exact (H2 [] [] tt)].
Defined.

(** ** Rendering with the built-ins only *)

Section Pure.

Context {State : Type}.
Context {host : Host}.

Lemma stateless_ret (A : Type) (a : A) : stateless (State := State) (ret a).
Proof. now exists (Some a). Qed.

Lemma stateless_throw (A : Type) : stateless (State := State) (@throw _ A).
Proof. now exists None. Qed.

Lemma stateless_liftO (A : Type) (o : option A) :
  stateless (State := State) (liftO o).
Proof. destruct o; [apply stateless_ret | apply stateless_throw]. Qed.

Lemma stateless_bind (A B : Type) (c : M (State := State) A)
  (k : A -> M (State := State) B) :
  stateless c -> (forall a, stateless (k a)) -> stateless (bind c k).
Proof.
  intros [[a|] Hr] Hk.
  - destruct (Hk a) as [r' Hr']. exists r'. intros s. unfold bind.
    rewrite Hr. apply Hr'.
  - exists None. intros s. unfold bind. now rewrite Hr.
Qed.

Lemma native_only_assoc (reg : Registry (State := State)) (name : string)
  (f : Fn) :
  native_only reg = true -> assoc name reg = Some f -> exists b, f = Native b.
Proof.
  induction reg as [|[k g] r IH]; intros Hn Ha; [discriminate|].
  cbn [native_only forallb] in Hn. apply andb_true_iff in Hn.
  destruct Hn as [Hg Hr]. cbn [assoc] in Ha.
  destruct (String.eqb k name).
  - injection Ha as <-. destruct g as [b|]; [now exists b | discriminate].
  - now apply IH.
Qed.

Section BuiltinsPure.

Variable ev0 : Expr -> TemplateData -> M (State := State) Value.

Lemma arg_stateless (a : list Expr) :
  (forall e, In e a -> forall ctx, stateless (ev0 e ctx)) ->
  forall i ctx, stateless (arg ev0 a i ctx).
Proof.
  induction a as [|e r IH]; intros H i ctx; [apply stateless_ret|].
  destruct i; cbn [arg].
  - apply H. now left.
  - apply IH. intros e' Hin. apply H. now right.
Qed.

Lemma logic_loop_stateless (stop_on : bool) (a : list Expr) :
  (forall e, In e a -> forall ctx, stateless (ev0 e ctx)) ->
  forall ctx r, stateless (logic_loop ev0 stop_on ctx r a).
Proof.
  induction a as [|e rest IH]; intros H ctx r; [apply stateless_ret|].
  cbn [logic_loop]. apply stateless_bind.
  - apply H. now left.
  - intros v. destruct (Bool.eqb (truthy v) stop_on); [apply stateless_ret|].
    apply IH. intros e' Hin. apply H. now right.
Qed.

Lemma str_arg_stateless (a : list Expr) :
  (forall e, In e a -> forall ctx, stateless (ev0 e ctx)) ->
  forall i ctx, stateless (str_arg ev0 a i ctx).
Proof.
  intros H i ctx. unfold str_arg. apply stateless_bind.
  - now apply arg_stateless.
  - intros v. apply stateless_liftO.
Qed.

Lemma builtin_stateless (b : Builtin) (a : list Expr) :
  (forall e, In e a -> forall ctx, stateless (ev0 e ctx)) ->
  forall ctx, stateless (builtin ev0 b ctx a).
Proof.
  intros H ctx.
  destruct b; cbn [builtin];
    unfold fn_and, fn_or, fn_truncate, fn_replace, fn_limit, fn_first,
      fn_last, fn_length, fn_join, fn_default, compare_with, checked;
    try (apply logic_loop_stateless; exact H);
    try match goal with |- context [ck a ?n ?f] => destruct (ck a n f) end;
    repeat first
      [ apply stateless_ret
      | apply stateless_liftO
      | apply arg_stateless; exact H
      | apply str_arg_stateless; exact H
      | apply stateless_bind; [|intros]
      | match goal with
        | |- context [match ?v with VUndef => _ | _ => _ end] => destruct v
        | |- context [if ?c then _ else _] => destruct c
        end ].
Qed.

End BuiltinsPure.

Lemma ev_stateless (reg : Registry (State := State)) (e : Expr) :
  native_only reg = true -> forall ctx, stateless (ev reg e ctx).
Proof.
  intros Hn.
  assert (Hcall : forall fn a,
             (forall e', In e' a -> forall ctx, stateless (ev reg e' ctx)) ->
             forall ctx, stateless (call (ev reg) reg fn ctx a)).
  { intros fn a H ctx. unfold call, lookup_fn.
    destruct (assoc fn reg) as [f|] eqn:Ea.
    - destruct (native_only_assoc _ _ Hn Ea) as [b ->]. cbn [invoke].
      now apply builtin_stateless.
    - destruct (String.eqb fn "constructor"); [apply stateless_ret|].
      destruct (String.eqb fn "toString"); [apply stateless_ret|].
      destruct (existsb (String.eqb fn) object_prototype_rest);
        [apply stateless_throw | apply stateless_ret]. }
  induction e as [v|p|fn args IH|l fn args IHl IH] using Expr_nested_ind;
    intros ctx; cbn [ev]; try apply stateless_ret.
  - apply Hcall. intros e' Hin. rewrite Forall_forall in IH. now apply IH.
  - apply Hcall. intros e' [<-|Hin]; [exact IHl|].
    rewrite Forall_forall in IH. now apply IH.
Qed.

Lemma rn_with_stateless (f : Node -> TemplateData -> M (State := State) string)
  (nodes : list Node) :
  (forall n, In n nodes -> forall ctx, stateless (f n ctx)) ->
  forall ctx, stateless (rn_with f nodes ctx).
Proof.
  induction nodes as [|n rest IH]; intros H ctx; [apply stateless_ret|].
  cbn [rn_with]. apply stateless_bind; [apply H; now left|].
  intros v. apply stateless_bind; [|intros; apply stateless_ret].
  apply IH. intros n' Hin. apply H. now right.
Qed.

Lemma each_loop_stateless (body : TemplateData -> M (State := State) string)
  (ctx : TemplateData) (as_ : string) (idx : option string)
  (items : list Value) :
  (forall local, stateless (body local)) ->
  forall i, stateless (each_loop body ctx as_ idx i items).
Proof.
  intros H. induction items as [|x rest IH]; intros i; [apply stateless_ret|].
  cbn [each_loop]. apply stateless_bind; [apply H|].
  intros v. apply stateless_bind; [apply IH | intros; apply stateless_ret].
Qed.

Lemma rn_node_stateless (reg : Registry (State := State)) (n : Node) :
  native_only reg = true -> forall ctx, stateless (rn_node reg n ctx).
Proof.
  intros Hn.
  induction n as [t|e raw|branches els IHb IHe|arr as_ idx body els IHb IHe]
    using Node_nested_ind; intros ctx; cbn [rn_node].
  - apply stateless_ret.
  - apply stateless_bind; [now apply ev_stateless|].
    intros v. destruct v; try apply stateless_ret;
      (apply stateless_bind; [|intros; apply stateless_ret]);
      cbn [nullish]; try apply stateless_ret; apply stateless_liftO.
  - assert (Hfb : stateless
               (match els with
                | Some e => rn_with (rn_node reg) e ctx
                | None => ret ""
                end)).
    { destruct els as [e|]; [|apply stateless_ret].
      apply rn_with_stateless. intros n' Hin.
      rewrite Forall_forall in IHe. now apply IHe. }
    induction branches as [|[c b] rest IHrest]; [exact Hfb|].
    cbn [branches_loop]. apply stateless_bind; [now apply ev_stateless|].
    intros v. destruct (truthy v).
    + apply rn_with_stateless. intros n' Hin.
      apply Forall_inv in IHb. cbn [snd] in IHb.
      rewrite Forall_forall in IHb. now apply IHb.
    + apply IHrest. now apply Forall_inv_tail in IHb.
  - assert (Hbody : forall local, stateless (rn_with (rn_node reg) body local)).
    { apply rn_with_stateless. intros n' Hin.
      rewrite Forall_forall in IHb. now apply IHb. }
    apply stateless_bind; [now apply ev_stateless|].
    intros v. destruct v as [| | | | |items|]; try apply stateless_ret.
    destruct items as [|x r], els as [e|];
      try (apply each_loop_stateless; exact Hbody).
    apply rn_with_stateless. intros n' Hin.
    rewrite Forall_forall in IHe. now apply IHe.
Qed.

(** X16: with a table that holds built-ins only, as the one the module
    creates, rendering neither reads nor changes the state of the host:
    from every state the nodes give the same outcome, a string or an
    exception, and leave the state as it was. *)
Theorem X16_builtins_are_pure (reg : Registry (State := State))
  (nodes : list Node) (ctx : TemplateData) :
  native_only reg = true ->
  exists outcome, forall s, rn reg nodes ctx s = (outcome, s).
Proof.
  intros Hn. apply (@rn_with_stateless (rn_node reg) nodes).
  intros n _. now apply rn_node_stateless.
Qed.

End Pure.

Lemma X16_witness :
  exists outcome, forall s : nat,
    rn (host := RefHost.host) fns
      [T "Hi "; I (P (V ["name"]) "uppercase" []) false]
      [("name", VStr "a")] s = (outcome, s).
Proof.
  exact (@X16_builtins_are_pure nat RefHost.host fns
           [T "Hi "; I (P (V ["name"]) "uppercase" []) false]
           [("name", VStr "a")] eq_refl).
Defined.

(** ** Tags and blocks, from the template to the output *)

Unset Implicit Arguments.

Lemma at_app (p r : string) : at_ p (p ++ r) = true.
Proof.
  induction p as [|a p IH]; [apply at_nil|].
  change (String a p ++ r) with (String a (p ++ r)).
  now rewrite at_cons, Ascii.eqb_refl.
Qed.

Lemma drop_str_app (p r : string) : drop_str (String.length p) (p ++ r) = r.
Proof. induction p as [|a p IH]; [now destruct r | exact IH]. Qed.

Lemma skip_app (p r : string) : skip p (p ++ r) = r.
Proof. unfold skip. now rewrite at_app, drop_str_app. Qed.

Lemma any_at_in (stops : list string) (p e : string) :
  In p stops -> at_ p e = true -> any_at stops e = true.
Proof. intros Hin Hat. apply existsb_exists. now exists p. Qed.

(** No stop sequence starts at a character that is not a brace. *)
Lemma any_at_plain (stops : list string) (c : ascii) (u : string) :
  forallb (starts "{") stops = true -> Ascii.eqb c "{" = false ->
  any_at stops (String c u) = false.
Proof.
  intros H Hc. unfold any_at.
  induction stops as [|p ps IH]; [reflexivity|].
  cbn [forallb] in H. apply andb_true_iff in H. destruct H as [Hp Hps].
  cbn [existsb]. rewrite (IH Hps), orb_false_r.
  destruct p as [|a p']; [discriminate|]. cbn [starts] in Hp.
  apply Ascii.eqb_eq in Hp. subst a.
  now rewrite at_cons, (Ascii.eqb_sym "{" c), Hc.
Qed.

Lemma plain_cons (c : ascii) (r : string) :
  plain (String c r) = true ->
  Ascii.eqb c "{" = false /\ Ascii.eqb c Chars.backslash = false
  /\ plain r = true.
Proof.
  cbn [plain]. intros H.
  apply andb_true_iff in H. destruct H as [H Hr].
  apply andb_true_iff in H. destruct H as [H1 H2].
  apply negb_true_iff in H1, H2. now repeat split.
Qed.

(** Plain text is read up to the tag or the stop sequence behind it. *)
Lemma scan_text_plain (stops : list string) (t e : string) :
  forallb (starts "{") stops = true -> plain t = true ->
  any_at stops e || at_ "\{{" e || at_ "{{" e = true ->
  scan_text stops (t ++ e) = (t, e).
Proof.
  intros Hs Ht He. induction t as [|c r IH].
  - destruct e as [|x e']; [reflexivity|].
    change ("" ++ String x e') with (String x e').
    cbn [scan_text]. now rewrite He.
  - destruct (plain_cons _ _ Ht) as (Hb & Hbs & Hr).
    change (String c r ++ e) with (String c (r ++ e)).
    cbn [scan_text].
    rewrite (any_at_plain _ _ _ Hs Hb), at_escape_cons, at_open, Hb.
    change Chars.backslash with "\"%char in Hbs. rewrite Hbs.
    cbn [andb orb]. now rewrite (IH Hr).
Qed.

Section Blocks.

Context {host : Host}.

Variable pn : list string -> string -> option (list Node * string).

Lemma parseLoop_at_stop (stops : list string) (k : nat) (e : string) :
  any_at stops e = true -> parseLoop parseExpr pn stops k e = Some ([], e).
Proof.
  intros H. destruct e as [|c r]; [now destruct k|].
  destruct k; cbn [parseLoop]; now rewrite H.
Qed.

(** The loop over plain text and what follows it. *)
Lemma parseLoop_text_then (stops : list string) (k : nat) (t e : string)
  (ns : list Node) (r : string) :
  forallb (starts "{") stops = true -> plain t = true ->
  any_at stops e || at_ "\{{" e || at_ "{{" e = true ->
  parseLoop parseExpr pn stops k e = Some (ns, r) ->
  parseLoop parseExpr pn stops (S k) (t ++ e) = Some ((text_nodes t ++ ns)%list, r).
Proof.
  intros Hs Ht He Hrest. destruct t as [|c u].
  - change ("" ++ e) with e. cbn [text_nodes String.eqb app].
    apply (parseLoop_mono parseExpr parseExpr pn pn
             (fun _ _ H => H) (fun _ _ _ H => H) stops e
             (Nat.le_succ_diag_r k) Hrest).
  - pose proof (scan_text_plain _ _ _ Hs Ht He) as Hscan.
    destruct (plain_cons _ _ Ht) as (Hb & Hbs & _).
    change Chars.backslash with "\"%char in Hbs.
    change (String c u ++ e) with (String c (u ++ e)) in *.
    rewrite parseLoop_S by discriminate.
    rewrite (any_at_plain _ _ _ Hs Hb). unfold parseStep.
    rewrite at_escape_cons, at_open, Hb, Hbs. cbn [andb].
    rewrite Hscan, Hrest. reflexivity.
Qed.

Lemma parseLoop_plain (stops : list string) (k : nat) (t e : string) :
  forallb (starts "{") stops = true -> plain t = true ->
  any_at stops e = true ->
  parseLoop parseExpr pn stops (S k) (t ++ e) = Some (text_nodes t, e).
Proof.
  intros Hs Ht He.
  rewrite (parseLoop_text_then stops k t e [] e Hs Ht).
  - now rewrite app_nil_r.
  - now rewrite He.
  - now apply parseLoop_at_stop.
Qed.

(** The loop at a tag. *)
Lemma parseLoop_tag (stops : list string) (k : nat) (body : string)
  (n : Node) (r : string) (ns : list Node) (r' : string) :
  any_at stops ("{{" ++ body) = false ->
  parseTag parseExpr pn k (skipWs body) = Some (n, r) ->
  parseLoop parseExpr pn stops k r = Some (ns, r') ->
  parseLoop parseExpr pn stops (S k) ("{{" ++ body) = Some (n :: ns, r').
Proof.
  intros Hany Htag Hrest.
  rewrite parseLoop_S by discriminate. rewrite Hany. unfold parseStep.
  assert (E1 : at_ "\{{" ("{{" ++ body) = false) by reflexivity.
  rewrite E1, (at_app "{{" body).
  change (drop_str 2 ("{{" ++ body)) with body.
  now rewrite Htag, Hrest.
Qed.

Lemma skipWs_name (name r : string) :
  variable_name name = true -> skipWs (name ++ r) = name ++ r.
Proof.
  intros Hname.
  destruct (@variable_name_inv name Hname) as (c & w & -> & Hc & _).
  destruct (word_char_plain c Hc) as (Hws & _).
  change (String c w ++ r) with (String c (w ++ r)).
  cbn [skipWs]. now rewrite Hws.
Qed.

(** The tag of a variable, with what follows it. *)
Lemma parseTag_variable (k : nat) (name tail : string) :
  variable_name name = true ->
  parseTag parseExpr pn k (name ++ " }}" ++ tail) = Some (I (V [name]) false, tail).
Proof.
  intros Hname. unfold parseTag.
  rewrite (@parseExpr_variable host name (" }}" ++ tail) Hname);
    try reflexivity.
  destruct (@variable_name_inv name Hname) as (c & w & -> & Hc & _).
  destruct (word_char_plain c Hc) as (_ & _ & _ & _ & _ & Hplus & Hhash).
  change (String c w ++ " }}" ++ tail)
    with (String c (w ++ " }}" ++ tail)).
  cbn [starts]. rewrite Hplus, Hhash.
  change (skipWs (" }}" ++ tail)) with ("}}" ++ tail).
  change (skipWs ("}}" ++ tail)) with ("}}" ++ tail).
  assert (E : scan_to_close ("}}" ++ tail) = "}}" ++ tail).
  { change ("}}" ++ tail) with (String "}" (String "}" tail)).
    cbn [scan_to_close].
    change (String "}" (String "}" tail)) with ("}}" ++ tail).
    now rewrite at_app. }
  now rewrite E, skip_app.
Qed.

(** The raw tag of a variable; the closing [+] may be left out. *)
Lemma parseTag_raw (k : nat) (name close : string) :
  variable_name name = true -> close = " +}}" \/ close = " }}" ->
  parseTag parseExpr pn k ("+ " ++ name ++ close) = Some (I (V [name]) true, "").
Proof.
  intros Hname Hclose. unfold parseTag.
  change (starts "+" ("+ " ++ name ++ close)) with true. cbv iota.
  change (skipWs (drop_str 1 ("+ " ++ name ++ close)))
    with (skipWs (name ++ close)).
  rewrite (skipWs_name _ _ Hname).
  destruct Hclose; subst close;
    (rewrite (@parseExpr_variable host name _ Hname); [|reflexivity..]);
    reflexivity.
Qed.

End Blocks.

Section BlockRendering.

Context {State : Type}.
Context {host : Host}.

Variable reg : Registry (State := State).

(** The nodes of a text render to the text, before what follows. *)
Lemma rn_with_text (t : string) (rest : list Node) (ctx : TemplateData)
  (s s' : State) (out : string) :
  rn_with (rn_node reg) rest ctx s = (Some out, s') ->
  rn_with (rn_node reg) (text_nodes t ++ rest)%list ctx s
  = (Some (t ++ out), s').
Proof.
  intros H. unfold text_nodes. destruct t as [|c r]; [exact H|].
  cbn [String.eqb app rn_with rn_node]. unfold bind, ret in *.
  now rewrite H.
Qed.

Lemma rn_with_text_only (t : string) (ctx : TemplateData) (s : State) :
  rn_with (rn_node reg) (text_nodes t) ctx s = (Some t, s).
Proof.
  pose proof (rn_with_text t [] ctx s s "" eq_refl) as H.
  now rewrite app_nil_r, append_empty_r in H.
Qed.

(** A variable tag in a context that binds the name to a string. *)
Lemma rn_node_variable (name v : string) (ctx : TemplateData) (s : State) :
  assoc name ctx = Some (VStr v) ->
  rn_node reg (I (V [name]) false) ctx s = (Some (esc v), s).
Proof.
  intros H. cbn [rn_node ev walk]. unfold bind, ret.
  cbn [nullish has get orb]. unfold owns. rewrite H. reflexivity.
Qed.

End BlockRendering.

Section BlockTemplates.

Context {host : Host}.

Lemma parse_of_fuel (fuel : nat) (tmpl : string) (ns : list Node) :
  fuel <= S (String.length tmpl) ->
  parseNodes_fuel fuel [] tmpl = Some (ns, "") ->
  parse tmpl = Some ns.
Proof.
  intros Hle H. unfold parse, parseNodes.
  now rewrite (parseNodes_fuel_mono [] tmpl Hle H).
Qed.

Lemma parseNodes_fuel_plain (fuel : nat) (stops : list string) (t e : string) :
  2 <= fuel -> forallb (starts "{") stops = true -> plain t = true ->
  any_at stops e = true ->
  parseNodes_fuel fuel stops (t ++ e) = Some (text_nodes t, e).
Proof.
  intros Hf Hs Ht He. destruct fuel as [|[|f]]; try lia.
  cbn [parseNodes_fuel]. now apply parseLoop_plain.
Qed.

(** X17: for every variable name, the tag [{{+ name +}}] is one raw
    Interpolation of the one-segment path, and so is the tag without
    the closing plus sign, [{{+ name }}].  It renders a string value as
    it is, with no HTML escaping. *)
Theorem X17_raw_tag (name : string) :
  variable_name name = true ->
  parse ("{{+ " ++ name ++ " +}}") = Some [I (V [name]) true]
  /\ parse ("{{+ " ++ name ++ " }}") = Some [I (V [name]) true]
  /\ forall (State : Type) (reg : Registry (State := State))
            (data : TemplateData) (s : State) (v : string),
       assoc name data = Some (VStr v) ->
       render reg ("{{+ " ++ name ++ " +}}") data s = Some (Some v, s).
Proof.
  intros Hname.
  assert (Hparse : forall close, close = " +}}" \/ close = " }}" ->
             parse ("{{+ " ++ name ++ close) = Some [I (V [name]) true]).
  { intros close Hclose.
    apply parse_of_fuel with (fuel := 3); [simpl; lia|].
    cbn [parseNodes_fuel].
    apply (@parseLoop_tag host (parseNodes_fuel 2) [] 1
             ("+ " ++ name ++ close) (I (V [name]) true) "" [] "");
      [reflexivity | | reflexivity].
    change (skipWs ("+ " ++ name ++ close)) with ("+ " ++ name ++ close).
    now apply parseTag_raw. }
  pose proof (Hparse " +}}" (or_introl eq_refl)) as P1.
  pose proof (Hparse " }}" (or_intror eq_refl)) as P2.
  split; [exact P1|]. split; [exact P2|].
  intros State reg data s v Hv. unfold render, compile. rewrite P1.
  cbn [rn rn_with rn_node ev walk]. unfold bind, ret.
  cbn [nullish has get orb]. unfold owns. rewrite Hv.
  cbn. now rewrite append_empty_r.
Qed.

(** X18: a block tag whose keyword is neither [if] nor [each] becomes
    the text of an error that names the keyword, and the template goes
    on behind the closing delimiter: the text that follows is rendered
    after the error. *)
Theorem X18_unknown_block (kw t : string) :
  all_word kw = true ->
  String.eqb kw "if" = false -> String.eqb kw "each" = false ->
  no_open t = true ->
  parse ("{{#" ++ kw ++ "}}" ++ t)
  = Some (T ("[Error: unknown #" ++ kw ++ "]") :: text_nodes t)
  /\ forall (State : Type) (reg : Registry (State := State))
            (data : TemplateData) (s : State),
       render reg ("{{#" ++ kw ++ "}}" ++ t) data s
       = Some (Some ("[Error: unknown #" ++ kw ++ "]" ++ t), s).
Proof.
  intros Hkw Hif Heach Ht.
  assert (P : parse ("{{#" ++ kw ++ "}}" ++ t)
              = Some (T ("[Error: unknown #" ++ kw ++ "]") :: text_nodes t)).
  { apply parse_of_fuel with (fuel := 3); [simpl; lia|].
    cbn [parseNodes_fuel].
    apply (@parseLoop_tag host (parseNodes_fuel 2) [] 1
             ("#" ++ kw ++ "}}" ++ t) _ t (text_nodes t) "");
      [reflexivity | | now apply parseLoop_text].
    change (skipWs ("#" ++ kw ++ "}}" ++ t)) with ("#" ++ kw ++ "}}" ++ t).
    unfold parseTag.
    change (starts "+" ("#" ++ kw ++ "}}" ++ t)) with false.
    change (starts "#" ("#" ++ kw ++ "}}" ++ t)) with true. cbv iota.
    change (drop_str 1 ("#" ++ kw ++ "}}" ++ t)) with (kw ++ "}}" ++ t).
    rewrite (ident_app kw ("}}" ++ t) Hkw) by reflexivity.
    rewrite Hif, Heach.
    change (skipWs (skipWs ("}}" ++ t))) with ("}}" ++ t).
    now rewrite skip_app. }
  split; [exact P|].
  intros State reg data s. unfold render, compile. rewrite P.
  unfold rn.
  change (T ("[Error: unknown #" ++ kw ++ "]") :: text_nodes t)
    with ([T ("[Error: unknown #" ++ kw ++ "]")] ++ text_nodes t)%list.
  cbn [app rn_with rn_node]. unfold bind, ret.
  rewrite rn_with_text_only. now rewrite !append_assoc.
Qed.

(** X19: an [if] block on a variable, with plain text in its two
    branches, parses to one Conditional of one branch and an else
    body, and renders the first text when the value of the variable is
    truthy and the second when it is not. *)
Theorem X19_if_else_block (c a b : string) :
  variable_name c = true -> plain a = true -> plain b = true ->
  parse ("{{#if " ++ c ++ "}}" ++ a ++ "{{:else}}" ++ b ++ "{{/if}}")
  = Some [F [(V [c], text_nodes a)] (Some (text_nodes b))]
  /\ forall (State : Type) (reg : Registry (State := State))
            (data : TemplateData) (s : State),
       render reg
         ("{{#if " ++ c ++ "}}" ++ a ++ "{{:else}}" ++ b ++ "{{/if}}") data s
       = Some (Some (if truthy (walk (VObj data) [c]) then a else b), s).
Proof.
  intros Hc Ha Hb.
  set (tmpl := "{{#if " ++ c ++ "}}" ++ a ++ "{{:else}}" ++ b ++ "{{/if}}").
  assert (P : parse tmpl = Some [F [(V [c], text_nodes a)] (Some (text_nodes b))]).
  { apply parse_of_fuel with (fuel := 3); [simpl; lia|].
    cbn [parseNodes_fuel].
    apply (@parseLoop_tag host (parseNodes_fuel 2) [] 1
             ("#if " ++ c ++ "}}" ++ a ++ "{{:else}}" ++ b ++ "{{/if}}")
             _ "" [] "");
      [reflexivity | | reflexivity].
    set (rest := a ++ "{{:else}}" ++ b ++ "{{/if}}").
    change (skipWs ("#if " ++ c ++ "}}" ++ rest))
      with ("#if " ++ c ++ "}}" ++ rest).
    unfold parseTag.
    change (starts "+" ("#if " ++ c ++ "}}" ++ rest)) with false.
    change (starts "#" ("#if " ++ c ++ "}}" ++ rest)) with true. cbv iota.
    change (ident (drop_str 1 ("#if " ++ c ++ "}}" ++ rest)))
      with ("if", " " ++ c ++ "}}" ++ rest).
    change (String.eqb "if" "if") with true. cbv iota.
    change (skipWs (" " ++ c ++ "}}" ++ rest)) with (skipWs (c ++ "}}" ++ rest)).
    rewrite (skipWs_name _ _ Hc).
    unfold parseIf.
    rewrite (@parseExpr_variable host c ("}}" ++ rest) Hc) by reflexivity.
    change (skipWs (skipWs ("}}" ++ rest))) with ("}}" ++ rest).
    rewrite skip_app. subst rest.
    rewrite (parseNodes_fuel_plain 2 stops_if a
               ("{{:else}}" ++ b ++ "{{/if}}") (le_n 2) eq_refl Ha)
      by (apply any_at_in with (p := "{{:else}}");
          [cbn; tauto | apply at_app]).
    assert (E1 : parseElseIfs parseExpr (parseNodes_fuel 2) 1
                   ("{{:else}}" ++ b ++ "{{/if}}")
                 = Some ([], "{{:else}}" ++ b ++ "{{/if}}")) by reflexivity.
    rewrite E1, (at_app "{{:else}}").
    change (drop_str 9 ("{{:else}}" ++ b ++ "{{/if}}")) with (b ++ "{{/if}}").
    rewrite (parseNodes_fuel_plain 2 ["{{/if}}"] b "{{/if}}"
               (le_n 2) eq_refl Hb eq_refl).
    reflexivity. }
  split; [exact P|].
  intros State reg data s. unfold render, compile. rewrite P.
  cbn [rn rn_with rn_node branches_loop ev]. unfold bind, ret.
  destruct (truthy (walk (VObj data) [c]));
    rewrite rn_with_text_only; now rewrite append_empty_r.
Qed.

Lemma concat_cons (x : string) (l : list string) :
  String.concat "" (x :: l) = x ++ String.concat "" l.
Proof. destruct l; [now rewrite append_empty_r | reflexivity]. Qed.

(** X20: an [each] block over a variable, with a tag for the item
    between two plain texts as its body, parses to one Loop without
    index and without else body; over an array of strings it renders,
    for every item in order, the first text, the HTML-escaped item and
    the second text. *)
Theorem X20_each_block (xs x a b : string) :
  variable_name xs = true -> variable_name x = true ->
  plain a = true -> plain b = true ->
  parse ("{{#each " ++ xs ++ " as " ++ x ++ "}}"
         ++ a ++ "{{ " ++ x ++ " }}" ++ b ++ "{{/each}}")
  = Some [E (V [xs]) x None
            (text_nodes a ++ I (V [x]) false :: text_nodes b)%list None]
  /\ forall (State : Type) (reg : Registry (State := State))
            (data : TemplateData) (s : State) (items : list string),
       assoc xs data = Some (VArr (map VStr items)) ->
       render reg
         ("{{#each " ++ xs ++ " as " ++ x ++ "}}"
          ++ a ++ "{{ " ++ x ++ " }}" ++ b ++ "{{/each}}") data s
       = Some (Some (String.concat ""
                       (map (fun v => a ++ esc v ++ b) items)), s).
Proof.
  intros Hxs Hx Ha Hb.
  set (body := (text_nodes a ++ I (V [x]) false :: text_nodes b)%list).
  set (tmpl := "{{#each " ++ xs ++ " as " ++ x ++ "}}"
               ++ a ++ "{{ " ++ x ++ " }}" ++ b ++ "{{/each}}").
  assert (P : parse tmpl = Some [E (V [xs]) x None body None]).
  { apply parse_of_fuel with (fuel := 5); [simpl; lia|].
    change (parseNodes_fuel 5 [] tmpl)
      with (parseLoop parseExpr (parseNodes_fuel 4) [] 4 tmpl).
    set (inner := a ++ "{{ " ++ x ++ " }}" ++ b ++ "{{/each}}").
    apply (@parseLoop_tag host (parseNodes_fuel 4) [] 3
             ("#each " ++ xs ++ " as " ++ x ++ "}}" ++ inner) _ "" [] "");
      [reflexivity | | reflexivity].
    change (skipWs ("#each " ++ xs ++ " as " ++ x ++ "}}" ++ inner))
      with ("#each " ++ xs ++ " as " ++ x ++ "}}" ++ inner).
    unfold parseTag.
    change (starts "+" ("#each " ++ xs ++ " as " ++ x ++ "}}" ++ inner))
      with false.
    change (starts "#" ("#each " ++ xs ++ " as " ++ x ++ "}}" ++ inner))
      with true. cbv iota.
    change (ident (drop_str 1 ("#each " ++ xs ++ " as " ++ x ++ "}}" ++ inner)))
      with ("each", " " ++ xs ++ " as " ++ x ++ "}}" ++ inner).
    change (String.eqb "each" "if") with false.
    change (String.eqb "each" "each") with true. cbv iota.
    change (skipWs (" " ++ xs ++ " as " ++ x ++ "}}" ++ inner))
      with (skipWs (xs ++ " as " ++ x ++ "}}" ++ inner)).
    rewrite (skipWs_name _ _ Hxs).
    unfold parseEach.
    rewrite (@parseExpr_variable host xs (" as " ++ x ++ "}}" ++ inner) Hxs)
      by reflexivity.
    change (ident (skipWs (skipWs (" as " ++ x ++ "}}" ++ inner))))
      with ("as", " " ++ x ++ "}}" ++ inner).
    change (negb (String.eqb "as" "as")) with false. cbv iota.
    change (skipWs (" " ++ x ++ "}}" ++ inner))
      with (skipWs (x ++ "}}" ++ inner)).
    rewrite (skipWs_name _ _ Hx).
    destruct (@variable_name_inv x Hx) as (c0 & w0 & Ex & _ & Hall & _).
    rewrite (ident_app x ("}}" ++ inner) Hall) by reflexivity.
    change (skipWs ("}}" ++ inner)) with ("}}" ++ inner).
    change (starts "," ("}}" ++ inner)) with false. cbv iota.
    rewrite skip_app.
    assert (Hbody : parseNodes_fuel 4 stops_each inner
                    = Some (body, "{{/each}}")).
    { cbn [parseNodes_fuel]. subst inner body.
      apply parseLoop_text_then; [reflexivity | exact Ha | |].
      - change ("{{ " ++ x ++ " }}" ++ b ++ "{{/each}}")
          with ("{{" ++ " " ++ x ++ " }}" ++ b ++ "{{/each}}").
        now rewrite (at_app "{{"), orb_true_r.
      - apply (@parseLoop_tag host _ stops_each 1
                 (" " ++ x ++ " }}" ++ b ++ "{{/each}}")
                 (I (V [x]) false) (b ++ "{{/each}}")
                 (text_nodes b) "{{/each}}").
        + reflexivity.
        + change (skipWs (" " ++ x ++ " }}" ++ b ++ "{{/each}}"))
            with (skipWs (x ++ " }}" ++ b ++ "{{/each}}")).
          rewrite (skipWs_name _ _ Hx). now apply parseTag_variable.
        + now apply parseLoop_plain. }
    rewrite Hbody. reflexivity. }
  split; [exact P|].
  intros State reg data s items Hitems. unfold render, compile. rewrite P.
  cbn [rn rn_with rn_node ev walk]. unfold bind, ret.
  cbn [nullish has get orb]. unfold owns. rewrite Hitems. cbn [negb].
  assert (Hloop : forall l i,
             each_loop (fun local => rn_with (rn_node reg) body local)
               data x None i (map VStr l) s
             = (Some (String.concat "" (map (fun v => a ++ esc v ++ b) l)), s)).
  { induction l as [|v l IH]; intros i; [reflexivity|].
    cbn [map]. rewrite concat_cons. cbn [each_loop]. unfold bind, ret.
    assert (Hitem : rn_with (rn_node reg) body
                      (local_ctx data x None (VStr v) i) s
                    = (Some (a ++ esc v ++ b), s)).
    { subst body. apply rn_with_text. cbn [rn_with]. unfold bind, ret.
      rewrite (@rn_node_variable State host reg x v); 
        [|apply local_ctx_item; discriminate].
      now rewrite rn_with_text_only. }
    now rewrite Hitem, IH, append_assoc, append_assoc. }
  cbn [get]. 
  destruct items as [|v l].
  - reflexivity.
  - pose proof (Hloop (v :: l) 0) as H. cbn [map] in *.
    rewrite H. now rewrite append_empty_r.
Qed.

End BlockTemplates.

Lemma X17_witness :
  parse (host := RefHost.host) "{{+ body +}}" = Some [I (V ["body"]) true]
  /\ parse (host := RefHost.host) "{{+ body }}" = Some [I (V ["body"]) true]
  /\ render (host := RefHost.host) (fns (State := unit)) "{{+ body +}}"
       [("body", VStr "<b>x</b>")] tt
     = Some (Some "<b>x</b>", tt).
Proof.
  destruct (@X17_raw_tag RefHost.host "body" eq_refl) as (H1 & H2 & H3).
  split; [exact H1|]. split; [exact H2|].
  exact (H3 unit fns [("body", VStr "<b>x</b>")] tt "<b>x</b>" eq_refl).
Defined.

Lemma X18_witness :
  parse (host := RefHost.host) "{{#with}} done"
  = Some [T "[Error: unknown #with]"; T " done"]
  /\ render (host := RefHost.host) (fns (State := unit)) "{{#with}} done" [] tt
     = Some (Some "[Error: unknown #with] done", tt).
Proof.
  destruct (@X18_unknown_block RefHost.host "with" " done"
              eq_refl eq_refl eq_refl eq_refl) as (H1 & H2).
  split; [exact H1 | exact (H2 unit fns [] tt)].
Defined.

Lemma X19_witness :
  parse (host := RefHost.host) "{{#if ok}}yes{{:else}}no{{/if}}"
  = Some [F [(V ["ok"], [T "yes"])] (Some [T "no"])]
  /\ render (host := RefHost.host) (fns (State := unit))
       "{{#if ok}}yes{{:else}}no{{/if}}" [("ok", VArr [])] tt
     = Some (Some "no", tt).
Proof.
  destruct (@X19_if_else_block RefHost.host "ok" "yes" "no"
              eq_refl eq_refl eq_refl) as (H1 & H2).
  split; [exact H1 | exact (H2 unit fns [("ok", VArr [])] tt)].
Defined.

Lemma X20_witness :
  parse (host := RefHost.host) "{{#each items as it}}<li>{{ it }}</li>{{/each}}"
  = Some [E (V ["items"]) "it" None
            [T "<li>"; I (V ["it"]) false; T "</li>"] None]
  /\ render (host := RefHost.host) (fns (State := unit))
       "{{#each items as it}}<li>{{ it }}</li>{{/each}}"
       [("items", VArr [VStr "a"; VStr "<"])] tt
     = Some (Some "<li>a</li><li>&lt;</li>", tt).
Proof.
  destruct (@X20_each_block RefHost.host "items" "it" "<li>" "</li>"
              eq_refl eq_refl eq_refl eq_refl) as (H1 & H2).
  split; [exact H1|].
  exact (H2 unit fns [("items", VArr [VStr "a"; VStr "<"])] tt ["a"; "<"]
           eq_refl).
Defined.

(** ** Pipes and calls *)

Lemma word_char_not_bracket (c : ascii) :
  Chars.isWord c = true ->
  Ascii.eqb c ")" = false /\ Ascii.eqb c "}" = false.
Proof.
  destruct c as [[] [] [] [] [] [] [] []]; vm_compute; intros H;
    try discriminate H; now split.
Qed.

Section PipeAndCall.

Context {host : Host}.

(** The first part of the expression at a name that no call and no
    path follows. *)
Lemma parseBase_variable (pe : string -> option (Expr * string)) (k : nat)
  (name rest : string) :
  variable_name name = true ->
  match rest with
  | String c _ => Chars.isWord c = false
  | EmptyString => True
  end ->
  starts "(" (skipWs rest) = false ->
  starts "." (skipWs rest) = false ->
  parseBase pe k (name ++ rest) = Some (V [name], skipWs rest).
Proof.
  intros Hname Hrest Hparen Hpath.
  destruct (variable_name_inv name Hname)
    as (c & w & -> & Hc & Hall & Hdigit & Htrue & Hfalse & Hnull).
  destruct (word_char_plain c Hc) as (Hws & Hdq & Hsq & Hminus & Hdot & _).
  unfold parseBase. rewrite (ident_app _ _ Hall Hrest).
  change (String c w ++ rest) with (String c (w ++ rest)).
  cbn [starts]. rewrite Hdq, Hsq. cbn [orb].
  unfold Chars.isNumStart. rewrite Hminus, Hdot, Hdigit. cbn [orb].
  rewrite Htrue, Hfalse, Hnull, Hparen.
  now rewrite (parsePath_no_dot _ _ Hpath).
Qed.

Lemma length_name (name : string) :
  variable_name name = true -> 1 <= String.length name.
Proof.
  intros H. destruct (variable_name_inv name H) as (c & w & -> & _).
  simpl. lia.
Qed.

(** The expression [x | f] *)
Lemma parseExpr_pipe (x f : string) :
  variable_name x = true -> variable_name f = true ->
  parseExpr (x ++ " | " ++ f ++ " }}") = Some (P (V [x]) f [], "}}").
Proof.
  intros Hx Hf. unfold parseExpr. cbn [parseExpr_fuel].
  rewrite (skipWs_name _ _ Hx).
  rewrite (parseBase_variable _ _ x (" | " ++ f ++ " }}") Hx)
    by reflexivity.
  change (skipWs (skipWs (" | " ++ f ++ " }}"))) with ("| " ++ f ++ " }}").
  assert (Hlen : String.length (x ++ " | " ++ f ++ " }}")
                 = S (String.length x + 2 + String.length f + 3)).
  { rewrite !length_append. simpl. lia. }
  rewrite Hlen. cbn [parsePipes].
  change (starts "|" ("| " ++ f ++ " }}")) with true. cbv iota.
  change (skipWs (drop_str 1 ("| " ++ f ++ " }}")))
    with (skipWs (f ++ " }}")).
  rewrite (skipWs_name _ _ Hf).
  destruct (variable_name_inv f Hf) as (c & w & Ef & _ & Hall & _).
  rewrite (ident_app f " }}" Hall) by reflexivity.
  change (skipWs " }}") with "}}".
  change (starts "(" "}}") with false. cbv iota.
  change (skipWs "}}") with "}}".
  rewrite parsePipes_no_pipe by reflexivity.
  pose proof (length_name _ Hx).
  assert (E : (String.length "}}"
               =? S (String.length x + 2 + String.length f + 3))%nat = false)
    by (apply Nat.eqb_neq; simpl; lia).
  now rewrite E.
Qed.

(** The expression [f(x)] *)
Lemma parseExpr_call (x f : string) :
  variable_name x = true -> variable_name f = true ->
  parseExpr (f ++ "(" ++ x ++ ") }}") = Some (C f [V [x]], "}}").
Proof.
  intros Hx Hf. unfold parseExpr. cbn [parseExpr_fuel].
  rewrite (skipWs_name _ _ Hf).
  pose proof (length_name _ Hf) as Lf.
  set (n := String.length (f ++ "(" ++ x ++ ") }}")).
  assert (Hn : n = S (String.length f + String.length x + 4)).
  { subst n. rewrite !length_append. simpl. lia. }
  assert (Harg : parseExpr_fuel n (x ++ ") }}") = Some (V [x], ") }}")).
  { apply parseExpr_fuel_mono with (fuel := S (String.length (x ++ ") }}"))).
    - rewrite Hn, length_append. simpl. lia.
    - apply (parseExpr_variable x ") }}" Hx); reflexivity. }
  assert (Hbase : parseBase (parseExpr_fuel n) n (f ++ "(" ++ x ++ ") }}")
                  = Some (C f [V [x]], " }}")).
  { destruct (variable_name_inv f Hf)
      as (c & w & Ef & Hc & Hall & Hdigit & Htrue & Hfalse & Hnull).
    destruct (word_char_plain c Hc) as (Hws & Hdq & Hsq & Hminus & Hdot & _).
    unfold parseBase.
    rewrite (ident_app f ("(" ++ x ++ ") }}") Hall) by reflexivity.
    rewrite Ef in *.
    change (String c w ++ "(" ++ x ++ ") }}")
      with (String c (w ++ "(" ++ x ++ ") }}")).
    cbn [starts]. rewrite Hdq, Hsq. cbn [orb].
    unfold Chars.isNumStart. rewrite Hminus, Hdot, Hdigit. cbn [orb].
    rewrite Htrue, Hfalse, Hnull.
    change (skipWs ("(" ++ x ++ ") }}")) with ("(" ++ x ++ ") }}").
    change (starts "(" ("(" ++ x ++ ") }}")) with true. cbv iota.
    change (drop_str 1 ("(" ++ x ++ ") }}")) with (x ++ ") }}").
    unfold parseParens. rewrite (skipWs_name _ _ Hx).
    rewrite Hn at 2.
    destruct (variable_name_inv x Hx) as (d & u & Ex & Hd & _).
    destruct (word_char_not_bracket d Hd) as (Hclose & Hbrace).
    assert (Hargs : forall k,
               parseArgs (parseExpr_fuel n) (S k) (x ++ ") }}")
               = Some ([V [x]], ") }}")).
    { intros k. rewrite Ex.
      change (String d u ++ ") }}") with (String d (u ++ ") }}")).
      cbn [parseArgs]. rewrite Hclose, Hbrace. cbn [orb].
      change (String d (u ++ ") }}")) with (String d u ++ ") }}").
      rewrite <- Ex, Harg.
      change (skipWs ") }}") with ") }}".
      change (starts "," ") }}") with false. cbv iota.
      now destruct k. }
    rewrite Hargs. reflexivity. }
  rewrite Hbase. change (skipWs " }}") with "}}".
  rewrite parsePipes_no_pipe by reflexivity.
  assert (E : (String.length "}}" =? n)%nat = false)
    by (apply Nat.eqb_neq; rewrite Hn; simpl; lia).
  now rewrite E.
Qed.

(** X21: a pipe is read as the call it stands for.  For a variable [x]
    and a function name [f], the tag [{{ x | f }}] parses to a Pipe and
    the tag [{{ f(x) }}] to a Call with the variable as the only
    argument, and the two templates render alike with every table of
    functions, from every data and every host state. *)
Theorem X21_pipe_and_call (x f : string) :
  variable_name x = true -> variable_name f = true ->
  parse ("{{ " ++ x ++ " | " ++ f ++ " }}") = Some [I (P (V [x]) f []) false]
  /\ parse ("{{ " ++ f ++ "(" ++ x ++ ") }}") = Some [I (C f [V [x]]) false]
  /\ forall (State : Type) (reg : Registry (State := State))
            (data : TemplateData) (s : State),
       render reg ("{{ " ++ x ++ " | " ++ f ++ " }}") data s
       = render reg ("{{ " ++ f ++ "(" ++ x ++ ") }}") data s.
Proof.
  intros Hx Hf.
  assert (Htag : forall pn k name tail e,
             variable_name name = true ->
             parseExpr (name ++ tail) = Some (e, "}}") ->
             parseTag parseExpr pn k (name ++ tail) = Some (I e false, "")).
  { intros pn k name tail e Hname He. unfold parseTag. rewrite He.
    destruct (variable_name_inv name Hname) as (c & w & -> & Hc & _).
    destruct (word_char_plain c Hc) as (_ & _ & _ & _ & _ & Hplus & Hhash).
    change (String c w ++ tail) with (String c (w ++ tail)).
    cbn [starts]. now rewrite Hplus, Hhash. }
  assert (Hparse : forall name tail e,
             variable_name name = true ->
             parseExpr (name ++ tail) = Some (e, "}}") ->
             parse ("{{ " ++ name ++ tail) = Some [I e false]).
  { intros name tail e Hname He.
    apply parse_of_fuel with (fuel := 3); [simpl; lia|].
    cbn [parseNodes_fuel].
    apply (@parseLoop_tag host (parseNodes_fuel 2) [] 1
             (" " ++ name ++ tail) (I e false) "" [] "");
      [reflexivity | | reflexivity].
    change (skipWs (" " ++ name ++ tail)) with (skipWs (name ++ tail)).
    rewrite (skipWs_name _ _ Hname). now apply Htag. }
  pose proof (Hparse x (" | " ++ f ++ " }}") _ Hx (parseExpr_pipe x f Hx Hf))
    as P1.
  pose proof (Hparse f ("(" ++ x ++ ") }}") _ Hf (parseExpr_call x f Hx Hf))
    as P2.
  split; [exact P1|]. split; [exact P2|].
  intros State reg data s. unfold render, compile.
  now rewrite P1, P2.
Qed.

End PipeAndCall.

Lemma X21_witness :
  parse (host := RefHost.host) "{{ title | uppercase }}"
  = Some [I (P (V ["title"]) "uppercase" []) false]
  /\ parse (host := RefHost.host) "{{ uppercase(title) }}"
     = Some [I (C "uppercase" [V ["title"]]) false]
  /\ render (host := RefHost.host) (fns (State := unit))
       "{{ title | uppercase }}" [("title", VStr "a")] tt
     = render (host := RefHost.host) (fns (State := unit))
         "{{ uppercase(title) }}" [("title", VStr "a")] tt.
Proof.
  destruct (@X21_pipe_and_call RefHost.host "title" "uppercase"
              eq_refl eq_refl) as (H1 & H2 & H3).
  split; [exact H1|]. split; [exact H2|].
  exact (H3 unit fns [("title", VStr "a")] tt).
Defined.

(** ** Chains of branches, else bodies and number literals *)

Section MoreBlocks.

Context {host : Host}.

(** X22: an [if] block with one more branch, written [{{:else if d}}]
    or [{{:elseif d}}], parses to one Conditional of two branches and
    no else body, the same for the two spellings.  It renders the first
    text when the first variable is truthy, else the second text when
    the second variable is truthy, else nothing. *)
Theorem X22_else_if_chain (c d a b : string) :
  variable_name c = true -> variable_name d = true ->
  plain a = true -> plain b = true ->
  parse ("{{#if " ++ c ++ "}}" ++ a ++ "{{:else if " ++ d ++ "}}" ++ b
         ++ "{{/if}}")
  = Some [F [(V [c], text_nodes a); (V [d], text_nodes b)] None]
  /\ parse ("{{#if " ++ c ++ "}}" ++ a ++ "{{:elseif " ++ d ++ "}}" ++ b
            ++ "{{/if}}")
     = Some [F [(V [c], text_nodes a); (V [d], text_nodes b)] None]
  /\ forall (State : Type) (reg : Registry (State := State))
            (data : TemplateData) (s : State),
       render reg
         ("{{#if " ++ c ++ "}}" ++ a ++ "{{:else if " ++ d ++ "}}" ++ b
          ++ "{{/if}}") data s
       = Some (Some (if truthy (walk (VObj data) [c]) then a
                     else if truthy (walk (VObj data) [d]) then b
                     else ""), s).
Proof.
  intros Hc Hd Ha Hb.
  assert (Hparse : forall kw n,
             (kw = "{{:else if" /\ n = 10) \/ (kw = "{{:elseif" /\ n = 9) ->
             parse ("{{#if " ++ c ++ "}}" ++ a ++ kw ++ " " ++ d ++ "}}" ++ b
                    ++ "{{/if}}")
             = Some [F [(V [c], text_nodes a); (V [d], text_nodes b)] None]).
  { intros kw n Hkw.
    apply parse_of_fuel with (fuel := 3); [simpl; lia|].
    cbn [parseNodes_fuel].
    set (more := kw ++ " " ++ d ++ "}}" ++ b ++ "{{/if}}").
    apply (@parseLoop_tag host (parseNodes_fuel 2) [] 1
             ("#if " ++ c ++ "}}" ++ a ++ more) _ "" [] "");
      [reflexivity | | reflexivity].
    change (skipWs ("#if " ++ c ++ "}}" ++ a ++ more))
      with ("#if " ++ c ++ "}}" ++ a ++ more).
    unfold parseTag.
    change (starts "+" ("#if " ++ c ++ "}}" ++ a ++ more)) with false.
    change (starts "#" ("#if " ++ c ++ "}}" ++ a ++ more)) with true.
    cbv iota.
    change (ident (drop_str 1 ("#if " ++ c ++ "}}" ++ a ++ more)))
      with ("if", " " ++ c ++ "}}" ++ a ++ more).
    change (String.eqb "if" "if") with true. cbv iota.
    change (skipWs (" " ++ c ++ "}}" ++ a ++ more))
      with (skipWs (c ++ "}}" ++ a ++ more)).
    rewrite (skipWs_name _ _ Hc).
    unfold parseIf.
    rewrite (parseExpr_variable c ("}}" ++ a ++ more) Hc) by reflexivity.
    change (skipWs (skipWs ("}}" ++ a ++ more))) with ("}}" ++ a ++ more).
    rewrite skip_app.
    assert (Hstop : any_at stops_if more = true).
    { subst more. destruct Hkw as [[-> _]|[-> _]].
      - apply any_at_in with (p := "{{:else if"); [cbn; tauto | apply at_app].
      - apply any_at_in with (p := "{{:elseif"); [cbn; tauto | apply at_app]. }
    rewrite (parseNodes_fuel_plain 2 stops_if a more (le_n 2) eq_refl Ha Hstop).
    assert (Hmore : parseElseIfs parseExpr (parseNodes_fuel 2) 1 more
                    = Some ([(V [d], text_nodes b)], "{{/if}}")).
    { cbn [parseElseIfs].
      assert (Hat : at_ "{{:else if" more || at_ "{{:elseif" more = true).
      { subst more. destruct Hkw as [[-> _]|[-> _]].
        - now rewrite (at_app "{{:else if").
        - rewrite (at_app "{{:elseif"). apply orb_true_r. }
      rewrite Hat.
      assert (Hdrop : skipWs (drop_str (if at_ "{{:elseif" more then 9 else 10)
                                more)
                      = d ++ "}}" ++ b ++ "{{/if}}").
      { subst more. destruct Hkw as [[-> _]|[-> _]].
        - change (at_ "{{:elseif"
                    ("{{:else if" ++ " " ++ d ++ "}}" ++ b ++ "{{/if}}"))
            with false. cbv iota.
          change (drop_str 10
                    ("{{:else if" ++ " " ++ d ++ "}}" ++ b ++ "{{/if}}"))
            with (" " ++ d ++ "}}" ++ b ++ "{{/if}}").
          change (skipWs (" " ++ d ++ "}}" ++ b ++ "{{/if}}"))
            with (skipWs (d ++ "}}" ++ b ++ "{{/if}}")).
          apply (skipWs_name _ _ Hd).
        - rewrite (at_app "{{:elseif").
          change (drop_str 9
                    ("{{:elseif" ++ " " ++ d ++ "}}" ++ b ++ "{{/if}}"))
            with (" " ++ d ++ "}}" ++ b ++ "{{/if}}").
          change (skipWs (" " ++ d ++ "}}" ++ b ++ "{{/if}}"))
            with (skipWs (d ++ "}}" ++ b ++ "{{/if}}")).
          apply (skipWs_name _ _ Hd). }
      rewrite Hdrop.
      rewrite (parseExpr_variable d ("}}" ++ b ++ "{{/if}}") Hd)
        by reflexivity.
      change (skipWs (skipWs ("}}" ++ b ++ "{{/if}}")))
        with ("}}" ++ b ++ "{{/if}}").
      rewrite skip_app.
      rewrite (parseNodes_fuel_plain 2 stops_if b "{{/if}}"
                 (le_n 2) eq_refl Hb eq_refl).
      reflexivity. }
    rewrite Hmore. reflexivity. }
  pose proof (Hparse "{{:else if" 10 (or_introl (conj eq_refl eq_refl))) as P1.
  pose proof (Hparse "{{:elseif" 9 (or_intror (conj eq_refl eq_refl))) as P2.
  split; [exact P1|]. split; [exact P2|].
  intros State reg data s. unfold render, compile.
  change ("{{#if " ++ c ++ "}}" ++ a ++ "{{:else if " ++ d ++ "}}" ++ b
          ++ "{{/if}}")
    with ("{{#if " ++ c ++ "}}" ++ a ++ "{{:else if" ++ " " ++ d ++ "}}" ++ b
          ++ "{{/if}}").
  rewrite P1.
  cbn [rn rn_with rn_node branches_loop ev]. unfold bind, ret.
  destruct (truthy (walk (VObj data) [c]));
    [rewrite rn_with_text_only; now rewrite append_empty_r|].
  destruct (truthy (walk (VObj data) [d]));
    [rewrite rn_with_text_only; now rewrite append_empty_r|].
  reflexivity.
Qed.

(** X23: an [each] block with an else body.  Over an empty array the
    else body is rendered; over an array with items the body is
    rendered once for every item; over anything that is not an array,
    a missing variable included, the error text is rendered and the
    else body is not. *)
Theorem X23_each_else (xs x a b : string) :
  variable_name xs = true -> variable_name x = true ->
  plain a = true -> plain b = true ->
  parse ("{{#each " ++ xs ++ " as " ++ x ++ "}}" ++ a ++ "{{:else}}" ++ b
         ++ "{{/each}}")
  = Some [E (V [xs]) x None (text_nodes a) (Some (text_nodes b))]
  /\ forall (State : Type) (reg : Registry (State := State))
            (data : TemplateData) (s : State),
       render reg
         ("{{#each " ++ xs ++ " as " ++ x ++ "}}" ++ a ++ "{{:else}}" ++ b
          ++ "{{/each}}") data s
       = Some (Some match walk (VObj data) [xs] with
                    | VArr [] => b
                    | VArr items => String.concat "" (map (fun _ => a) items)
                    | _ => "[Error: #each needs array]"
                    end, s).
Proof.
  intros Hxs Hx Ha Hb.
  set (tmpl := "{{#each " ++ xs ++ " as " ++ x ++ "}}" ++ a ++ "{{:else}}"
               ++ b ++ "{{/each}}").
  assert (P : parse tmpl
              = Some [E (V [xs]) x None (text_nodes a) (Some (text_nodes b))]).
  { apply parse_of_fuel with (fuel := 3); [simpl; lia|].
    change (parseNodes_fuel 3 [] tmpl)
      with (parseLoop parseExpr (parseNodes_fuel 2) [] 2 tmpl).
    set (inner := a ++ "{{:else}}" ++ b ++ "{{/each}}").
    apply (@parseLoop_tag host (parseNodes_fuel 2) [] 1
             ("#each " ++ xs ++ " as " ++ x ++ "}}" ++ inner) _ "" [] "");
      [reflexivity | | reflexivity].
    change (skipWs ("#each " ++ xs ++ " as " ++ x ++ "}}" ++ inner))
      with ("#each " ++ xs ++ " as " ++ x ++ "}}" ++ inner).
    unfold parseTag.
    change (starts "+" ("#each " ++ xs ++ " as " ++ x ++ "}}" ++ inner))
      with false.
    change (starts "#" ("#each " ++ xs ++ " as " ++ x ++ "}}" ++ inner))
      with true. cbv iota.
    change (ident (drop_str 1 ("#each " ++ xs ++ " as " ++ x ++ "}}" ++ inner)))
      with ("each", " " ++ xs ++ " as " ++ x ++ "}}" ++ inner).
    cbv iota.
    change (String.eqb "each" "if") with false.
    change (String.eqb "each" "each") with true. cbv iota.
    change (skipWs (" " ++ xs ++ " as " ++ x ++ "}}" ++ inner))
      with (skipWs (xs ++ " as " ++ x ++ "}}" ++ inner)).
    rewrite (skipWs_name _ _ Hxs).
    unfold parseEach.
    rewrite (parseExpr_variable xs (" as " ++ x ++ "}}" ++ inner) Hxs)
      by reflexivity.
    change (ident (skipWs (skipWs (" as " ++ x ++ "}}" ++ inner))))
      with ("as", " " ++ x ++ "}}" ++ inner).
    cbv iota.
    change (negb (String.eqb "as" "as")) with false. cbv iota.
    change (skipWs (" " ++ x ++ "}}" ++ inner))
      with (skipWs (x ++ "}}" ++ inner)).
    rewrite (skipWs_name _ _ Hx).
    destruct (variable_name_inv x Hx) as (c0 & w0 & Ex & _ & Hall & _).
    rewrite (ident_app x ("}}" ++ inner) Hall) by reflexivity.
    change (skipWs ("}}" ++ inner)) with ("}}" ++ inner).
    change (starts "," ("}}" ++ inner)) with false. cbv iota.
    rewrite skip_app. subst inner.
    rewrite (parseNodes_fuel_plain 2 stops_each a
               ("{{:else}}" ++ b ++ "{{/each}}") (le_n 2) eq_refl Ha)
      by (apply any_at_in with (p := "{{:else}}");
          [cbn; tauto | apply at_app]).
    rewrite (at_app "{{:else}}").
    change (drop_str 9 ("{{:else}}" ++ b ++ "{{/each}}"))
      with (b ++ "{{/each}}").
    rewrite (parseNodes_fuel_plain 2 ["{{/each}}"] b "{{/each}}"
               (le_n 2) eq_refl Hb eq_refl).
    reflexivity. }
  split; [exact P|].
  intros State reg data s. unfold render, compile. rewrite P.
  cbn [rn rn_with rn_node ev]. unfold bind, ret.
  assert (Hloop : forall l i,
             each_loop (fun local => rn_with (rn_node reg) (text_nodes a) local)
               data x None i l s
             = (Some (String.concat "" (map (fun _ => a) l)), s)).
  { induction l as [|v l IH]; intros i; [reflexivity|].
    cbn [map]. rewrite concat_cons. cbn [each_loop]. unfold bind, ret.
    now rewrite rn_with_text_only, IH. }
  destruct (walk (VObj data) [xs]) as [| | | | |items|]; try reflexivity.
  destruct items as [|v l].
  - rewrite rn_with_text_only. now rewrite append_empty_r.
  - rewrite (Hloop (v :: l) 0). now rewrite append_empty_r.
Qed.

End MoreBlocks.

Lemma scan_digits_spec (s : string) :
  forall dot,
    s = fst (scan_digits dot s) ++ snd (scan_digits dot s)
    /\ count_char "." (fst (scan_digits dot s)) <= (if dot then 0 else 1)
    /\ match snd (scan_digits dot s) with
       | String c _ => Chars.isDigit c = false
       | EmptyString => True
       end.
Proof.
  induction s as [|c r IH]; intros dot.
  - cbn. repeat split. destruct dot; lia.
  - cbn [scan_digits]. destruct (Chars.isDigit c) eqn:Ed.
    + destruct (IH dot) as (H1 & H2 & H3).
      destruct (scan_digits dot r) as [t rest]. cbn [fst snd] in *.
      split; [cbn; now f_equal|]. split; [|exact H3].
      cbn [count_char]. destruct (Ascii.eqb c ".") eqn:Ec; [|exact H2].
      apply Ascii.eqb_eq in Ec. subst c. discriminate.
    + destruct (Ascii.eqb c "." && negb dot) eqn:Ec.
      * apply andb_true_iff in Ec. destruct Ec as [Ec Hdot].
        destruct dot; [discriminate|].
        destruct (IH true) as (H1 & H2 & H3).
        destruct (scan_digits true r) as [t rest]. cbn [fst snd] in *.
        split; [cbn; now f_equal|]. split; [|exact H3].
        cbn [count_char]. rewrite Ec. lia.
      * cbn [fst snd]. split; [reflexivity|]. split; [|exact Ed].
        cbn. destruct dot; lia.
Qed.

(** X24: the text read for a number literal is a prefix of the input,
    holds at most one decimal point, and is followed by no digit: the
    scanner stops at a second point and reads every digit before
    it. *)
Theorem X24_number_text (s : string) :
  s = fst (scan_number s) ++ snd (scan_number s)
  /\ count_char "." (fst (scan_number s)) <= 1
  /\ match snd (scan_number s) with
     | String c _ => Chars.isDigit c = false
     | EmptyString => True
     end.
Proof.
  unfold scan_number.
  assert (Hdrop : forall c u, starts c u = true -> u = String c (drop_str 1 u)).
  { intros c u H. destruct u as [|x r]; [discriminate|]. cbn [starts] in H.
    apply Ascii.eqb_eq in H. now subst x. }
  destruct (starts "-" s) eqn:Em.
  - pose proof (Hdrop _ _ Em) as Es. set (s1 := drop_str 1 s) in *.
    clearbody s1. subst s.
    destruct (starts "." s1) eqn:Ep.
    + pose proof (Hdrop _ _ Ep) as Es1. set (s2 := drop_str 1 s1) in *.
      clearbody s2. subst s1.
      destruct (scan_digits_spec s2 true) as (H1 & H2 & H3).
      destruct (scan_digits true s2) as [t rest]. cbn [fst snd] in *.
      split; [cbn; now do 2 f_equal|]. split; [|exact H3]. cbn. lia.
    + destruct (scan_digits_spec s1 false) as (H1 & H2 & H3).
      destruct (scan_digits false s1) as [t rest]. cbn [fst snd] in *.
      split; [cbn; now f_equal|]. split; [|exact H3]. cbn. lia.
  - destruct (starts "." s) eqn:Ep.
    + pose proof (Hdrop _ _ Ep) as Es1. set (s2 := drop_str 1 s) in *.
      clearbody s2. subst s.
      destruct (scan_digits_spec s2 true) as (H1 & H2 & H3).
      destruct (scan_digits true s2) as [t rest]. cbn [fst snd] in *.
      split; [cbn; now f_equal|]. split; [|exact H3]. cbn. lia.
    + destruct (scan_digits_spec s false) as (H1 & H2 & H3).
      destruct (scan_digits false s) as [t rest]. cbn [fst snd] in *.
      split; [exact H1|]. split; [exact H2 | exact H3].
Qed.

Lemma X22_witness :
  parse (host := RefHost.host) "{{#if p}}A{{:else if q}}B{{/if}}"
  = Some [F [(V ["p"], [T "A"]); (V ["q"], [T "B"])] None]
  /\ parse (host := RefHost.host) "{{#if p}}A{{:elseif q}}B{{/if}}"
     = Some [F [(V ["p"], [T "A"]); (V ["q"], [T "B"])] None]
  /\ render (host := RefHost.host) (fns (State := unit))
       "{{#if p}}A{{:else if q}}B{{/if}}" [("q", VBool true)] tt
     = Some (Some "B", tt).
Proof.
  destruct (@X22_else_if_chain RefHost.host "p" "q" "A" "B"
              eq_refl eq_refl eq_refl eq_refl) as (H1 & H2 & H3).
  split; [exact H1|]. split; [exact H2|].
  exact (H3 unit fns [("q", VBool true)] tt).
Defined.

Lemma X23_witness :
  render (host := RefHost.host) (fns (State := unit))
    "{{#each rows as r}}*{{:else}}none{{/each}}" [("rows", VArr [])] tt
  = Some (Some "none", tt)
  /\ render (host := RefHost.host) (fns (State := unit))
       "{{#each rows as r}}*{{:else}}none{{/each}}"
       [("rows", VArr [VNull; VNull])] tt
     = Some (Some "**", tt)
  /\ render (host := RefHost.host) (fns (State := unit))
       "{{#each rows as r}}*{{:else}}none{{/each}}" [] tt
     = Some (Some "[Error: #each needs array]", tt).
Proof.
  destruct (@X23_each_else RefHost.host "rows" "r" "*" "none"
              eq_refl eq_refl eq_refl eq_refl) as (_ & H).
  split; [exact (H unit fns [("rows", VArr [])] tt)|].
  split; [exact (H unit fns [("rows", VArr [VNull; VNull])] tt)|].
  exact (H unit fns [] tt).
Defined.

(** ** The built-in [limit] *)

Lemma slice_end_le (len : nat) (n : Num.integer) : Num.slice_end len n <= len.
Proof.
  destruct n as [z| |]; cbn [Num.slice_end]; try lia.
  destruct (z <? 0)%Z eqn:E; [|lia].
  apply Z.ltb_lt in E. lia.
Qed.

Section LimitFacts.

Context {State : Type}.
Context {host : Host}.

(** X25: [limit] on an array gives a prefix of the array: the first
    [k] items for some [k], in their order, never more than the array
    holds.  A count that evaluates to [undefined] gives the whole
    array, and a negative number gives the empty array. *)
Theorem X25_limit_prefix (reg : Registry (State := State))
  (e1 e2 : Expr) (rest : list Expr) (ctx : TemplateData)
  (l : list Value) (n v : Value) (s s1 s2 s3 : State) :
  lookup_fn reg "limit" = Some (Own (Native Blimit)) ->
  ev reg e1 ctx s = (Some (VArr l), s1) ->
  ev reg e2 ctx s1 = (Some n, s2) ->
  ev reg (C "limit" (e1 :: e2 :: rest)) ctx s = (Some v, s3) ->
  s3 = s2
  /\ (exists k, k <= List.length l /\ v = VArr (firstn k l))
  /\ (n = VUndef -> v = VArr l)
  /\ (forall x, n = VNum x -> PrimFloat.ltb x PrimFloat.zero = true ->
        v = VArr []).
Proof.
  intros Hf H1 H2. cbn [ev]. unfold call. rewrite Hf. cbn [invoke builtin].
  unfold fn_limit, checked. rewrite ck_enough by (simpl; lia).
  unfold bind. cbn [arg]. rewrite H1, H2.
  destruct (toNum n) as [x|] eqn:En; cbn [liftO]; unfold ret, throw;
    [|discriminate].
  intros H. injection H as <- <-. split; [reflexivity|]. split; [|split].
  - eexists. split; [apply slice_end_le | reflexivity].
  - intros ->. cbn [toNum] in En. injection En as <-.
    change (PrimFloat.ltb PrimFloat.nan PrimFloat.zero) with false.
    cbn [Num.slice_end]. now rewrite firstn_all.
  - intros y -> Hneg. cbn [toNum] in En. injection En as <-.
    rewrite Hneg. reflexivity.
Qed.

End LimitFacts.

Lemma X25_witness :
  (exists k, k <= 3 /\ VArr [VStr "a"; VStr "b"; VStr "c"]
                       = VArr (firstn k [VStr "a"; VStr "b"; VStr "c"]))
  /\ ev (host := RefHost.host) (fns (State := unit))
       (C "limit" [V ["xs"]; V ["missing"]])
       [("xs", VArr [VStr "a"; VStr "b"; VStr "c"])] tt
     = (Some (VArr [VStr "a"; VStr "b"; VStr "c"]), tt).
Proof.
  destruct (@X25_limit_prefix unit RefHost.host fns
              (V ["xs"]) (V ["missing"]) []
              [("xs", VArr [VStr "a"; VStr "b"; VStr "c"])]
              [VStr "a"; VStr "b"; VStr "c"] VUndef
              (VArr [VStr "a"; VStr "b"; VStr "c"]) tt tt tt tt
              eq_refl eq_refl eq_refl eq_refl) as (_ & H2 & _).
  split; [exact H2 | reflexivity].
Defined.

(** ** The index of a loop and the arguments of a call *)

Lemma word_char_not_punct (c : ascii) :
  Chars.isWord c = true ->
  Ascii.eqb c "(" = false /\ Ascii.eqb c "|" = false /\ Ascii.eqb c "," = false.
Proof.
  destruct c as [[] [] [] [] [] [] [] []]; vm_compute; intros H;
    try discriminate H; now repeat split.
Qed.

Lemma parseArgs_S (pe : string -> option (Expr * string)) (k : nat)
  (c : ascii) (r : string) :
  parseArgs pe (S k) (String c r)
  = if Ascii.eqb c ")" || Ascii.eqb c "}" then Some ([], String c r)
    else
      match pe (String c r) with
      | Some (e, s1) =>
          match
            parseArgs pe k
              (if starts "," (skipWs s1) then skipWs (drop_str 1 (skipWs s1))
               else skipWs s1)
          with
          | Some (es, s4) => Some (e :: es, s4)
          | None => None
          end
      | None => None
      end.
Proof. reflexivity. Qed.

Section IndexAndArguments.

Context {host : Host}.

(** X26: an [each] block that names an index, with the tag of the
    index as its body, parses to one Loop with that index name, and
    over an array of any items renders the numbers of the iterations,
    from 0 on, each as the host prints a number.  The index name is not
    [__proto__]. *)
Theorem X26_each_index (xs x i : string) :
  variable_name xs = true -> variable_name x = true ->
  variable_name i = true -> String.eqb i "__proto__" = false ->
  parse ("{{#each " ++ xs ++ " as " ++ x ++ ", " ++ i ++ "}}"
         ++ "{{ " ++ i ++ " }}" ++ "{{/each}}")
  = Some [E (V [xs]) x (Some i) [I (V [i]) false] None]
  /\ forall (State : Type) (reg : Registry (State := State))
            (data : TemplateData) (s : State) (items : list Value),
       assoc xs data = Some (VArr items) ->
       render reg
         ("{{#each " ++ xs ++ " as " ++ x ++ ", " ++ i ++ "}}"
          ++ "{{ " ++ i ++ " }}" ++ "{{/each}}") data s
       = Some (Some (String.concat ""
                       (map (fun k => esc (numToString (Num.of_nat k)))
                            (seq 0 (List.length items)))), s).
Proof.
  intros Hxs Hx Hi Hproto.
  set (tmpl := "{{#each " ++ xs ++ " as " ++ x ++ ", " ++ i ++ "}}"
               ++ "{{ " ++ i ++ " }}" ++ "{{/each}}").
  assert (P : parse tmpl = Some [E (V [xs]) x (Some i) [I (V [i]) false] None]).
  { apply parse_of_fuel with (fuel := 4); [simpl; lia|].
    change (parseNodes_fuel 4 [] tmpl)
      with (parseLoop parseExpr (parseNodes_fuel 3) [] 3 tmpl).
    set (inner := "{{ " ++ i ++ " }}" ++ "{{/each}}").
    set (head := " as " ++ x ++ ", " ++ i ++ "}}" ++ inner).
    apply (@parseLoop_tag host (parseNodes_fuel 3) [] 2
             ("#each " ++ xs ++ head) _ "" [] "");
      [reflexivity | | reflexivity].
    change (skipWs ("#each " ++ xs ++ head)) with ("#each " ++ xs ++ head).
    unfold parseTag.
    change (starts "+" ("#each " ++ xs ++ head)) with false.
    change (starts "#" ("#each " ++ xs ++ head)) with true. cbv iota.
    change (ident (drop_str 1 ("#each " ++ xs ++ head)))
      with ("each", " " ++ xs ++ head).
    cbv iota.
    change (String.eqb "each" "if") with false.
    change (String.eqb "each" "each") with true. cbv iota.
    change (skipWs (" " ++ xs ++ head)) with (skipWs (xs ++ head)).
    rewrite (skipWs_name _ _ Hxs).
    unfold parseEach. subst head.
    rewrite (parseExpr_variable xs _ Hxs) by reflexivity.
    change (ident (skipWs (skipWs (" as " ++ x ++ ", " ++ i ++ "}}" ++ inner))))
      with ("as", " " ++ x ++ ", " ++ i ++ "}}" ++ inner).
    cbv iota.
    change (negb (String.eqb "as" "as")) with false. cbv iota.
    change (skipWs (" " ++ x ++ ", " ++ i ++ "}}" ++ inner))
      with (skipWs (x ++ ", " ++ i ++ "}}" ++ inner)).
    rewrite (skipWs_name _ _ Hx).
    destruct (variable_name_inv x Hx) as (c0 & w0 & Ex & _ & Hallx & _).
    rewrite (ident_app x (", " ++ i ++ "}}" ++ inner) Hallx) by reflexivity.
    change (skipWs (", " ++ i ++ "}}" ++ inner))
      with (", " ++ i ++ "}}" ++ inner).
    change (starts "," (", " ++ i ++ "}}" ++ inner)) with true. cbv iota.
    change (skipWs (drop_str 1 (", " ++ i ++ "}}" ++ inner)))
      with (skipWs (i ++ "}}" ++ inner)).
    rewrite (skipWs_name _ _ Hi).
    destruct (variable_name_inv i Hi) as (c1 & w1 & Ei & _ & Halli & _).
    rewrite (ident_app i ("}}" ++ inner) Halli) by reflexivity.
    change (skipWs ("}}" ++ inner)) with ("}}" ++ inner).
    rewrite skip_app.
    assert (Hbody : parseNodes_fuel 3 stops_each inner
                    = Some ([I (V [i]) false], "{{/each}}")).
    { change (parseNodes_fuel 3 stops_each inner)
        with (parseLoop parseExpr (parseNodes_fuel 2) stops_each 2 inner).
      apply (@parseLoop_tag host (parseNodes_fuel 2) stops_each 1
               (" " ++ i ++ " }}" ++ "{{/each}}")
               (I (V [i]) false) "{{/each}}" [] "{{/each}}");
        [reflexivity | | reflexivity].
      change (skipWs (" " ++ i ++ " }}" ++ "{{/each}}"))
        with (skipWs (i ++ " }}" ++ "{{/each}}")).
      rewrite (skipWs_name _ _ Hi). now apply parseTag_variable. }
    rewrite Hbody. reflexivity. }
  split; [exact P|].
  intros State reg data s items Hitems. unfold render, compile. rewrite P.
  remember [I (V [i]) false] as body eqn:Ebody.
  cbn [rn rn_with rn_node ev walk]. unfold bind, ret.
  cbn [nullish has get orb]. unfold owns. rewrite Hitems. cbn [negb get].
  assert (Hdecl : declared (Some i) = Some i).
  { destruct (variable_name_inv i Hi) as (c1 & w1 & -> & _). reflexivity. }
  assert (Hne : i <> "__proto__")
    by (intros ->; discriminate).
  assert (Hloop : forall l k,
             each_loop (fun local => rn_with (rn_node reg) body local)
               data x (Some i) k l s
             = (Some (String.concat ""
                        (map (fun j => esc (numToString (Num.of_nat j)))
                             (seq k (List.length l)))), s)).
  { induction l as [|v l IH]; intros k; [reflexivity|].
    cbn [List.length seq map]. rewrite concat_cons.
    cbn [each_loop]. unfold bind, ret.
    assert (Hitem : rn_with (rn_node reg) body
                      (local_ctx data x (Some i) v k) s
                    = (Some (esc (numToString (Num.of_nat k))), s)).
    { rewrite Ebody. cbn [rn_with rn_node ev walk]. unfold bind, ret.
      cbn [nullish has get orb]. unfold owns.
      rewrite (local_ctx_index data x (Some i) v k Hdecl (or_introl Hne)).
      cbn. now rewrite append_empty_r. }
    now rewrite Hitem, IH. }
  destruct items as [|v l].
  - reflexivity.
  - rewrite (Hloop (v :: l) 0). now rewrite append_empty_r.
Qed.

(** X27: the comma between the arguments of a call is optional.  For
    variable names [f], [x] and [y], the tags [{{ f(x, y) }}] and
    [{{ f(x y) }}] parse to the same Call of [f] on the two
    variables. *)
Theorem X27_optional_comma (f x y : string) :
  variable_name f = true -> variable_name x = true ->
  variable_name y = true ->
  parse ("{{ " ++ f ++ "(" ++ x ++ ", " ++ y ++ ") }}")
  = Some [I (C f [V [x]; V [y]]) false]
  /\ parse ("{{ " ++ f ++ "(" ++ x ++ " " ++ y ++ ") }}")
     = Some [I (C f [V [x]; V [y]]) false].
Proof.
  intros Hf Hx Hy.
  assert (Hexpr : forall sep, sep = ", " \/ sep = " " ->
             parseExpr (f ++ "(" ++ x ++ sep ++ y ++ ") }}")
             = Some (C f [V [x]; V [y]], "}}")).
  { intros sep Hsep. unfold parseExpr. cbn [parseExpr_fuel].
    rewrite (skipWs_name _ _ Hf).
    pose proof (length_name _ Hf) as Lf.
    pose proof (length_name _ Hx) as Lx.
    set (n := String.length (f ++ "(" ++ x ++ sep ++ y ++ ") }}")).
    assert (Hn : n = String.length f + 1 + String.length x
                     + String.length sep + String.length y + 4).
    { subst n. rewrite !length_append. simpl. lia. }
    destruct (variable_name_inv y Hy) as (d & u & Ey & Hd & _).
    destruct (word_char_not_punct d Hd) as (Hparen & Hpipe & _).
    destruct (word_char_plain d Hd) as (_ & _ & _ & _ & Hdot & _).
    destruct (word_char_not_bracket d Hd) as (Hclose & Hbrace).
    assert (Hargx : parseExpr_fuel n (x ++ sep ++ y ++ ") }}")
                    = Some (V [x], skipWs (sep ++ y ++ ") }}"))).
    { apply parseExpr_fuel_mono
        with (fuel := S (String.length (x ++ sep ++ y ++ ") }}"))).
      - rewrite Hn, !length_append. simpl. lia.
      - destruct Hsep; subst sep.
        + apply (parseExpr_variable x (", " ++ y ++ ") }}") Hx); reflexivity.
        + apply (parseExpr_variable x (" " ++ y ++ ") }}") Hx);
            try reflexivity;
            change (skipWs (" " ++ y ++ ") }}")) with (skipWs (y ++ ") }}"));
            rewrite (skipWs_name _ _ Hy), Ey;
            change (String d u ++ ") }}") with (String d (u ++ ") }}"));
            cbn [starts]; assumption. }
    assert (Hargy : parseExpr_fuel n (y ++ ") }}") = Some (V [y], ") }}")).
    { apply parseExpr_fuel_mono with (fuel := S (String.length (y ++ ") }}"))).
      - rewrite Hn, !length_append. simpl. lia.
      - apply (parseExpr_variable y ") }}" Hy); reflexivity. }
    assert (Hnext : (let s2 := skipWs (skipWs (sep ++ y ++ ") }}")) in
                     if starts "," s2 then skipWs (drop_str 1 s2) else s2)
                    = y ++ ") }}").
    { destruct Hsep; subst sep.
      - change (skipWs (skipWs (", " ++ y ++ ") }}")))
          with (", " ++ y ++ ") }}").
        cbv zeta.
        change (starts "," (", " ++ y ++ ") }}")) with true. cbv iota.
        change (skipWs (drop_str 1 (", " ++ y ++ ") }}")))
          with (skipWs (y ++ ") }}")).
        apply (skipWs_name _ _ Hy).
      - change (skipWs (" " ++ y ++ ") }}")) with (skipWs (y ++ ") }}")).
        rewrite skipWs_idem, (skipWs_name _ _ Hy). cbv zeta.
        destruct (word_char_not_punct d Hd) as (_ & _ & Hcomma).
        rewrite Ey. change (String d u ++ ") }}") with (String d (u ++ ") }}")).
        cbn [starts]. now rewrite Hcomma. }
    assert (Hargs : forall k,
               parseArgs (parseExpr_fuel n) (S (S k))
                 (x ++ sep ++ y ++ ") }}")
               = Some ([V [x]; V [y]], ") }}")).
    { intros k.
      destruct (variable_name_inv x Hx) as (c & w & Ex & Hc & _).
      destruct (word_char_not_bracket c Hc) as (Hcclose & Hcbrace).
      assert (Hy1 : parseArgs (parseExpr_fuel n) (S k) (y ++ ") }}")
                    = Some ([V [y]], ") }}")).
      { rewrite Ey.
        change (String d u ++ ") }}") with (String d (u ++ ") }}")).
        cbn [parseArgs]. rewrite Hclose, Hbrace. cbn [orb].
        change (String d (u ++ ") }}")) with (String d u ++ ") }}").
        rewrite <- Ey, Hargy.
        change (skipWs ") }}") with ") }}".
        change (starts "," ") }}") with false. cbv iota.
        now destruct k. }
      rewrite Ex.
      change (String c w ++ sep ++ y ++ ") }}")
        with (String c (w ++ sep ++ y ++ ") }}")).
      rewrite parseArgs_S, Hcclose, Hcbrace. cbn [orb].
      change (String c (w ++ sep ++ y ++ ") }}"))
        with (String c w ++ sep ++ y ++ ") }}").
      rewrite <- Ex, Hargx. cbv zeta in Hnext. rewrite Hnext.
      now rewrite Hy1. }
    assert (Hbase : parseBase (parseExpr_fuel n) n
                      (f ++ "(" ++ x ++ sep ++ y ++ ") }}")
                    = Some (C f [V [x]; V [y]], " }}")).
    { destruct (variable_name_inv f Hf)
        as (c & w & Ef & Hc & Hall & Hdigit & Htrue & Hfalse & Hnull).
      destruct (word_char_plain c Hc) as (Hws & Hdq & Hsq & Hminus & Hcdot & _).
      unfold parseBase.
      rewrite (ident_app f ("(" ++ x ++ sep ++ y ++ ") }}") Hall)
        by reflexivity.
      rewrite Ef in *.
      change (String c w ++ "(" ++ x ++ sep ++ y ++ ") }}")
        with (String c (w ++ "(" ++ x ++ sep ++ y ++ ") }}")).
      cbn [starts]. rewrite Hdq, Hsq. cbn [orb].
      unfold Chars.isNumStart. rewrite Hminus, Hcdot, Hdigit. cbn [orb].
      rewrite Htrue, Hfalse, Hnull.
      change (skipWs ("(" ++ x ++ sep ++ y ++ ") }}"))
        with ("(" ++ x ++ sep ++ y ++ ") }}").
      change (starts "(" ("(" ++ x ++ sep ++ y ++ ") }}")) with true.
      cbv iota.
      change (drop_str 1 ("(" ++ x ++ sep ++ y ++ ") }}"))
        with (x ++ sep ++ y ++ ") }}").
      unfold parseParens. rewrite (skipWs_name _ _ Hx).
      assert (Hn2 : exists k, n = S (S k)) by (exists (n - 2); lia).
      destruct Hn2 as [k Hk]. rewrite Hk at 2. rewrite Hargs. reflexivity. }
    rewrite Hbase. change (skipWs " }}") with "}}".
    rewrite parsePipes_no_pipe by reflexivity.
    assert (E : (String.length "}}" =? n)%nat = false)
      by (apply Nat.eqb_neq; rewrite Hn; simpl; lia).
    now rewrite E. }
  assert (Hparse : forall sep, sep = ", " \/ sep = " " ->
             parse ("{{ " ++ f ++ "(" ++ x ++ sep ++ y ++ ") }}")
             = Some [I (C f [V [x]; V [y]]) false]).
  { intros sep Hsep.
    apply parse_of_fuel with (fuel := 3); [simpl; lia|].
    cbn [parseNodes_fuel].
    apply (@parseLoop_tag host (parseNodes_fuel 2) [] 1
             (" " ++ f ++ "(" ++ x ++ sep ++ y ++ ") }}")
             (I (C f [V [x]; V [y]]) false) "" [] "");
      [reflexivity | | reflexivity].
    change (skipWs (" " ++ f ++ "(" ++ x ++ sep ++ y ++ ") }}"))
      with (skipWs (f ++ "(" ++ x ++ sep ++ y ++ ") }}")).
    rewrite (skipWs_name _ _ Hf).
    unfold parseTag. rewrite (Hexpr sep Hsep).
    destruct (variable_name_inv f Hf) as (c & w & -> & Hc & _).
    destruct (word_char_plain c Hc) as (_ & _ & _ & _ & _ & Hplus & Hhash).
    change (String c w ++ "(" ++ x ++ sep ++ y ++ ") }}")
      with (String c (w ++ "(" ++ x ++ sep ++ y ++ ") }}")).
    cbn [starts]. now rewrite Hplus, Hhash. }
  split.
  - exact (Hparse ", " (or_introl eq_refl)).
  - exact (Hparse " " (or_intror eq_refl)).
Qed.

End IndexAndArguments.

Lemma X26_witness :
  render (host := RefHost.host) (fns (State := unit))
    "{{#each rows as r, n}}{{ n }}{{/each}}"
    [("rows", VArr [VNull; VStr "b"; VArr []])] tt
  = Some (Some "012", tt).
Proof.
  destruct (@X26_each_index RefHost.host "rows" "r" "n"
              eq_refl eq_refl eq_refl eq_refl) as (_ & H).
  exact (H unit fns [("rows", VArr [VNull; VStr "b"; VArr []])] tt
           [VNull; VStr "b"; VArr []] eq_refl).
Defined.

Lemma X27_witness :
  parse (host := RefHost.host) "{{ replace(a, b) }}"
  = Some [I (C "replace" [V ["a"]; V ["b"]]) false]
  /\ parse (host := RefHost.host) "{{ replace(a b) }}"
     = Some [I (C "replace" [V ["a"]; V ["b"]]) false].
Proof.
  exact (@X27_optional_comma RefHost.host "replace" "a" "b"
           eq_refl eq_refl eq_refl).
Defined.

(** ** Unterminated string literals *)

Section Unterminated.

Context {host : Host}.

(** [parseExpr] entered, after white space, at the opening quote of a
    string literal that is not closed. *)
Lemma parseExpr_unterminated_ws (q : ascii) (body src : string) :
  q = Chars.dquote \/ q = Chars.squote ->
  scan_string q body = None ->
  skipWs src = String q body ->
  parseExpr src = Some (L (VStr ""), "").
Proof.
  intros Hq Hscan Hsrc. unfold parseExpr. cbn [parseExpr_fuel].
  rewrite Hsrc.
  assert (Hb : forall pe k, parseBase pe k (String q body)
                            = Some (L (VStr ""), "")).
  { intros pe k. unfold parseBase.
    assert (Hs : starts Chars.dquote (String q body)
                 || starts Chars.squote (String q body) = true)
      by (destruct Hq; subst q; reflexivity).
    rewrite Hs. unfold string_literal. now rewrite Hscan. }
  rewrite Hb. change (skipWs "") with "".
  now rewrite parsePipes_no_pipe by reflexivity.
Qed.

(** The call [f(] with such a literal as its first argument. *)
Lemma parseExpr_unterminated_arg (q : ascii) (body f : string) :
  q = Chars.dquote \/ q = Chars.squote ->
  scan_string q body = None ->
  variable_name f = true ->
  parseExpr (f ++ "(" ++ String q body) = Some (C f [L (VStr "")], "").
Proof.
  intros Hq Hscan Hf. unfold parseExpr. cbn [parseExpr_fuel].
  rewrite (skipWs_name _ _ Hf).
  pose proof (length_name _ Hf) as Lf.
  set (n := String.length (f ++ "(" ++ String q body)).
  assert (Hn : n = String.length f + 2 + String.length body).
  { subst n. rewrite !length_append. simpl. lia. }
  assert (Hqws : skipWs (String q body) = String q body)
    by (destruct Hq; subst q; reflexivity).
  assert (Harg : parseExpr_fuel n (String q body) = Some (L (VStr ""), "")).
  { apply parseExpr_fuel_mono
      with (fuel := S (String.length (String q body))).
    - rewrite Hn. simpl. lia.
    - exact (parseExpr_unterminated_ws q body _ Hq Hscan Hqws). }
  assert (Hbase : parseBase (parseExpr_fuel n) n (f ++ "(" ++ String q body)
                  = Some (C f [L (VStr "")], "")).
  { destruct (variable_name_inv f Hf)
      as (c & w & Ef & Hc & Hall & Hdigit & Htrue & Hfalse & Hnull).
    destruct (word_char_plain c Hc) as (Hws & Hdq & Hsq & Hminus & Hdot & _).
    unfold parseBase.
    rewrite (ident_app f ("(" ++ String q body) Hall) by reflexivity.
    rewrite Ef in *.
    change (String c w ++ "(" ++ String q body)
      with (String c (w ++ "(" ++ String q body)).
    cbn [starts]. rewrite Hdq, Hsq. cbn [orb].
    unfold Chars.isNumStart. rewrite Hminus, Hdot, Hdigit. cbn [orb].
    rewrite Htrue, Hfalse, Hnull.
    change (skipWs ("(" ++ String q body)) with ("(" ++ String q body).
    change (starts "(" ("(" ++ String q body)) with true. cbv iota.
    change (drop_str 1 ("(" ++ String q body)) with (String q body).
    unfold parseParens. rewrite Hqws.
    assert (Hn2 : exists k, n = S k) by (exists (n - 1); lia).
    destruct Hn2 as [k Hk]. rewrite Hk at 2.
    rewrite parseArgs_S.
    assert (Hclose : Ascii.eqb q ")" || Ascii.eqb q "}" = false)
      by (destruct Hq; subst q; reflexivity).
    rewrite Hclose, Harg.
    change (skipWs "") with "".
    change (starts "," "") with false. cbv iota.
    destruct k; reflexivity. }
  rewrite Hbase. change (skipWs "") with "".
  rewrite parsePipes_no_pipe by reflexivity.
  assert (E : (String.length "" =? n)%nat = false)
    by (apply Nat.eqb_neq; rewrite Hn; simpl; lia).
  now rewrite E.
Qed.

(** A tag at the end of plain text whose expression reads all the
    input. *)
Lemma parse_text_then_last_tag (t body : string) (e : Expr) :
  plain t = true ->
  starts "+" (skipWs body) = false -> starts "#" (skipWs body) = false ->
  parseExpr (skipWs body) = Some (e, "") ->
  parse (t ++ "{{" ++ body) = Some (text_nodes t ++ [I e false])%list.
Proof.
  intros Ht Hplus Hhash He.
  apply parse_of_fuel with (fuel := 3).
  { rewrite length_append. simpl. lia. }
  cbn [parseNodes_fuel].
  apply parseLoop_text_then; [reflexivity | exact Ht | |].
  - now rewrite (at_app "{{"), orb_true_r.
  - apply (@parseLoop_tag host (parseNodes_fuel 2) [] 0 body (I e false)
             "" [] ""); [reflexivity | | reflexivity].
    unfold parseTag. now rewrite Hplus, Hhash, He.
Qed.

(** C8 (as amended): when the scan for the closing quote [q] of a
    string literal reaches the end of the input, the literal is the
    empty string and the cursor is at the end of the input, so that
    nothing behind the opening quote is parsed as template text.
    [parseExpr] entered, after white space, at the opening quote
    returns the empty-string Literal and leaves nothing to read;
    entered at [f(] with the literal as the first argument it returns
    the Call of [f] on the empty-string Literal and leaves nothing to
    read.  After text without brace or backslash, a tag whose
    expression is the literal is one Interpolation of the empty-string
    Literal and the template renders as the text alone; a tag whose
    expression is the call is one Interpolation of the Call. *)
Theorem C8_unterminated_string (q : ascii) (body : string) :
  q = Chars.dquote \/ q = Chars.squote ->
  scan_string q body = None ->
  (forall src, skipWs src = String q body ->
     parseExpr src = Some (L (VStr ""), ""))
  /\ (forall f, variable_name f = true ->
        parseExpr (f ++ "(" ++ String q body) = Some (C f [L (VStr "")], ""))
  /\ (forall t, plain t = true ->
        parse (t ++ "{{" ++ String q body)
        = Some (text_nodes t ++ [I (L (VStr "")) false])%list
        /\ parse (t ++ "{{ " ++ String q body)
           = Some (text_nodes t ++ [I (L (VStr "")) false])%list
        /\ forall (State : Type) (reg : Registry (State := State))
                  (data : TemplateData) (s : State),
             render reg (t ++ "{{ " ++ String q body) data s
             = Some (Some t, s))
  /\ (forall t f, plain t = true -> variable_name f = true ->
        parse (t ++ "{{ " ++ f ++ "(" ++ String q body)
        = Some (text_nodes t ++ [I (C f [L (VStr "")]) false])%list)
  /\ (forall (State : Type) (reg : Registry (State := State))
             (data : TemplateData) (s : State) (t : string),
        plain t = true ->
        lookup_fn reg "not" = Some (Own (Native Bnot)) ->
        render reg (t ++ "{{ not(" ++ String q body) data s
        = Some (Some (t ++ "true"), s)).
Proof.
  intros Hq Hscan.
  assert (Hqws : skipWs (String q body) = String q body)
    by (destruct Hq; subst q; reflexivity).
  assert (Hplus : starts "+" (String q body) = false)
    by (destruct Hq; subst q; reflexivity).
  assert (Hhash : starts "#" (String q body) = false)
    by (destruct Hq; subst q; reflexivity).
  pose proof (parseExpr_unterminated_ws q body _ Hq Hscan Hqws) as He.
  assert (Harg : forall t f, plain t = true -> variable_name f = true ->
             parse (t ++ "{{ " ++ f ++ "(" ++ String q body)
             = Some (text_nodes t ++ [I (C f [L (VStr "")]) false])%list).
  { intros t f Ht Hf.
    change (t ++ "{{ " ++ f ++ "(" ++ String q body)
      with (t ++ "{{" ++ " " ++ f ++ "(" ++ String q body).
    destruct (variable_name_inv f Hf) as (c & w & Ef & Hc & _).
    destruct (word_char_plain c Hc) as (_ & _ & _ & _ & _ & Hp & Hh).
    apply parse_text_then_last_tag;
      change (skipWs (" " ++ f ++ "(" ++ String q body))
        with (skipWs (f ++ "(" ++ String q body));
      rewrite ?(skipWs_name _ _ Hf); try assumption.
    + rewrite Ef. change (String c w ++ "(" ++ String q body)
        with (String c (w ++ "(" ++ String q body)).
      cbn [starts]. exact Hp.
    + rewrite Ef. change (String c w ++ "(" ++ String q body)
        with (String c (w ++ "(" ++ String q body)).
      cbn [starts]. exact Hh.
    + exact (parseExpr_unterminated_arg q body f Hq Hscan Hf). }
  split; [|split; [|split; [|split]]].
  - intros src Hsrc. exact (parseExpr_unterminated_ws q body src Hq Hscan Hsrc).
  - intros f Hf. exact (parseExpr_unterminated_arg q body f Hq Hscan Hf).
  - intros t Ht.
    assert (P1 : parse (t ++ "{{" ++ String q body)
                 = Some (text_nodes t ++ [I (L (VStr "")) false])%list).
    { apply parse_text_then_last_tag; rewrite ?Hqws; assumption. }
    assert (P2 : parse (t ++ "{{ " ++ String q body)
                 = Some (text_nodes t ++ [I (L (VStr "")) false])%list).
    { change (t ++ "{{ " ++ String q body)
        with (t ++ "{{" ++ " " ++ String q body).
      apply parse_text_then_last_tag;
        change (skipWs (" " ++ String q body)) with (skipWs (String q body));
        rewrite ?Hqws; assumption. }
    split; [exact P1|]. split; [exact P2|].
    intros State reg data s. unfold render, compile. rewrite P2. unfold rn.
    rewrite (rn_with_text reg t [I (L (VStr "")) false] data s s "");
      [now rewrite append_empty_r | reflexivity].
  - exact Harg.
  - intros State reg data s t Ht Hnot. unfold render, compile.
    change (t ++ "{{ not(" ++ String q body)
      with (t ++ "{{ " ++ "not" ++ "(" ++ String q body).
    rewrite (Harg t "not" Ht eq_refl). unfold rn.
    rewrite (rn_with_text reg t [I (C "not" [L (VStr "")]) false] data s s
               "true"); [reflexivity|].
    cbn [rn_with rn_node ev]. unfold call. rewrite Hnot.
    reflexivity.
Qed.

End Unterminated.

(** A double-quoted literal that opens before [hello }} world] and is
    not closed: the tag renders nothing and the text behind it is
    lost; as the argument of [length] the literal is the empty
    string. *)
Lemma C8_witness :
  parseExpr (host := RefHost.host) (String Chars.dquote "hello }} world")
  = Some (L (VStr ""), "")
  /\ parseExpr (host := RefHost.host)
       ("length(" ++ String Chars.dquote "hello }} world")
     = Some (C "length" [L (VStr "")], "")
  /\ render (host := RefHost.host) (fns (State := unit))
       ("Hi " ++ "{{ " ++ String Chars.dquote "hello }} world") [] tt
     = Some (Some "Hi ", tt)
  /\ parse (host := RefHost.host)
       ("Hi " ++ "{{ " ++ "length(" ++ String Chars.dquote "hello }} world")
     = Some [T "Hi "; I (C "length" [L (VStr "")]) false]
  /\ render (host := RefHost.host) (fns (State := unit))
       ("Hi " ++ "{{ not(" ++ String Chars.dquote "hello }} world") [] tt
     = Some (Some "Hi true", tt).
Proof.
  destruct (@C8_unterminated_string RefHost.host Chars.dquote "hello }} world"
              (or_introl eq_refl) eq_refl) as (H1 & H2 & H3 & H4 & H5).
  split; [exact (H1 (String Chars.dquote "hello }} world") eq_refl)|].
  split; [exact (H2 "length" eq_refl)|].
  split; [exact (proj2 (proj2 (H3 "Hi " eq_refl)) unit fns [] tt)|].
  split; [exact (H4 "Hi " "length" eq_refl eq_refl)|].
  exact (H5 unit fns [] tt "Hi " eq_refl eq_refl).
Defined.
